(** * DivvyDoo backend: the ledger core

    A shallow embedding of the split calculator
    ([internal/services/expense.go]), the balance and settlement
    repositories ([internal/repositories/balance.go],
    [internal/repositories/settlement.go]) and the settlement service
    ([internal/services/settlement.go]).

    The development has two parts.

    The first part is the ledger: which balance an operation debits or
    credits by which amount, who may read what, the life of a settlement,
    the versions of the balances.  There a [float64] is an exact rational
    [Q], the arithmetic of the code without rounding, and equalities
    between computed amounts are stated with [==] ([Qeq]); a repository
    call fails only for the reasons its Go code tests for.

    The second part (module [Binary64] and the properties after it) is the
    path of an expense as it is executed: [validateExpense], the four
    split resolvers, [updateBalances] and [CreateExpense], with a
    [float64] as a binary64 number and with driver calls that can fail.
    What depends on rounding, on a tolerance test, on the order of
    additions or on the rollback of a transaction is stated there.

    Conventions common to both parts.
    - A Go [error] is a value of an inductive type, one constructor per
      error site of the source.
    - A Mongo collection is a list of documents ([FindOne] returns the first
      match, [UpdateOne] rewrites the first match), except the balances,
      which are keyed by (user_id, group_id).
    - [time.Now()] and [uuid.New()] are parameters of the operations; the
      calls of [time.Now()] within one operation read the same [now].
    - The [_id] of a document is not modelled. *)

From Stdlib Require Import QArith Qabs Lqa ZArith Lia Floats.
From stdpp Require Import gmap strings list.

Local Open Scope Q_scope.

(** ** Comparisons of the source, as booleans *)

(** [a <= b] on float64. *)
Definition fle (a b : Q) : bool := Qle_bool a b.
(** [a > b] on float64. *)
Definition fgt (a b : Q) : bool := negb (Qle_bool a b).
(** [a == b] on float64. *)
Definition feq (a b : Q) : bool := Qeq_bool a b.
(** [float64(n)] for a length. *)
Definition float64_of_nat (n : nat) : Q := inject_Z (Z.of_nat n).

(** Go's [int] is a 64-bit two's complement integer; [v++] wraps. *)
Definition int_wrap (z : Z) : Z := ((z + 2 ^ 63) mod 2 ^ 64 - 2 ^ 63)%Z.
Definition int_incr (v : Z) : Z := int_wrap (v + 1).

(** ** Models ([internal/models]) *)

(** [SplitType] is a string type; the four constants of the source. *)
Definition SplitType := string.
Definition SplitEqual : SplitType := "equal"%string.
Definition SplitExact : SplitType := "exact"%string.
Definition SplitPercentage : SplitType := "percentage"%string.
Definition SplitShares : SplitType := "shares"%string.

Record PaidBy := mkPaidBy { pb_UserID : string; pb_Amount : Q }.

Record SplitShare := mkSplitShare { ss_UserID : string; ss_Value : Q }.

Record SplitDetail := mkSplitDetail {
  sd_Type : SplitType;
  sd_Details : list SplitShare }.

Record Expense := mkExpense {
  e_ExpenseID : string;
  e_GroupID : option string;
  e_CreatorID : string;
  e_Title : string;
  e_Amount : Q;
  e_Currency : string;
  e_PaidBy : list PaidBy;
  e_Split : SplitDetail;
  e_CreatedAt : Z;
  e_UpdatedAt : Z;
  e_IsDeleted : bool }.

Record Balance := mkBalance {
  b_UserID : string;
  b_GroupID : option string;
  b_Balance : Q;
  b_Currency : string;
  b_UpdatedAt : Z;
  b_Version : Z }.

Inductive BalanceChangeType :=
| BalanceChangeExpense
| BalanceChangeSettlement
| BalanceChangeAdjustment
| BalanceChangeCorrection.

Record BalanceHistory := mkBalanceHistory {
  h_UserID : string;
  h_GroupID : option string;
  h_Amount : Q;
  h_Currency : string;
  h_Type : BalanceChangeType;
  h_ReferenceID : string;
  h_Description : string;
  h_CreatedAt : Z }.

Inductive SettlementStatus :=
| SettlementPending
| SettlementCompleted
| SettlementFailed
| SettlementCancelled.

Definition status_eqb (a b : SettlementStatus) : bool :=
  match a, b with
  | SettlementPending, SettlementPending
  | SettlementCompleted, SettlementCompleted
  | SettlementFailed, SettlementFailed
  | SettlementCancelled, SettlementCancelled => true
  | _, _ => false
  end.

Record Settlement := mkSettlement {
  s_SettlementID : string;
  s_FromUserID : string;
  s_ToUserID : string;
  s_GroupID : option string;
  s_Amount : Q;
  s_Currency : string;
  s_Status : SettlementStatus;
  s_Method : string;
  s_Description : string;
  s_TransactionID : option string;
  s_CreatedAt : Z;
  s_UpdatedAt : Z;
  s_CompletedAt : option Z;
  s_FailedAt : option Z;
  s_FailureReason : option string }.

Record SettlementRequest := mkSettlementRequest {
  rq_FromUserID : string;
  rq_ToUserID : string;
  rq_GroupID : option string;
  rq_Amount : Q;
  rq_Currency : string;
  rq_Method : string;
  rq_Description : string }.

(** The fields of a user and of a group that the ledger core reads. *)
Record User := mkUser { u_UserID : string }.

Record GroupMember := mkGroupMember { gm_UserID : string; gm_IsActive : bool }.

Record Group := mkGroup { g_GroupID : string; g_Members : list GroupMember }.

(** ** Errors *)

Inductive error :=
(* validateExpense *)
| ErrAmountNotPositive
| ErrNoPayer
| ErrInvalidPayerAmount (user : string)
| ErrTotalPaidMismatch (totalPaid amount : Q)
| ErrInvalidSplitType (t : SplitType)
(* calculateShares and the four resolvers *)
| ErrUnsupportedSplitType (t : SplitType)
| ErrNoParticipants
| ErrExactNoDetails
| ErrExactInvalidAmount (v : Q) (user : string)
| ErrExactTotalMismatch (total amount : Q)
| ErrPercentageNoDetails
| ErrInvalidPercentage (v : Q) (user : string)
| ErrTotalPercentage (total : Q)
| ErrSharesNoDetails
| ErrInvalidShareCount (v : Q) (user : string)
| ErrTotalSharesZero
(* validateUsersExist, validateGroupMembership, CreateSettlement *)
| ErrUserDoesNotExist (user : string)
| ErrNotGroupMember (user group : string)
| ErrInvalidSettlement
| ErrSettlementAmountNotPositive
(* CreateExpense *)
| ErrTransactionFailed (cause : error)
(* GetExpense *)
| ErrExpenseNotFound
| ErrNoAccess
(* settlements: [repositories.ErrSettlementNotFound] and
   [services.ErrSettlementNotFound] are two error values *)
| repositories_ErrSettlementNotFound
| ErrSettlementNotFound
| ErrOnlyPayerCanComplete
| ErrSettlementCompleted
| ErrCancelNotPending
(* balances *)
| ErrBalanceNotFound
| ErrOptimisticLockFailure.

(** The source returns untyped errors ([errors.New], [fmt.Errorf]).  In the
    taxonomy of the design the validation errors are the ones that report
    malformed input of an expense: those of [validateExpense] and of the
    split resolvers. *)
Definition is_ValidationError (err : error) : bool :=
  match err with
  | ErrAmountNotPositive | ErrNoPayer | ErrInvalidPayerAmount _
  | ErrTotalPaidMismatch _ _ | ErrInvalidSplitType _
  | ErrUnsupportedSplitType _ | ErrNoParticipants
  | ErrExactNoDetails | ErrExactInvalidAmount _ _ | ErrExactTotalMismatch _ _
  | ErrPercentageNoDetails | ErrInvalidPercentage _ _ | ErrTotalPercentage _
  | ErrSharesNoDetails | ErrInvalidShareCount _ _ | ErrTotalSharesZero => true
  | _ => false
  end.

(** ** Split calculator ([internal/services/expense.go]) *)

(** The loop of [validateExpense] over [expense.PaidBy]: returns at the first
    payer whose amount is not positive, otherwise accumulates [totalPaid]. *)
Fixpoint sumPaidBy (paidBy : list PaidBy) (totalPaid : Q) : error + Q :=
  match paidBy with
  | [] => inr totalPaid
  | pb :: rest =>
      if fle (pb_Amount pb) 0 then inl (ErrInvalidPayerAmount (pb_UserID pb))
      else sumPaidBy rest (totalPaid + pb_Amount pb)
  end.

Definition knownSplitType (t : SplitType) : bool :=
  String.eqb t SplitEqual || String.eqb t SplitExact
  || String.eqb t SplitPercentage || String.eqb t SplitShares.

(** [validateExpense]: [None] is Go's [nil]. *)
Definition validateExpense (expense : Expense) : option error :=
  if fle (e_Amount expense) 0 then Some ErrAmountNotPositive
  else if Nat.eqb (length (e_PaidBy expense)) 0 then Some ErrNoPayer
  else match sumPaidBy (e_PaidBy expense) 0 with
       | inl err => Some err
       | inr totalPaid =>
           if fgt (Qabs (totalPaid - e_Amount expense)) (1 # 100)
           then Some (ErrTotalPaidMismatch totalPaid (e_Amount expense))
           else if knownSplitType (sd_Type (e_Split expense)) then None
           else Some (ErrInvalidSplitType (sd_Type (e_Split expense)))
       end.

(** The two loops that fill the [participants] map of
    [calculateEqualShares]. *)
Definition participantsOf (expense : Expense) : gset string :=
  let participants : gset string :=
    foldl (fun m pb => {[ pb_UserID pb ]} ∪ m) ∅ (e_PaidBy expense) in
  foldl (fun m share => {[ ss_UserID share ]} ∪ m) participants
        (sd_Details (e_Split expense)).

(** [shares[0].Value += diff], guarded by [len(shares) > 0]. *)
Definition adjustFirst (diff : Q) (shares : list SplitShare) : list SplitShare :=
  match shares with
  | [] => []
  | s :: rest => mkSplitShare (ss_UserID s) (ss_Value s + diff) :: rest
  end.

Section SplitCalculator.

(** The order in which a [for ... range] statement visits the keys of a Go
    map is unspecified: it is a parameter of the functions that range over
    a map.  The properties below assume only that it visits every key
    once. *)
Variable range : gset string -> list string.

Definition calculateEqualShares (expense : Expense) : error + list SplitShare :=
  let participants := participantsOf expense in
  let numParticipants := size participants in
  if Nat.eqb numParticipants 0 then inl ErrNoParticipants
  else
    let equalShare := e_Amount expense / float64_of_nat numParticipants in
    let shares := map (fun userID => mkSplitShare userID equalShare)
                      (range participants) in
    let total := equalShare * float64_of_nat numParticipants in
    let diff := e_Amount expense - total in
    inr (adjustFirst diff shares).

(** The validation loop of [calculateExactShares]. *)
Fixpoint sumExact (details : list SplitShare) (totalSpecified : Q) : error + Q :=
  match details with
  | [] => inr totalSpecified
  | share :: rest =>
      if fle (ss_Value share) 0
      then inl (ErrExactInvalidAmount (ss_Value share) (ss_UserID share))
      else sumExact rest (totalSpecified + ss_Value share)
  end.

Definition calculateExactShares (expense : Expense) : error + list SplitShare :=
  let details := sd_Details (e_Split expense) in
  if Nat.eqb (length details) 0 then inl ErrExactNoDetails
  else match sumExact details 0 with
       | inl err => inl err
       | inr totalSpecified =>
           if fgt (Qabs (totalSpecified - e_Amount expense)) (1 # 100)
           then inl (ErrExactTotalMismatch totalSpecified (e_Amount expense))
           else inr (map (fun share =>
                            mkSplitShare (ss_UserID share) (ss_Value share))
                         details)
       end.

(** The validation loop of [calculatePercentageShares]. *)
Fixpoint sumPercentage (details : list SplitShare) (totalPercentage : Q)
  : error + Q :=
  match details with
  | [] => inr totalPercentage
  | share :: rest =>
      if fle (ss_Value share) 0 || fgt (ss_Value share) 100
      then inl (ErrInvalidPercentage (ss_Value share) (ss_UserID share))
      else sumPercentage rest (totalPercentage + ss_Value share)
  end.

(** The second loop of [calculatePercentageShares] and of
    [calculateShareBased]: the two loops differ only in the divisor
    ([100.0], [totalShares]).  [i] is the loop index, [n] is
    [len(expense.Split.Details)], [details] the entries not yet visited. *)
Fixpoint resolveLoop (divisor amount : Q) (n i : nat)
    (details : list SplitShare) (totalCalculated : Q) : list SplitShare :=
  match details with
  | [] => []
  | share :: rest =>
      let a := (ss_Value share / divisor) * amount in
      let a := if Nat.eqb i (n - 1) then amount - totalCalculated else a in
      mkSplitShare (ss_UserID share) a
        :: resolveLoop divisor amount n (S i) rest (totalCalculated + a)
  end.

Definition calculatePercentageShares (expense : Expense)
  : error + list SplitShare :=
  let details := sd_Details (e_Split expense) in
  if Nat.eqb (length details) 0 then inl ErrPercentageNoDetails
  else match sumPercentage details 0 with
       | inl err => inl err
       | inr totalPercentage =>
           if fgt (Qabs (totalPercentage - 100)) (1 # 100)
           then inl (ErrTotalPercentage totalPercentage)
           else inr (resolveLoop 100 (e_Amount expense) (length details) 0
                                 details 0)
       end.

(** The first loop of [calculateShareBased]. *)
Fixpoint sumShareCounts (details : list SplitShare) (totalShares : Q)
  : error + Q :=
  match details with
  | [] => inr totalShares
  | share :: rest =>
      if fle (ss_Value share) 0
      then inl (ErrInvalidShareCount (ss_Value share) (ss_UserID share))
      else sumShareCounts rest (totalShares + ss_Value share)
  end.

Definition calculateShareBased (expense : Expense) : error + list SplitShare :=
  let details := sd_Details (e_Split expense) in
  if Nat.eqb (length details) 0 then inl ErrSharesNoDetails
  else match sumShareCounts details 0 with
       | inl err => inl err
       | inr totalShares =>
           if feq totalShares 0 then inl ErrTotalSharesZero
           else inr (resolveLoop totalShares (e_Amount expense)
                                 (length details) 0 details 0)
       end.

Definition calculateShares (expense : Expense) : error + list SplitShare :=
  let t := sd_Type (e_Split expense) in
  if String.eqb t SplitEqual then calculateEqualShares expense
  else if String.eqb t SplitExact then calculateExactShares expense
  else if String.eqb t SplitPercentage then calculatePercentageShares expense
  else if String.eqb t SplitShares then calculateShareBased expense
  else inl (ErrUnsupportedSplitType t).

End SplitCalculator.

(** ** The document store and the monad of the repositories *)

Record Store := mkStore {
  st_users : list User;
  st_groups : list Group;
  st_expenses : list Expense;
  st_balances : gmap (string * option string) Balance;
  st_history : list BalanceHistory;
  st_settlements : list Settlement }.

Definition set_expenses (v : list Expense) (st : Store) : Store :=
  mkStore (st_users st) (st_groups st) v (st_balances st) (st_history st)
          (st_settlements st).
Definition set_balances (v : gmap (string * option string) Balance)
    (st : Store) : Store :=
  mkStore (st_users st) (st_groups st) (st_expenses st) v (st_history st)
          (st_settlements st).
Definition set_history (v : list BalanceHistory) (st : Store) : Store :=
  mkStore (st_users st) (st_groups st) (st_expenses st) (st_balances st) v
          (st_settlements st).
Definition set_settlements (v : list Settlement) (st : Store) : Store :=
  mkStore (st_users st) (st_groups st) (st_expenses st) (st_balances st)
          (st_history st) v.

(** A call that reads or writes the store and returns a value or an error. *)
Definition M (A : Type) : Type := Store -> (error + A) * Store.

#[global] Instance M_ret : MRet M := fun A a st => (inr a, st).
#[global] Instance M_bind : MBind M := fun A B f m st =>
  match m st with
  | (inl err, st') => (inl err, st')
  | (inr a, st') => f a st'
  end.

Definition fail {A : Type} (err : error) : M A := fun st => (inl err, st).

(** [if err := v; err != nil { return err }] for a pure check. *)
Definition check (v : option error) : M unit :=
  match v with Some err => fail err | None => mret tt end.

Definition lift {A : Type} (v : error + A) : M A :=
  match v with inl err => fail err | inr a => mret a end.

(** [session.WithTransaction]: the writes of a callback that returns an
    error are rolled back. *)
Definition WithTransaction {A : Type} (fn : M A) : M A := fun st =>
  match fn st with
  | (inl err, _) => (inl err, st)
  | (inr a, st') => (inr a, st')
  end.

(** [FindOne]: the first document that matches the filter. *)
Definition findOne {A : Type} (filter : A -> bool) (docs : list A) : option A :=
  List.find filter docs.

(** [UpdateOne]: rewrites the first document that matches the filter;
    [None] when [MatchedCount] is 0. *)
Fixpoint updateOne {A : Type} (filter : A -> bool) (update : A -> A)
    (docs : list A) : option (list A) :=
  match docs with
  | [] => None
  | d :: rest =>
      if filter d then Some (update d :: rest)
      else match updateOne filter update rest with
           | Some rest' => Some (d :: rest')
           | None => None
           end
  end.

Module UserRepository.

(** [ExistMultiple]: the ids of [userIDs] with no user document. *)
Definition ExistMultiple (userIDs : list string) : M (list string) := fun st =>
  if Nat.eqb (length userIDs) 0 then (inr [], st)
  else
    let existingIDs : gset string :=
      list_to_set (map u_UserID
        (List.filter (fun u => bool_decide (u_UserID u ∈ userIDs))
                     (st_users st))) in
    (inr (List.filter (fun id => negb (bool_decide (id ∈ existingIDs))) userIDs),
     st).

(** [Exists]: a count, limited to 1, of the user documents with the id. *)
Definition Exists (userID : string) : M bool := fun st =>
  let count :=
    length (take 1 (List.filter (fun u => String.eqb (u_UserID u) userID)
                                (st_users st))) in
  (inr (Nat.ltb 0 count), st).

End UserRepository.

(** The errors of the membership writers of the group repository. *)
Inductive groupError :=
| ErrGroupNotFound
| ErrMemberNotInGroup
| ErrMemberAlreadyInGroup.

Definition set_groups (v : list Group) (st : Store) : Store :=
  mkStore (st_users st) v (st_expenses st) (st_balances st) (st_history st)
          (st_settlements st).

Module GroupRepository.

(** [GetNonMembers]: the ids of [userIDs] that are not active members of
    the group. *)
Definition GetNonMembers (groupID : string) (userIDs : list string)
  : M (list string) := fun st =>
  if Nat.eqb (length userIDs) 0 then (inr [], st)
  else
    let matched :=
      List.filter (fun g => String.eqb (g_GroupID g) groupID) (st_groups st) in
    let unwound := flat_map g_Members matched in
    let memberIDs : gset string :=
      list_to_set (map gm_UserID
        (List.filter (fun m => bool_decide (gm_UserID m ∈ userIDs)
                               && gm_IsActive m) unwound)) in
    (inr (List.filter (fun id => negb (bool_decide (id ∈ memberIDs))) userIDs),
     st).

(** The [$elemMatch] of [IsMember]: an active member entry of the user. *)
Definition hasActiveMember (userID : string) (g : Group) : bool :=
  existsb (fun m => String.eqb (gm_UserID m) userID && gm_IsActive m)
          (g_Members g).

(** [IsMember]: a count, limited to 1, of the group documents with the id
    and an active entry of the user. *)
Definition IsMember (groupID userID : string) : M bool := fun st =>
  let count :=
    length (take 1 (List.filter
                      (fun g => String.eqb (g_GroupID g) groupID
                                && hasActiveMember userID g)
                      (st_groups st))) in
  (inr (Nat.ltb 0 count), st).

(** [AddMember]: the entry is pushed, active, at the end of the member
    array of the first group document with the id. *)
Definition AddMember (groupID : string) (member : GroupMember)
  : Store -> (groupError + unit) * Store := fun st =>
  match IsMember groupID (gm_UserID member) st with
  | (inr true, _) => (inl ErrMemberAlreadyInGroup, st)
  | _ =>
      let member := mkGroupMember (gm_UserID member) true in
      match updateOne (fun g => String.eqb (g_GroupID g) groupID)
                      (fun g => mkGroup (g_GroupID g) (g_Members g ++ [member]))
                      (st_groups st) with
      | Some docs => (inr tt, set_groups docs st)
      | None => (inl ErrGroupNotFound, st)
      end
  end.

(** [members.$.is_active = false]: the positional operator stands for the
    first entry of the array that matches [members.user_id]. *)
Fixpoint deactivateFirst (userID : string) (members : list GroupMember)
  : list GroupMember :=
  match members with
  | [] => []
  | m :: rest =>
      if String.eqb (gm_UserID m) userID
      then mkGroupMember (gm_UserID m) false :: rest
      else m :: deactivateFirst userID rest
  end.

Definition RemoveMember (groupID userID : string)
  : Store -> (groupError + unit) * Store := fun st =>
  match updateOne
          (fun g => String.eqb (g_GroupID g) groupID
                    && existsb (fun m => String.eqb (gm_UserID m) userID)
                               (g_Members g))
          (fun g => mkGroup (g_GroupID g)
                            (deactivateFirst userID (g_Members g)))
          (st_groups st) with
  | Some docs => (inr tt, set_groups docs st)
  | None => (inl ErrMemberNotInGroup, st)
  end.

End GroupRepository.

Module ExpenseRepository.

Definition CreateExpense (now : Z) (expense : Expense) : M Expense := fun st =>
  let expense :=
    mkExpense (e_ExpenseID expense) (e_GroupID expense) (e_CreatorID expense)
              (e_Title expense) (e_Amount expense) (e_Currency expense)
              (e_PaidBy expense) (e_Split expense) now now false in
  (inr expense, set_expenses (st_expenses st ++ [expense]) st).

Definition GetByID (expenseID : string) : M Expense := fun st =>
  match findOne (fun e => String.eqb (e_ExpenseID e) expenseID
                          && negb (e_IsDeleted e)) (st_expenses st) with
  | Some expense => (inr expense, st)
  | None => (inl ErrExpenseNotFound, st)
  end.

(** The [$or] filter of [GetByUserID] and [CountByUserID]: the user is the
    creator, a payer, or in the split; deleted expenses are left out. *)
Definition involves (userID : string) (e : Expense) : bool :=
  negb (e_IsDeleted e)
  && (String.eqb (e_CreatorID e) userID
      || existsb (fun pb => String.eqb (pb_UserID pb) userID) (e_PaidBy e)
      || existsb (fun share => String.eqb (ss_UserID share) userID)
                 (sd_Details (e_Split e))).

Definition CountByUserID (userID : string) : M nat := fun st =>
  (inr (length (List.filter (involves userID) (st_expenses st))), st).

(** The [$set] document of [SoftDelete]. *)
Definition deleted (now : Z) (e : Expense) : Expense :=
  mkExpense (e_ExpenseID e) (e_GroupID e) (e_CreatorID e) (e_Title e)
    (e_Amount e) (e_Currency e) (e_PaidBy e) (e_Split e) (e_CreatedAt e) now
    true.

(** [SoftDelete]: its filter is the id alone. *)
Definition SoftDelete (now : Z) (expenseID : string) : M unit := fun st =>
  match updateOne (fun e => String.eqb (e_ExpenseID e) expenseID)
                  (deleted now) (st_expenses st) with
  | Some docs => (inr tt, set_expenses docs st)
  | None => (inl ErrExpenseNotFound, st)
  end.

End ExpenseRepository.

Module BalanceRepository.

Definition GetByUserAndGroup (userID : string) (groupID : option string)
  : M Balance := fun st =>
  match st_balances st !! (userID, groupID) with
  | Some balance => (inr balance, st)
  | None => (inl ErrBalanceNotFound, st)
  end.

(** [UpdateBalance]: the upserting [$inc] of the balance and the version. *)
Definition UpdateBalance (now : Z) (userID : string) (groupID : option string)
    (amount : Q) : M unit := fun st =>
  let doc :=
    match st_balances st !! (userID, groupID) with
    | Some b => mkBalance (b_UserID b) (b_GroupID b) (b_Balance b + amount)
                          (b_Currency b) now (b_Version b + 1)%Z
    | None => mkBalance userID groupID amount "USD" now 1%Z
    end in
  (inr tt, set_balances (<[(userID, groupID) := doc]> (st_balances st)) st).

(** [UpdateBalanceWithVersion] takes a pointer: the first component is the
    caller's struct after the call, the second the effect on the store. *)
Definition UpdateBalanceWithVersion (now : Z) (balance : Balance)
  : Balance * M unit :=
  let currentVersion := b_Version balance in
  let balance :=
    mkBalance (b_UserID balance) (b_GroupID balance) (b_Balance balance)
              (b_Currency balance) now (int_incr currentVersion) in
  (balance,
   fun st =>
     let key := (b_UserID balance, b_GroupID balance) in
     match st_balances st !! key with
     | Some doc =>
         if Z.eqb (b_Version doc) currentVersion then
           let doc' :=
             mkBalance (b_UserID doc) (b_GroupID doc) (b_Balance balance)
                       (b_Currency doc) (b_UpdatedAt balance)
                       (b_Version balance) in
           (inr tt, set_balances (<[key := doc']> (st_balances st)) st)
         else (inl ErrOptimisticLockFailure, st)
     | None => (inl ErrOptimisticLockFailure, st)
     end).

Definition CreateBalanceHistory (now : Z) (history : BalanceHistory) : M unit :=
  fun st =>
  let history :=
    mkBalanceHistory (h_UserID history) (h_GroupID history) (h_Amount history)
                     (h_Currency history) (h_Type history)
                     (h_ReferenceID history) (h_Description history) now in
  (inr tt, set_history (st_history st ++ [history]) st).

(** [Create]: the insert fails with a duplicate key when the (user, scope)
    pair has a balance, and the stored one is returned instead. *)
Definition Create (now : Z) (balance : Balance) : M Balance := fun st =>
  let balance :=
    mkBalance (b_UserID balance) (b_GroupID balance) (b_Balance balance)
              (b_Currency balance) now 1%Z in
  match st_balances st !! (b_UserID balance, b_GroupID balance) with
  | Some _ => GetByUserAndGroup (b_UserID balance) (b_GroupID balance) st
  | None =>
      (inr balance,
       set_balances (<[(b_UserID balance, b_GroupID balance) := balance]>
                       (st_balances st)) st)
  end.

End BalanceRepository.

(** The [$set] document of [UpdateStatus]. *)
Definition withStatus (now : Z) (status : SettlementStatus) (s : Settlement)
  : Settlement :=
  mkSettlement (s_SettlementID s) (s_FromUserID s) (s_ToUserID s)
    (s_GroupID s) (s_Amount s) (s_Currency s) status (s_Method s)
    (s_Description s) (s_TransactionID s) (s_CreatedAt s) now
    (s_CompletedAt s) (s_FailedAt s) (s_FailureReason s).

(** The [$set] document of [MarkCompleted]. *)
Definition completed (now : Z) (transactionID : option string)
    (s : Settlement) : Settlement :=
  mkSettlement (s_SettlementID s) (s_FromUserID s) (s_ToUserID s)
    (s_GroupID s) (s_Amount s) (s_Currency s) SettlementCompleted
    (s_Method s) (s_Description s) transactionID (s_CreatedAt s) now
    (Some now) (s_FailedAt s) (s_FailureReason s).

(** The [$set] document of [MarkFailed]. *)
Definition failed (now : Z) (reason : string) (s : Settlement) : Settlement :=
  mkSettlement (s_SettlementID s) (s_FromUserID s) (s_ToUserID s)
    (s_GroupID s) (s_Amount s) (s_Currency s) SettlementFailed (s_Method s)
    (s_Description s) (s_TransactionID s) (s_CreatedAt s) now
    (s_CompletedAt s) (Some now) (Some reason).

(** The [$set] document of [MarkCancelled]. *)
Definition cancelled (now : Z) (s : Settlement) : Settlement :=
  mkSettlement (s_SettlementID s) (s_FromUserID s) (s_ToUserID s)
    (s_GroupID s) (s_Amount s) (s_Currency s) SettlementCancelled
    (s_Method s) (s_Description s) (s_TransactionID s) (s_CreatedAt s) now
    (s_CompletedAt s) (s_FailedAt s) (s_FailureReason s).

Module SettlementRepository.

Definition byID (settlementID : string) (s : Settlement) : bool :=
  String.eqb (s_SettlementID s) settlementID.

Definition Create (now : Z) (settlement : Settlement) : M Settlement := fun st =>
  let settlement :=
    mkSettlement (s_SettlementID settlement) (s_FromUserID settlement)
      (s_ToUserID settlement) (s_GroupID settlement) (s_Amount settlement)
      (s_Currency settlement) SettlementPending (s_Method settlement)
      (s_Description settlement) (s_TransactionID settlement) now now
      (s_CompletedAt settlement) (s_FailedAt settlement)
      (s_FailureReason settlement) in
  (inr settlement, set_settlements (st_settlements st ++ [settlement]) st).

Definition GetByID (settlementID : string) : M Settlement := fun st =>
  match findOne (byID settlementID) (st_settlements st) with
  | Some settlement => (inr settlement, st)
  | None => (inl repositories_ErrSettlementNotFound, st)
  end.

(** The shared tail of the four status writers: [UpdateOne] and the test of
    [MatchedCount]. *)
Definition updateByID (settlementID : string) (update : Settlement -> Settlement)
  : M unit := fun st =>
  match updateOne (byID settlementID) update (st_settlements st) with
  | Some docs => (inr tt, set_settlements docs st)
  | None => (inl repositories_ErrSettlementNotFound, st)
  end.

Definition UpdateStatus (now : Z) (settlementID : string)
    (status : SettlementStatus) : M unit :=
  updateByID settlementID (withStatus now status).

Definition MarkCompleted (now : Z) (settlementID : string)
    (transactionID : option string) : M unit :=
  updateByID settlementID (completed now transactionID).

Definition MarkFailed (now : Z) (settlementID : string) (reason : string)
  : M unit :=
  updateByID settlementID (failed now reason).

Definition MarkCancelled (now : Z) (settlementID : string) : M unit :=
  updateByID settlementID (cancelled now).

End SettlementRepository.

(** ** Expense service ([internal/services/expense.go], continued) *)

(** The [userIDSet] map of [validateUsersExist] and
    [validateGroupMembership]. *)
Definition userIDSetOf (expense : Expense) : gset string :=
  let userIDSet : gset string := {[ e_CreatorID expense ]} in
  let userIDSet :=
    foldl (fun m pb => {[ pb_UserID pb ]} ∪ m) userIDSet (e_PaidBy expense) in
  foldl (fun m share => {[ ss_UserID share ]} ∪ m) userIDSet
        (sd_Details (e_Split expense)).

(** The inner loop of [updateBalances], over the payers, for one share. *)
Fixpoint updateBalancesPayers (now : Z) (groupID : option string)
    (share : SplitShare) (paidBy : list PaidBy) : M unit :=
  match paidBy with
  | [] => mret tt
  | pb :: rest =>
      (if String.eqb (pb_UserID pb) (ss_UserID share) then
         let netChange := pb_Amount pb - ss_Value share in
         BalanceRepository.UpdateBalance now (pb_UserID pb) groupID netChange
       else if fgt (ss_Value share) 0 then
         BalanceRepository.UpdateBalance now (ss_UserID share) groupID
                                         (- ss_Value share) ;;
         BalanceRepository.UpdateBalance now (pb_UserID pb) groupID
                                         (ss_Value share)
       else mret tt) ;;
      updateBalancesPayers now groupID share rest
  end.

(** The outer loop of [updateBalances], over the shares. *)
Fixpoint updateBalancesShares (now : Z) (groupID : option string)
    (paidBy : list PaidBy) (details : list SplitShare) : M unit :=
  match details with
  | [] => mret tt
  | share :: rest =>
      updateBalancesPayers now groupID share paidBy ;;
      updateBalancesShares now groupID paidBy rest
  end.

Definition updateBalances (now : Z) (expense : Expense) : M unit :=
  updateBalancesShares now (e_GroupID expense) (e_PaidBy expense)
                       (sd_Details (e_Split expense)).

Definition GetExpense (expenseID userID : string) : M Expense :=
  expense ← ExpenseRepository.GetByID expenseID ;
  let hasAccess := String.eqb (e_CreatorID expense) userID in
  let hasAccess :=
    if negb hasAccess
    then existsb (fun pb => String.eqb (pb_UserID pb) userID) (e_PaidBy expense)
    else hasAccess in
  let hasAccess :=
    if negb hasAccess
    then existsb (fun share => String.eqb (ss_UserID share) userID)
                 (sd_Details (e_Split expense))
    else hasAccess in
  if negb hasAccess then fail ErrNoAccess else mret expense.

Section ExpenseService.

Variable range : gset string -> list string.

Definition validateUsersExist (expense : Expense) : M unit :=
  let userIDs := range (userIDSetOf expense) in
  missingUsers ← UserRepository.ExistMultiple userIDs ;
  match missingUsers with
  | user :: _ => fail (ErrUserDoesNotExist user)
  | [] => mret tt
  end.

Definition validateGroupMembership (groupID : string) (expense : Expense)
  : M unit :=
  let userIDs := range (userIDSetOf expense) in
  nonMembers ← GroupRepository.GetNonMembers groupID userIDs ;
  match nonMembers with
  | user :: _ => fail (ErrNotGroupMember user groupID)
  | [] => mret tt
  end.

(** [CreateExpense]; [newID] is the result of [uuid.New().String()]. *)
Definition CreateExpense (newID : string) (now : Z) (expense : Expense)
  : M Expense :=
  check (validateExpense expense) ;;
  validateUsersExist expense ;;
  match e_GroupID expense with
  | Some groupID => validateGroupMembership groupID expense
  | None => mret tt
  end ;;
  shares ← lift (calculateShares range expense) ;
  let expense :=
    mkExpense newID (e_GroupID expense) (e_CreatorID expense)
      (e_Title expense) (e_Amount expense) (e_Currency expense)
      (e_PaidBy expense) (mkSplitDetail (sd_Type (e_Split expense)) shares)
      now now (e_IsDeleted expense) in
  ((fun st =>
    match WithTransaction
            (createdExpense ← ExpenseRepository.CreateExpense now expense ;
             updateBalances now createdExpense ;;
             mret createdExpense) st with
    | (inl err, st') => (inl (ErrTransactionFailed err), st')
    | (inr _, st') => (inr expense, st')
    end) : M Expense).

End ExpenseService.

(** ** Settlement service ([internal/services/settlement.go]) *)

Definition CreateSettlement (newID : string) (now : Z) (req : SettlementRequest)
  : M Settlement :=
  if String.eqb (rq_FromUserID req) (rq_ToUserID req)
  then fail ErrInvalidSettlement
  else
    missingUsers ← UserRepository.ExistMultiple
                     [rq_FromUserID req; rq_ToUserID req] ;
    match missingUsers with
    | user :: _ => fail (ErrUserDoesNotExist user)
    | [] =>
        if fle (rq_Amount req) 0 then fail ErrSettlementAmountNotPositive
        else
          SettlementRepository.Create now
            (mkSettlement newID (rq_FromUserID req) (rq_ToUserID req)
               (rq_GroupID req) (rq_Amount req) (rq_Currency req)
               SettlementPending (rq_Method req) (rq_Description req) None
               now now None None None)
    end.

(** The two history rows that [CompleteSettlement] builds. *)
Definition fromHistory (now : Z) (settlementID : string) (s : Settlement)
  : BalanceHistory :=
  mkBalanceHistory (s_FromUserID s) (s_GroupID s) (s_Amount s) (s_Currency s)
    BalanceChangeSettlement settlementID "Settlement payment to user" now.

Definition toHistory (now : Z) (settlementID : string) (s : Settlement)
  : BalanceHistory :=
  mkBalanceHistory (s_ToUserID s) (s_GroupID s) (- s_Amount s) (s_Currency s)
    BalanceChangeSettlement settlementID "Settlement received from user" now.

Definition CompleteSettlement (now : Z) (settlementID userID : string)
    (transactionID : option string) : M unit :=
  settlement ← SettlementRepository.GetByID settlementID ;
  if negb (String.eqb (s_FromUserID settlement) userID)
  then fail ErrOnlyPayerCanComplete
  else if negb (status_eqb (s_Status settlement) SettlementPending)
  then fail ErrSettlementCompleted
  else
    WithTransaction
      (SettlementRepository.MarkCompleted now settlementID transactionID ;;
       BalanceRepository.UpdateBalance now (s_FromUserID settlement)
         (s_GroupID settlement) (s_Amount settlement) ;;
       BalanceRepository.UpdateBalance now (s_ToUserID settlement)
         (s_GroupID settlement) (- s_Amount settlement) ;;
       BalanceRepository.CreateBalanceHistory now
         (fromHistory now settlementID settlement) ;;
       BalanceRepository.CreateBalanceHistory now
         (toHistory now settlementID settlement)).

Definition CancelSettlement (now : Z) (settlementID userID : string) : M unit :=
  settlement ← SettlementRepository.GetByID settlementID ;
  if negb (String.eqb (s_FromUserID settlement) userID)
     && negb (String.eqb (s_ToUserID settlement) userID)
  then fail ErrSettlementNotFound
  else if negb (status_eqb (s_Status settlement) SettlementPending)
  then fail ErrCancelNotPending
  else SettlementRepository.MarkCancelled now settlementID.

(** The balance of a user in a scope, zero when no balance document exists
    ([GetUserBalanceInGroup] of the balance service substitutes the same
    zero). *)
Definition balanceOf (st : Store) (userID : string) (groupID : option string)
  : Q :=
  match st_balances st !! (userID, groupID) with
  | Some b => b_Balance b
  | None => 0
  end.


(** The sum of the values of a list of shares, as a [for] loop computes it. *)
Definition sumValues (shares : list SplitShare) : Q :=
  foldl (fun total share => total + ss_Value share) 0 shares.

(** ** Vocabulary of the properties *)

(** A percentage in (0, 100]. *)
Definition validPercentage (share : SplitShare) : Prop :=
  0 < ss_Value share /\ ss_Value share <= 100.

(** The preconditions of an expense, as the design lists them. *)
Definition validStructure (expense : Expense) : Prop :=
  0 < e_Amount expense
  /\ e_PaidBy expense <> []
  /\ Forall (fun pb => 0 < pb_Amount pb) (e_PaidBy expense)
  /\ Qabs (foldl (fun t pb => t + pb_Amount pb) 0 (e_PaidBy expense)
           - e_Amount expense) <= 1 # 100
  /\ sd_Type (e_Split expense)
     ∈ [SplitEqual; SplitExact; SplitPercentage; SplitShares].

(** The operations of the settlement service that write settlements. *)
Inductive SettlementOp :=
| OpCreate (newID : string) (now : Z) (req : SettlementRequest)
| OpComplete (now : Z) (settlementID userID : string)
             (transactionID : option string)
| OpCancel (now : Z) (settlementID userID : string).

(** The store after an operation, whether it succeeds or fails. *)
Definition runOp (op : SettlementOp) (st : Store) : Store :=
  match op with
  | OpCreate newID now req => snd (CreateSettlement newID now req st)
  | OpComplete now settlementID userID transactionID =>
      snd (CompleteSettlement now settlementID userID transactionID st)
  | OpCancel now settlementID userID =>
      snd (CancelSettlement now settlementID userID st)
  end.

(** The store after the transaction of [CompleteSettlement]. *)
Definition completedStore (now : Z) (settlementID : string)
    (transactionID : option string) (s : Settlement)
    (before after : list Settlement) (st : Store) : Store :=
  let st1 :=
    set_settlements (before ++ completed now transactionID s :: after) st in
  let st2 :=
    snd (BalanceRepository.UpdateBalance now (s_FromUserID s) (s_GroupID s)
           (s_Amount s) st1) in
  let st3 :=
    snd (BalanceRepository.UpdateBalance now (s_ToUserID s) (s_GroupID s)
           (- s_Amount s) st2) in
  set_history (st_history st3 ++ [fromHistory now settlementID s;
                                  toHistory now settlementID s]) st3.

(** The users that [GetExpense] lets read an expense. *)
Definition hasAccess (expense : Expense) (userID : string) : Prop :=
  e_CreatorID expense = userID
  \/ userID ∈ map pb_UserID (e_PaidBy expense)
  \/ userID ∈ map ss_UserID (sd_Details (e_Split expense)).

(** The increments that the inner loop of [updateBalances] passes to
    [UpdateBalance] for one share, in the order of the calls. *)
Fixpoint deltasPayers (share : SplitShare) (paidBy : list PaidBy)
  : list (string * Q) :=
  match paidBy with
  | [] => []
  | pb :: rest =>
      (if String.eqb (pb_UserID pb) (ss_UserID share) then
         [(pb_UserID pb, pb_Amount pb - ss_Value share)]
       else if fgt (ss_Value share) 0 then
         [(ss_UserID share, - ss_Value share); (pb_UserID pb, ss_Value share)]
       else [])
      ++ deltasPayers share rest
  end.

(** The increments of [updateBalances] for an expense. *)
Definition deltas (expense : Expense) : list (string * Q) :=
  flat_map (fun share => deltasPayers share (e_PaidBy expense))
           (sd_Details (e_Split expense)).

(** The sum of the increments of one user. *)
Definition sumFor (userID : string) (ds : list (string * Q)) : Q :=
  foldr (fun d total =>
           if String.eqb (fst d) userID then snd d + total else total) 0 ds.

(** The net balance delta of a user for an expense. *)
Definition netDelta (expense : Expense) (userID : string) : Q :=
  sumFor userID (deltas expense).

(** The store after a list of increments in one scope. *)
Definition applyDeltas (now : Z) (groupID : option string)
    (ds : list (string * Q)) (st : Store) : Store :=
  foldl (fun st d =>
           snd (BalanceRepository.UpdateBalance now (fst d) groupID (snd d) st))
        st ds.

(** An expense with its split details replaced ([expense.Split.Details =
    shares] in [CreateExpense]). *)
Definition withShares (expense : Expense) (shares : list SplitShare)
  : Expense :=
  mkExpense (e_ExpenseID expense) (e_GroupID expense) (e_CreatorID expense)
    (e_Title expense) (e_Amount expense) (e_Currency expense)
    (e_PaidBy expense) (mkSplitDetail (sd_Type (e_Split expense)) shares)
    (e_CreatedAt expense) (e_UpdatedAt expense) (e_IsDeleted expense).

(** The scenario: 90.00 paid by A, split equally among A, B and C. *)
Definition expense90 : Expense :=
  mkExpense "" None "A" "dinner" 90 "USD" [mkPaidBy "A" 90]
    (mkSplitDetail SplitEqual
       [mkSplitShare "A" 0; mkSplitShare "B" 0; mkSplitShare "C" 0])
    0 0 false.


(** A pending settlement of 50.00 from X to Y, and a store that holds it. *)
Definition settlement50 : Settlement :=
  mkSettlement "s1" "X" "Y" None 50 "USD" SettlementPending "cash" "" None
    1 1 None None None.

Definition storeXY : Store :=
  mkStore [mkUser "X"; mkUser "Y"] [] [] ∅ [] [settlement50].

(** ** Further operations of the services *)

(** [GetSettlement] of the settlement service: the repository's not-found
    error is replaced by the service's. *)
Definition GetSettlement (settlementID userID : string) : M Settlement :=
  fun st =>
  match SettlementRepository.GetByID settlementID st with
  | (inl repositories_ErrSettlementNotFound, st') =>
      (inl ErrSettlementNotFound, st')
  | (inl err, st') => (inl err, st')
  | (inr settlement, st') =>
      if negb (String.eqb (s_FromUserID settlement) userID)
         && negb (String.eqb (s_ToUserID settlement) userID)
      then (inl ErrSettlementNotFound, st')
      else (inr settlement, st')
  end.

(** [GetUserBalanceInGroup] of the balance service: a missing balance is
    answered with a zero balance (the zero values of [UpdatedAt] and
    [Version] are 0). *)
Definition GetUserBalanceInGroup (userID groupID : string) : M Balance :=
  fun st =>
  match BalanceRepository.GetByUserAndGroup userID (Some groupID) st with
  | (inl ErrBalanceNotFound, st') =>
      (inr (mkBalance userID (Some groupID) 0 "USD" 0 0), st')
  | (inl err, st') => (inl err, st')
  | (inr balance, st') => (inr balance, st')
  end.

(** ** Vocabulary of the further properties *)

(** The sum of the history deltas of a user in a scope. *)
Definition historySum (st : Store) (userID : string) (groupID : option string)
  : Q :=
  foldr (fun h total =>
           if String.eqb (h_UserID h) userID
              && bool_decide (h_GroupID h = groupID)
           then h_Amount h + total else total) 0 (st_history st).

(** Every balance is the sum of its history deltas. *)
Definition reconciled (st : Store) : Prop :=
  forall userID groupID,
    balanceOf st userID groupID == historySum st userID groupID.

(** The terms of a settlement: everything but its status, its transaction
    reference, its failure reason and its update, completion and failure
    times. *)
Definition sameTerms (s s' : Settlement) : Prop :=
  s_SettlementID s' = s_SettlementID s
  /\ s_FromUserID s' = s_FromUserID s
  /\ s_ToUserID s' = s_ToUserID s
  /\ s_GroupID s' = s_GroupID s
  /\ s_Amount s' = s_Amount s
  /\ s_Currency s' = s_Currency s
  /\ s_Method s' = s_Method s
  /\ s_Description s' = s_Description s
  /\ s_CreatedAt s' = s_CreatedAt s.

(** The expense that [CreateExpense] returns, and the document it stores
    (the repository clears [IsDeleted]). *)
Definition createdExpense (newID : string) (now : Z) (expense : Expense)
    (shares : list SplitShare) : Expense :=
  mkExpense newID (e_GroupID expense) (e_CreatorID expense) (e_Title expense)
    (e_Amount expense) (e_Currency expense) (e_PaidBy expense)
    (mkSplitDetail (sd_Type (e_Split expense)) shares) now now
    (e_IsDeleted expense).

Definition storedExpense (newID : string) (now : Z) (expense : Expense)
    (shares : list SplitShare) : Expense :=
  mkExpense newID (e_GroupID expense) (e_CreatorID expense) (e_Title expense)
    (e_Amount expense) (e_Currency expense) (e_PaidBy expense)
    (mkSplitDetail (sd_Type (e_Split expense)) shares) now now false.

(** The version of a balance, 0 when no balance document exists. *)
Definition versionOf (st : Store) (userID : string) (groupID : option string)
  : Z :=
  match st_balances st !! (userID, groupID) with
  | Some b => b_Version b
  | None => 0%Z
  end.


(** The ids of the users of an expense: creator, payers, participants. *)
Definition mentioned (expense : Expense) (userID : string) : Prop :=
  e_CreatorID expense = userID
  \/ userID ∈ map pb_UserID (e_PaidBy expense)
  \/ userID ∈ map ss_UserID (sd_Details (e_Split expense)).

(** A user document with the id exists. *)
Definition userExists (st : Store) (userID : string) : Prop :=
  userID ∈ map u_UserID (st_users st).

(** Some group document with the id has an active entry of the user. *)
Definition activeMember (st : Store) (groupID userID : string) : Prop :=
  exists g m, g ∈ st_groups st /\ g_GroupID g = groupID
              /\ m ∈ g_Members g /\ gm_UserID m = userID
              /\ gm_IsActive m = true.

(** Inputs for the further properties: a store with the three users of the
    90.00 scenario, the scenario with its resolved shares, a store with one
    balance, and a store with one group. *)
Definition storeABC : Store :=
  mkStore [mkUser "A"; mkUser "B"; mkUser "C"] [] [] ∅ [] [].

Definition resolved90 : Expense :=
  withShares expense90
    [mkSplitShare "A" 30; mkSplitShare "B" 30; mkSplitShare "C" 30].

(** The 90.00 scenario recorded in that store, keys visited in the order
    of [elements]. *)
Definition shares90 : list SplitShare :=
  match calculateShares elements expense90 with
  | inr shares => shares
  | inl _ => []
  end.

Definition store90 : Store :=
  snd (CreateExpense elements "e1" 7 expense90 storeABC).

Definition balanceA : Balance := mkBalance "A" None 10 "USD" 1 5.

Definition storeA : Store :=
  mkStore [mkUser "A"] [] [] {[ ("A"%string, None) := balanceA ]} [] [].

Definition storeG : Store :=
  mkStore [mkUser "A"; mkUser "B"]
    [mkGroup "g1" [mkGroupMember "A" true; mkGroupMember "B" true]]
    [] ∅ [] [].

(** * The expense path over binary64

    The part of the source whose behaviour depends on rounding, on a
    tolerance test or on a failing driver call is embedded a second time:
    [validateExpense], the four split resolvers, [updateBalances] and
    [CreateExpense] with the repository calls they make.  A [float64] is a
    binary64 number of the kernel ([float]); [+], [-], [*], [/] round to
    nearest even, as Go's do, and [abs] is [math.Abs].  A decimal literal
    of the source or of a JSON request stands for the nearest binary64
    number.  Every call of the Mongo driver takes its outcome from the
    list [w_driver] of the world it runs in, and a failed call returns the
    driver's error as the Go code does. *)
Module Binary64.

#[local] Set Warnings "-inexact-float".
Local Open Scope float_scope.

(** ** Comparisons and conversions of the source *)

(** [a <= b]. *)
Definition fle (a b : float) : bool := (a <=? b).
(** [a > b]. *)
Definition fgt (a b : float) : bool := (b <? a).
(** [a == b]. *)
Definition feq (a b : float) : bool := (a =? b).
(** [float64(n)] for a length. *)
Definition float64_of_nat (n : nat) : float :=
  of_uint63 (Uint63.of_Z (Z.of_nat n)).

(** The rational number that a finite binary64 number is. *)
Definition toQ (x : float) : Q :=
  match Prim2SF x with
  | S754_finite s m e =>
      ((if s then -1 else 1) * inject_Z (Z.pos m) * 2 ^ e)%Q
  | _ => 0%Q
  end.

(** ** Models *)

Record PaidBy := mkPaidBy { pb_UserID : string; pb_Amount : float }.

Record SplitShare := mkSplitShare { ss_UserID : string; ss_Value : float }.

Record SplitDetail := mkSplitDetail {
  sd_Type : SplitType;
  sd_Details : list SplitShare }.

Record Expense := mkExpense {
  e_ExpenseID : string;
  e_GroupID : option string;
  e_CreatorID : string;
  e_Title : string;
  e_Amount : float;
  e_Currency : string;
  e_PaidBy : list PaidBy;
  e_Split : SplitDetail;
  e_CreatedAt : Z;
  e_UpdatedAt : Z;
  e_IsDeleted : bool }.

Record Balance := mkBalance {
  b_UserID : string;
  b_GroupID : option string;
  b_Balance : float;
  b_Currency : string;
  b_UpdatedAt : Z;
  b_Version : Z }.

(** ** Errors *)

Inductive error :=
(* validateExpense *)
| ErrAmountNotPositive
| ErrNoPayer
| ErrInvalidPayerAmount (user : string)
| ErrTotalPaidMismatch (totalPaid amount : float)
| ErrInvalidSplitType (t : SplitType)
(* calculateShares and the four resolvers *)
| ErrUnsupportedSplitType (t : SplitType)
| ErrNoParticipants
| ErrExactNoDetails
| ErrExactInvalidAmount (v : float) (user : string)
| ErrExactTotalMismatch (total amount : float)
| ErrPercentageNoDetails
| ErrInvalidPercentage (v : float) (user : string)
| ErrTotalPercentage (total : float)
| ErrSharesNoDetails
| ErrInvalidShareCount (v : float) (user : string)
| ErrTotalSharesZero
(* validateUsersExist, validateGroupMembership *)
| ErrCheckUserExistence (cause : error)
| ErrUserDoesNotExist (user : string)
| ErrCheckGroupMembership (cause : error)
| ErrNotGroupMember (user group : string)
(* CreateExpense *)
| ErrStartSession (cause : error)
| ErrTransactionFailed (cause : error)
(* the Mongo driver *)
| ErrDriver.

(** The errors that report malformed input of an expense: those of
    [validateExpense] and of the split resolvers. *)
Definition is_ValidationError (err : error) : bool :=
  match err with
  | ErrAmountNotPositive | ErrNoPayer | ErrInvalidPayerAmount _
  | ErrTotalPaidMismatch _ _ | ErrInvalidSplitType _
  | ErrUnsupportedSplitType _ | ErrNoParticipants
  | ErrExactNoDetails | ErrExactInvalidAmount _ _ | ErrExactTotalMismatch _ _
  | ErrPercentageNoDetails | ErrInvalidPercentage _ _ | ErrTotalPercentage _
  | ErrSharesNoDetails | ErrInvalidShareCount _ _ | ErrTotalSharesZero => true
  | _ => false
  end.

(** ** Split calculator ([internal/services/expense.go]) *)

(** The loop of [validateExpense] over [expense.PaidBy]. *)
Fixpoint sumPaidBy (paidBy : list PaidBy) (totalPaid : float) : error + float :=
  match paidBy with
  | [] => inr totalPaid
  | pb :: rest =>
      if fle (pb_Amount pb) 0 then inl (ErrInvalidPayerAmount (pb_UserID pb))
      else sumPaidBy rest (totalPaid + pb_Amount pb)
  end.

(** [validateExpense]: [None] is Go's [nil]. *)
Definition validateExpense (expense : Expense) : option error :=
  if fle (e_Amount expense) 0 then Some ErrAmountNotPositive
  else if Nat.eqb (length (e_PaidBy expense)) 0 then Some ErrNoPayer
  else match sumPaidBy (e_PaidBy expense) 0 with
       | inl err => Some err
       | inr totalPaid =>
           if fgt (abs (totalPaid - e_Amount expense)) 0.01
           then Some (ErrTotalPaidMismatch totalPaid (e_Amount expense))
           else if knownSplitType (sd_Type (e_Split expense)) then None
           else Some (ErrInvalidSplitType (sd_Type (e_Split expense)))
       end.

(** The two loops that fill the [participants] map of
    [calculateEqualShares]. *)
Definition participantsOf (expense : Expense) : gset string :=
  let participants : gset string :=
    foldl (fun m pb => {[ pb_UserID pb ]} ∪ m) ∅ (e_PaidBy expense) in
  foldl (fun m share => {[ ss_UserID share ]} ∪ m) participants
        (sd_Details (e_Split expense)).

(** [shares[0].Value += diff], guarded by [len(shares) > 0]. *)
Definition adjustFirst (diff : float) (shares : list SplitShare)
  : list SplitShare :=
  match shares with
  | [] => []
  | s :: rest => mkSplitShare (ss_UserID s) (ss_Value s + diff) :: rest
  end.

Section SplitCalculator.

(** The order in which [for ... range] visits the keys of a map. *)
Variable range : gset string -> list string.

Definition calculateEqualShares (expense : Expense) : error + list SplitShare :=
  let participants := participantsOf expense in
  let numParticipants := size participants in
  if Nat.eqb numParticipants 0 then inl ErrNoParticipants
  else
    let equalShare := e_Amount expense / float64_of_nat numParticipants in
    let shares := map (fun userID => mkSplitShare userID equalShare)
                      (range participants) in
    let total := equalShare * float64_of_nat numParticipants in
    let diff := e_Amount expense - total in
    inr (adjustFirst diff shares).

(** The validation loop of [calculateExactShares]. *)
Fixpoint sumExact (details : list SplitShare) (totalSpecified : float)
  : error + float :=
  match details with
  | [] => inr totalSpecified
  | share :: rest =>
      if fle (ss_Value share) 0
      then inl (ErrExactInvalidAmount (ss_Value share) (ss_UserID share))
      else sumExact rest (totalSpecified + ss_Value share)
  end.

Definition calculateExactShares (expense : Expense) : error + list SplitShare :=
  let details := sd_Details (e_Split expense) in
  if Nat.eqb (length details) 0 then inl ErrExactNoDetails
  else match sumExact details 0 with
       | inl err => inl err
       | inr totalSpecified =>
           if fgt (abs (totalSpecified - e_Amount expense)) 0.01
           then inl (ErrExactTotalMismatch totalSpecified (e_Amount expense))
           else inr (map (fun share =>
                            mkSplitShare (ss_UserID share) (ss_Value share))
                         details)
       end.

(** The validation loop of [calculatePercentageShares]. *)
Fixpoint sumPercentage (details : list SplitShare) (totalPercentage : float)
  : error + float :=
  match details with
  | [] => inr totalPercentage
  | share :: rest =>
      if fle (ss_Value share) 0 || fgt (ss_Value share) 100
      then inl (ErrInvalidPercentage (ss_Value share) (ss_UserID share))
      else sumPercentage rest (totalPercentage + ss_Value share)
  end.

(** The second loop of [calculatePercentageShares] and of
    [calculateShareBased], which differ only in the divisor.  [i] is the
    loop index, [n] is [len(expense.Split.Details)], [details] the entries
    not yet visited. *)
Fixpoint resolveLoop (divisor amount : float) (n i : nat)
    (details : list SplitShare) (totalCalculated : float) : list SplitShare :=
  match details with
  | [] => []
  | share :: rest =>
      let a := (ss_Value share / divisor) * amount in
      let a := if Nat.eqb i (n - 1) then amount - totalCalculated else a in
      mkSplitShare (ss_UserID share) a
        :: resolveLoop divisor amount n (S i) rest (totalCalculated + a)
  end.

Definition calculatePercentageShares (expense : Expense)
  : error + list SplitShare :=
  let details := sd_Details (e_Split expense) in
  if Nat.eqb (length details) 0 then inl ErrPercentageNoDetails
  else match sumPercentage details 0 with
       | inl err => inl err
       | inr totalPercentage =>
           if fgt (abs (totalPercentage - 100)) 0.01
           then inl (ErrTotalPercentage totalPercentage)
           else inr (resolveLoop 100 (e_Amount expense) (length details) 0
                                 details 0)
       end.

(** The first loop of [calculateShareBased]. *)
Fixpoint sumShareCounts (details : list SplitShare) (totalShares : float)
  : error + float :=
  match details with
  | [] => inr totalShares
  | share :: rest =>
      if fle (ss_Value share) 0
      then inl (ErrInvalidShareCount (ss_Value share) (ss_UserID share))
      else sumShareCounts rest (totalShares + ss_Value share)
  end.

Definition calculateShareBased (expense : Expense) : error + list SplitShare :=
  let details := sd_Details (e_Split expense) in
  if Nat.eqb (length details) 0 then inl ErrSharesNoDetails
  else match sumShareCounts details 0 with
       | inl err => inl err
       | inr totalShares =>
           if feq totalShares 0 then inl ErrTotalSharesZero
           else inr (resolveLoop totalShares (e_Amount expense)
                                 (length details) 0 details 0)
       end.

Definition calculateShares (expense : Expense) : error + list SplitShare :=
  let t := sd_Type (e_Split expense) in
  if String.eqb t SplitEqual then calculateEqualShares expense
  else if String.eqb t SplitExact then calculateExactShares expense
  else if String.eqb t SplitPercentage then calculatePercentageShares expense
  else if String.eqb t SplitShares then calculateShareBased expense
  else inl (ErrUnsupportedSplitType t).

End SplitCalculator.

(** ** The collections, the driver and the monad of the calls *)

(** The collections that the expense path reads and writes. *)
Record Store := mkStore {
  st_users : list User;
  st_groups : list Group;
  st_expenses : list Expense;
  st_balances : gmap (string * option string) Balance }.

Definition set_expenses (v : list Expense) (st : Store) : Store :=
  mkStore (st_users st) (st_groups st) v (st_balances st).
Definition set_balances (v : gmap (string * option string) Balance)
    (st : Store) : Store :=
  mkStore (st_users st) (st_groups st) (st_expenses st) v.

(** The database and the outcomes of the coming driver calls, in the
    order of the calls: [true] is a call that fails.  When the list is
    used up, the calls succeed. *)
Record World := mkWorld { w_store : Store; w_driver : list bool }.

Definition M (A : Type) : Type := World -> (error + A) * World.

#[export] Instance M_ret : MRet M := fun A a w => (inr a, w).
#[export] Instance M_bind : MBind M := fun A B f m w =>
  match m w with
  | (inl err, w') => (inl err, w')
  | (inr a, w') => f a w'
  end.

Definition fail {A : Type} (err : error) : M A := fun w => (inl err, w).

(** [if err := v; err != nil { return err }] for a pure check. *)
Definition check (v : option error) : M unit :=
  match v with Some err => fail err | None => mret tt end.

Definition lift {A : Type} (v : error + A) : M A :=
  match v with inl err => fail err | inr a => mret a end.

(** A round trip to the database: it takes the next outcome. *)
Definition driverCall : M unit := fun w =>
  match w_driver w with
  | true :: rest => (inl ErrDriver, mkWorld (w_store w) rest)
  | false :: rest => (inr tt, mkWorld (w_store w) rest)
  | [] => (inr tt, w)
  end.

(** A read of the database. *)
Definition query {A : Type} (f : Store -> A) : M A := fun w =>
  (inr (f (w_store w)), w).

(** A write of the database. *)
Definition write (f : Store -> Store) : M unit := fun w =>
  (inr tt, mkWorld (f (w_store w)) (w_driver w)).

(** [session.WithTransaction]: the callback runs once; when it returns an
    error the transaction is aborted and its writes are undone.  The
    driver's retries and a failing commit are not modelled. *)
Definition WithTransaction {A : Type} (fn : M A) : M A := fun w =>
  match fn w with
  | (inl err, w') => (inl err, mkWorld (w_store w) (w_driver w'))
  | (inr a, w') => (inr a, w')
  end.

(** [err] wrapped by [fmt.Errorf]. *)
Definition wrap {A : Type} (f : error -> error) (m : M A) : M A := fun w =>
  match m w with
  | (inl err, w') => (inl (f err), w')
  | (inr a, w') => (inr a, w')
  end.

Module UserRepository.

(** [ExistMultiple]: the ids of [userIDs] with no user document. *)
Definition ExistMultiple (userIDs : list string) : M (list string) :=
  if Nat.eqb (length userIDs) 0 then mret []
  else
    driverCall ;;
    query (fun st =>
      let existingIDs : gset string :=
        list_to_set (map u_UserID
          (List.filter (fun u => bool_decide (u_UserID u ∈ userIDs))
                       (st_users st))) in
      List.filter (fun id => negb (bool_decide (id ∈ existingIDs))) userIDs).

End UserRepository.

Module GroupRepository.

(** [GetNonMembers]: the ids of [userIDs] that are not active members of
    the group. *)
Definition GetNonMembers (groupID : string) (userIDs : list string)
  : M (list string) :=
  if Nat.eqb (length userIDs) 0 then mret []
  else
    driverCall ;;
    query (fun st =>
      let matched :=
        List.filter (fun g => String.eqb (g_GroupID g) groupID)
                    (st_groups st) in
      let unwound := flat_map g_Members matched in
      let memberIDs : gset string :=
        list_to_set (map gm_UserID
          (List.filter (fun m => bool_decide (gm_UserID m ∈ userIDs)
                                 && gm_IsActive m) unwound)) in
      List.filter (fun id => negb (bool_decide (id ∈ memberIDs))) userIDs).

End GroupRepository.

Module ExpenseRepository.

Definition StartSession : M unit := driverCall.

Definition CreateExpense (now : Z) (expense : Expense) : M Expense :=
  let expense :=
    mkExpense (e_ExpenseID expense) (e_GroupID expense) (e_CreatorID expense)
              (e_Title expense) (e_Amount expense) (e_Currency expense)
              (e_PaidBy expense) (e_Split expense) now now false in
  driverCall ;;
  write (fun st => set_expenses (st_expenses st ++ [expense]) st) ;;
  mret expense.

End ExpenseRepository.

(** The upserting [$inc] of [UpdateBalance]: the balance and the version
    of the document are incremented; a missing document is inserted with
    the increment as its balance. *)
Definition increment (now : Z) (userID : string) (groupID : option string)
    (amount : float) (st : Store) : Store :=
  let doc :=
    match st_balances st !! (userID, groupID) with
    | Some b => mkBalance (b_UserID b) (b_GroupID b) (b_Balance b + amount)
                          (b_Currency b) now (b_Version b + 1)%Z
    | None => mkBalance userID groupID amount "USD" now 1%Z
    end in
  set_balances (<[(userID, groupID) := doc]> (st_balances st)) st.

Module BalanceRepository.

Definition UpdateBalance (now : Z) (userID : string) (groupID : option string)
    (amount : float) : M unit :=
  driverCall ;; write (increment now userID groupID amount).

End BalanceRepository.

(** ** Expense service ([internal/services/expense.go]) *)

(** The [userIDSet] map of [validateUsersExist] and
    [validateGroupMembership]. *)
Definition userIDSetOf (expense : Expense) : gset string :=
  let userIDSet : gset string := {[ e_CreatorID expense ]} in
  let userIDSet :=
    foldl (fun m pb => {[ pb_UserID pb ]} ∪ m) userIDSet (e_PaidBy expense) in
  foldl (fun m share => {[ ss_UserID share ]} ∪ m) userIDSet
        (sd_Details (e_Split expense)).

(** The inner loop of [updateBalances], over the payers, for one share. *)
Fixpoint updateBalancesPayers (now : Z) (groupID : option string)
    (share : SplitShare) (paidBy : list PaidBy) : M unit :=
  match paidBy with
  | [] => mret tt
  | pb :: rest =>
      (if String.eqb (pb_UserID pb) (ss_UserID share) then
         let netChange := pb_Amount pb - ss_Value share in
         BalanceRepository.UpdateBalance now (pb_UserID pb) groupID netChange
       else if fgt (ss_Value share) 0 then
         BalanceRepository.UpdateBalance now (ss_UserID share) groupID
                                         (- ss_Value share) ;;
         BalanceRepository.UpdateBalance now (pb_UserID pb) groupID
                                         (ss_Value share)
       else mret tt) ;;
      updateBalancesPayers now groupID share rest
  end.

(** The outer loop of [updateBalances], over the shares. *)
Fixpoint updateBalancesShares (now : Z) (groupID : option string)
    (paidBy : list PaidBy) (details : list SplitShare) : M unit :=
  match details with
  | [] => mret tt
  | share :: rest =>
      updateBalancesPayers now groupID share paidBy ;;
      updateBalancesShares now groupID paidBy rest
  end.

Definition updateBalances (now : Z) (expense : Expense) : M unit :=
  updateBalancesShares now (e_GroupID expense) (e_PaidBy expense)
                       (sd_Details (e_Split expense)).

Section ExpenseService.

Variable range : gset string -> list string.

Definition validateUsersExist (expense : Expense) : M unit :=
  let userIDs := range (userIDSetOf expense) in
  missingUsers ← wrap ErrCheckUserExistence
                   (UserRepository.ExistMultiple userIDs) ;
  match missingUsers with
  | user :: _ => fail (ErrUserDoesNotExist user)
  | [] => mret tt
  end.

Definition validateGroupMembership (groupID : string) (expense : Expense)
  : M unit :=
  let userIDs := range (userIDSetOf expense) in
  nonMembers ← wrap ErrCheckGroupMembership
                 (GroupRepository.GetNonMembers groupID userIDs) ;
  match nonMembers with
  | user :: _ => fail (ErrNotGroupMember user groupID)
  | [] => mret tt
  end.

(** The expense that [CreateExpense] builds once the shares are resolved;
    [newID] is the result of [uuid.New().String()]. *)
Definition withShares (newID : string) (now : Z) (expense : Expense)
    (shares : list SplitShare) : Expense :=
  mkExpense newID (e_GroupID expense) (e_CreatorID expense)
    (e_Title expense) (e_Amount expense) (e_Currency expense)
    (e_PaidBy expense) (mkSplitDetail (sd_Type (e_Split expense)) shares)
    now now (e_IsDeleted expense).

(** The callback that [CreateExpense] passes to [WithTransaction]. *)
Definition transaction (now : Z) (expense : Expense) : M Expense :=
  createdExpense ← ExpenseRepository.CreateExpense now expense ;
  updateBalances now createdExpense ;;
  mret createdExpense.

Definition CreateExpense (newID : string) (now : Z) (expense : Expense)
  : M Expense :=
  check (validateExpense expense) ;;
  validateUsersExist expense ;;
  match e_GroupID expense with
  | Some groupID => validateGroupMembership groupID expense
  | None => mret tt
  end ;;
  shares ← lift (calculateShares range expense) ;
  let expense := withShares newID now expense shares in
  wrap ErrStartSession ExpenseRepository.StartSession ;;
  wrap ErrTransactionFailed (WithTransaction (transaction now expense)) ;;
  mret expense.

End ExpenseService.

(** ** Vocabulary of the properties *)

(** The sum of the values of a list of shares, as a [for] loop computes
    it in binary64. *)
Definition sumValues (shares : list SplitShare) : float :=
  foldl (fun total share => total + ss_Value share) 0 shares.

(** The sum of the values as rational numbers, without rounding. *)
Definition sumExactly (shares : list SplitShare) : Q :=
  foldr (fun share total => (toQ (ss_Value share) + total)%Q) 0%Q shares.

(** [totalPaid] of [validateExpense]. *)
Definition totalPaid (paidBy : list PaidBy) : float :=
  foldl (fun total pb => total + pb_Amount pb) 0 paidBy.

(** [x] is not [<= 0]: for a number, [x > 0]. *)
Definition positive (x : float) : Prop := (x <=? 0) = false.

(** The distance of [a] and [b] is not [> 0.01]: for numbers, [a] is
    within 0.01 of [b]. *)
Definition within001 (a b : float) : Prop := (0.01 <? abs (a - b)) = false.

(** A percentage in (0, 100]: not [<= 0] and not [> 100]. *)
Definition validPercentage (share : SplitShare) : Prop :=
  positive (ss_Value share) /\ (100 <? ss_Value share) = false.

(** The preconditions of an expense, as [validateExpense] tests them. *)
Definition validStructure (expense : Expense) : Prop :=
  positive (e_Amount expense)
  /\ e_PaidBy expense <> []
  /\ Forall (fun pb => positive (pb_Amount pb)) (e_PaidBy expense)
  /\ within001 (totalPaid (e_PaidBy expense)) (e_Amount expense)
  /\ sd_Type (e_Split expense)
     ∈ [SplitEqual; SplitExact; SplitPercentage; SplitShares].


(** The increments that the inner loop of [updateBalances] passes to
    [UpdateBalance] for one share, in the order of the calls. *)
Fixpoint deltasPayers (share : SplitShare) (paidBy : list PaidBy)
  : list (string * float) :=
  match paidBy with
  | [] => []
  | pb :: rest =>
      (if String.eqb (pb_UserID pb) (ss_UserID share) then
         [(pb_UserID pb, pb_Amount pb - ss_Value share)]
       else if (0 <? ss_Value share) then
         [(ss_UserID share, - ss_Value share); (pb_UserID pb, ss_Value share)]
       else [])
      ++ deltasPayers share rest
  end.

(** The increments of [updateBalances] for an expense. *)
Definition deltas (expense : Expense) : list (string * float) :=
  flat_map (fun share => deltasPayers share (e_PaidBy expense))
           (sd_Details (e_Split expense)).

(** The store after a list of increments in one scope. *)
Definition applyDeltas (now : Z) (groupID : option string)
    (ds : list (string * float)) (st : Store) : Store :=
  foldl (fun st d => increment now (fst d) groupID (snd d) st) st ds.

(** The calls of [UpdateBalance] for a list of increments in one scope. *)
Fixpoint updateAll (now : Z) (groupID : option string)
    (ds : list (string * float)) : M unit :=
  match ds with
  | [] => mret tt
  | d :: rest =>
      BalanceRepository.UpdateBalance now (fst d) groupID (snd d) ;;
      updateAll now groupID rest
  end.

(** The increments of one user in a list of increments, in their order. *)
Definition incrementsOf (userID : string) (ds : list (string * float))
  : list float :=
  map snd (List.filter (fun d => String.eqb (fst d) userID) ds).

(** A balance after increments: each is added to the balance before, and
    the first one is the balance of a document that did not exist. *)
Definition accumulate (start : option float) (increments : list float)
  : option float :=
  foldl (fun balance d =>
           Some (match balance with Some b => b + d | None => d end))
        start increments.

(** A call that leaves the collections as they are. *)
Definition readonly {A : Type} (m : M A) : Prop :=
  forall w, w_store (snd (m w)) = w_store w.

(** A call that leaves the collections as they are when it returns an
    error. *)
Definition atomic {A : Type} (m : M A) : Prop :=
  forall w err w', m w = (inl err, w') -> w_store w' = w_store w.

(** The version of a balance, 0 when no balance document exists. *)
Definition versionOf (st : Store) (userID : string) (groupID : option string)
  : Z :=
  match st_balances st !! (userID, groupID) with
  | Some b => b_Version b
  | None => 0%Z
  end.

(** The document that [CreateExpense] stores (the repository clears
    [IsDeleted]). *)
Definition storedExpense (newID : string) (now : Z) (expense : Expense)
    (shares : list SplitShare) : Expense :=
  mkExpense newID (e_GroupID expense) (e_CreatorID expense) (e_Title expense)
    (e_Amount expense) (e_Currency expense) (e_PaidBy expense)
    (mkSplitDetail (sd_Type (e_Split expense)) shares) now now false.

(** An expense paid in full by one user and split equally. *)
Definition equalSplit (amount : float) (payer : string)
    (participants : list string) : Expense :=
  mkExpense "" None payer "shared" amount "USD" [mkPaidBy payer amount]
    (mkSplitDetail SplitEqual
       (map (fun userID => mkSplitShare userID 0) participants))
    0 0 false.

(** An expense paid in full by one user and split by weights of 1. *)
Definition weightedSplit (amount : float) (payer : string)
    (participants : list string) : Expense :=
  mkExpense "" None payer "shared" amount "USD" [mkPaidBy payer amount]
    (mkSplitDetail SplitShares
       (map (fun userID => mkSplitShare userID 1) participants))
    0 0 false.

(** 100.00 among seven users, and 10^15 among six. *)
Definition expense100 : Expense :=
  equalSplit 100 "A" ["A"; "B"; "C"; "D"; "E"; "F"; "G"]%string.

Definition expense1e15 : Expense :=
  equalSplit 1e15 "A" ["A"; "B"; "C"; "D"; "E"; "F"]%string.

(** 90.00 among three users. *)
Definition expense90 : Expense :=
  equalSplit 90 "A" ["A"; "B"; "C"]%string.

(** A split of 100.00 by percentages. *)
Definition percentages (values : list float) : Expense :=
  mkExpense "" None "A" "rent" 100 "USD" [mkPaidBy "A" 100]
    (mkSplitDetail SplitPercentage
       (map (fun v => mkSplitShare "A" v) values))
    0 0 false.

(** The values of the shares of a result. *)
Definition valuesOf (result : error + list SplitShare) : error + list float :=
  match result with
  | inl err => inl err
  | inr shares => inr (map ss_Value shares)
  end.

(** An expense whose payers paid the given amounts. *)
Definition paidExpense (amount : float) (amounts : list float) : Expense :=
  mkExpense "" None "A" "shared" amount "USD"
    (map (fun a => mkPaidBy "A" a) amounts)
    (mkSplitDetail SplitEqual []) 0 0 false.

(** A world with the users A, B and C and no other document. *)
Definition worldABC (driver : list bool) : World :=
  mkWorld (mkStore [mkUser "A"; mkUser "B"; mkUser "C"] [] [] ∅) driver.

End Binary64.

(** * Properties *)

(** ** Sums of shares *)

Lemma sum_from (shares : list SplitShare) (a : Q) :
  foldl (fun total share => total + ss_Value share) a shares
  == a + sumValues shares.
Proof.
  unfold sumValues. revert a.
  induction shares as [|s rest IH]; intros a; simpl.
  - ring.
  - rewrite IH. rewrite (IH (0 + ss_Value s)). ring.
Qed.

Lemma sumValues_cons (s : SplitShare) (rest : list SplitShare) :
  sumValues (s :: rest) == ss_Value s + sumValues rest.
Proof.
  unfold sumValues at 1. simpl. rewrite sum_from. ring.
Qed.

Lemma fgt_false (a b : Q) : fgt a b = false <-> a <= b.
Proof.
  unfold fgt. rewrite negb_false_iff. apply Qle_bool_iff.
Qed.

Lemma fgt_true (a b : Q) : fgt a b = true <-> b < a.
Proof.
  unfold fgt. rewrite negb_true_iff. split.
  - intros H. apply Qnot_le_lt. intros Hle.
    apply Qle_bool_iff in Hle. congruence.
  - intros H. destruct (Qle_bool a b) eqn:E; [|reflexivity].
    apply Qle_bool_iff in E. exfalso. eapply Qlt_not_le; eauto.
Qed.

Lemma fle_true (a b : Q) : fle a b = true <-> a <= b.
Proof. apply Qle_bool_iff. Qed.

Lemma fle_false (a b : Q) : fle a b = false <-> b < a.
Proof.
  unfold fle. rewrite <- (fgt_true a b). unfold fgt.
  now rewrite negb_true_iff.
Qed.

(** ** The participant set of an equal split *)

Lemma foldl_collect {A : Type} (f : A -> string) (l : list A) :
  forall m : gset string,
    foldl (fun m x => {[ f x ]} ∪ m) m l = list_to_set (map f l) ∪ m.
Proof.
  induction l as [|x rest IH]; intros m; simpl.
  - apply set_eq. intros u. set_unfold. tauto.
  - rewrite IH. apply set_eq. intros u. set_unfold. tauto.
Qed.

Lemma participantsOf_union (expense : Expense) :
  participantsOf expense
  = list_to_set (map pb_UserID (e_PaidBy expense))
    ∪ list_to_set (map ss_UserID (sd_Details (e_Split expense))).
Proof.
  unfold participantsOf. rewrite !foldl_collect.
  apply set_eq. intros u. set_unfold. tauto.
Qed.

(** ** Percentage split *)


Lemma sumPercentage_inl (details : list SplitShare) :
  forall (acc : Q) (err : error),
    sumPercentage details acc = inl err -> is_ValidationError err = true.
Proof.
  induction details as [|s rest IH]; intros acc err; simpl; [discriminate|].
  destruct (_ || _); [intros [= <-]; reflexivity|]. apply IH.
Qed.

(** ** Structural validation of an expense *)

Lemma sumPaidBy_inr (paidBy : list PaidBy) :
  forall acc total : Q,
    sumPaidBy paidBy acc = inr total
    <-> Forall (fun pb => 0 < pb_Amount pb) paidBy
        /\ total = foldl (fun t pb => t + pb_Amount pb) acc paidBy.
Proof.
  induction paidBy as [|pb rest IH]; intros acc total; simpl.
  - split; [intros [= <-]; split; [constructor|reflexivity]|].
    intros [_ ->]. reflexivity.
  - destruct (fle (pb_Amount pb) 0) eqn:E.
    { apply fle_true in E. split; [discriminate|]. intros [H _].
      inversion H; subst. exfalso. eapply Qlt_not_le; eauto. }
    apply fle_false in E. rewrite IH. split.
    + intros [H ->]. split; [constructor; assumption|reflexivity].
    + intros [H ->]. inversion H; subst. split; [assumption|reflexivity].
Qed.

Lemma sumPaidBy_inl (paidBy : list PaidBy) :
  forall (acc : Q) (err : error),
    sumPaidBy paidBy acc = inl err -> is_ValidationError err = true.
Proof.
  induction paidBy as [|pb rest IH]; intros acc err; simpl; [discriminate|].
  destruct (fle _ _); [intros [= <-]; reflexivity|]. apply IH.
Qed.

Lemma knownSplitType_true (t : SplitType) :
  knownSplitType t = true
  <-> t ∈ [SplitEqual; SplitExact; SplitPercentage; SplitShares].
Proof.
  unfold knownSplitType. rewrite !orb_true_iff, !String.eqb_eq.
  rewrite !elem_of_cons, elem_of_nil. tauto.
Qed.

Lemma validateExpense_None (expense : Expense) :
  validateExpense expense = None <-> validStructure expense.
Proof.
  unfold validateExpense, validStructure.
  destruct (fle (e_Amount expense) 0) eqn:A.
  { apply fle_true in A. split; [discriminate|]. intros [H _].
    exfalso. eapply Qlt_not_le; eauto. }
  apply fle_false in A.
  destruct (e_PaidBy expense) as [|pb rest] eqn:P.
  { simpl. split; [discriminate|]. intros (_ & H & _). congruence. }
  rewrite <- P. replace (length (e_PaidBy expense) =? 0)%nat with false
    by (rewrite P; reflexivity).
  destruct (sumPaidBy (e_PaidBy expense) 0) as [err|total] eqn:S.
  { split; [discriminate|]. intros (_ & _ & Hall & _).
    assert (H : sumPaidBy (e_PaidBy expense) 0
                = inr (foldl (fun t pb => t + pb_Amount pb) 0
                             (e_PaidBy expense)))
      by (apply sumPaidBy_inr; split; [assumption|reflexivity]).
    congruence. }
  apply sumPaidBy_inr in S. destruct S as [Hall ->].
  destruct (fgt _ _) eqn:G.
  { apply fgt_true in G. split; [discriminate|]. intros (_ & _ & _ & Hle & _).
    exfalso. eapply Qlt_not_le; eauto. }
  apply fgt_false in G.
  destruct (knownSplitType _) eqn:K.
  - apply knownSplitType_true in K. split; [|reflexivity]. intros _.
    repeat split; try assumption. rewrite P. discriminate.
  - split; [discriminate|]. intros (_ & _ & _ & _ & H).
    apply knownSplitType_true in H. congruence.
Qed.

Lemma validateExpense_Some (expense : Expense) (err : error) :
  validateExpense expense = Some err -> is_ValidationError err = true.
Proof.
  unfold validateExpense.
  destruct (fle _ _); [intros [= <-]; reflexivity|].
  destruct (_ =? _)%nat; [intros [= <-]; reflexivity|].
  destruct (sumPaidBy _ 0) as [err'|total] eqn:S.
  { intros [= <-]. eapply sumPaidBy_inl; eauto. }
  destruct (fgt _ _); [intros [= <-]; reflexivity|].
  destruct (knownSplitType _); [discriminate|intros [= <-]; reflexivity].
Qed.

(** ** Collections *)

Lemma findOne_split {A : Type} (p : A -> bool) (docs : list A) (d : A) :
  findOne p docs = Some d ->
  exists before after,
    docs = before ++ d :: after
    /\ Forall (fun x => p x = false) before
    /\ p d = true.
Proof.
  unfold findOne. induction docs as [|x rest IH]; simpl; [discriminate|].
  destruct (p x) eqn:E.
  - intros [= <-]. exists [], rest. repeat split; [constructor|assumption].
  - intros H. destruct (IH H) as (before & after & -> & Hall & Hd).
    exists (x :: before), after. repeat split; [|assumption].
    constructor; assumption.
Qed.

Lemma findOne_app {A : Type} (p : A -> bool) (before after : list A) (d : A) :
  Forall (fun x => p x = false) before ->
  findOne p (before ++ d :: after)
  = if p d then Some d else findOne p after.
Proof.
  unfold findOne. induction 1 as [|x rest Hx _ IH]; simpl; [reflexivity|].
  now rewrite Hx.
Qed.

Lemma updateOne_app {A : Type} (p : A -> bool) (f : A -> A)
    (before after : list A) (d : A) :
  Forall (fun x => p x = false) before ->
  p d = true ->
  updateOne p f (before ++ d :: after) = Some (before ++ f d :: after).
Proof.
  intros Hall Hd. induction Hall as [|x rest Hx _ IH]; simpl.
  - now rewrite Hd.
  - now rewrite Hx, IH.
Qed.

Lemma updateOne_None {A : Type} (p : A -> bool) (f : A -> A) (docs : list A) :
  findOne p docs = None -> updateOne p f docs = None.
Proof.
  unfold findOne. induction docs as [|x rest IH]; simpl; [reflexivity|].
  destruct (p x); [discriminate|]. intros H. now rewrite IH.
Qed.

(** An update of the first match of [p] is invisible to a filter [q] that
    rejects the document before and after the update. *)
Lemma findOne_updateOne_other {A : Type} (p q : A -> bool) (f : A -> A)
    (docs docs' : list A) :
  (forall x, p x = true -> q x = false /\ q (f x) = false) ->
  updateOne p f docs = Some docs' ->
  findOne q docs' = findOne q docs.
Proof.
  intros Hpq. unfold findOne. revert docs'.
  induction docs as [|x rest IH]; intros docs'; simpl; [discriminate|].
  destruct (p x) eqn:E.
  - intros [= <-]. simpl. destruct (Hpq x E) as [-> ->]. reflexivity.
  - destruct (updateOne p f rest) as [rest'|]; [|discriminate].
    intros [= <-]. simpl. destruct (q x); [reflexivity|]. now apply IH.
Qed.

Lemma find_app {A : Type} (p : A -> bool) (l1 l2 : list A) :
  find p (l1 ++ l2)
  = match find p l1 with Some x => Some x | None => find p l2 end.
Proof.
  induction l1 as [|x rest IH]; simpl; [reflexivity|].
  now destruct (p x).
Qed.

Lemma findOne_snoc_Some {A : Type} (p : A -> bool) (docs : list A) (d x : A) :
  findOne p docs = Some d -> findOne p (docs ++ [x]) = Some d.
Proof.
  unfold findOne. induction docs as [|y rest IH]; simpl; [discriminate|].
  destruct (p y); [trivial|apply IH].
Qed.

Lemma status_eqb_eq (a b : SettlementStatus) : status_eqb a b = true <-> a = b.
Proof. destruct a, b; simpl; split; congruence. Qed.


(** ** Balances *)

Lemma balanceOf_UpdateBalance (now : Z) (userID : string)
    (groupID : option string) (amount : Q) (st : Store)
    (u : string) (g : option string) :
  BalanceRepository.UpdateBalance now userID groupID amount st
  = (inr tt, snd (BalanceRepository.UpdateBalance now userID groupID amount st))
  /\ balanceOf
       (snd (BalanceRepository.UpdateBalance now userID groupID amount st)) u g
     == (if decide ((userID, groupID) = (u, g))
         then balanceOf st u g + amount else balanceOf st u g).
Proof.
  split; [reflexivity|].
  unfold BalanceRepository.UpdateBalance, balanceOf. cbn [snd st_balances set_balances].
  destruct (decide ((userID, groupID) = (u, g))) as [E|E].
  - injection E as <- <-. rewrite lookup_insert_eq.
    destruct (st_balances st !! (userID, groupID)); cbn [b_Balance];
      ring.
  - rewrite lookup_insert_ne by assumption. reflexivity.
Qed.

(** ** Settlements *)

Ltac unfold_monad :=
  unfold mbind, M_bind, mret, M_ret, fail, WithTransaction,
    SettlementRepository.GetByID, SettlementRepository.MarkCancelled,
    SettlementRepository.MarkCompleted, SettlementRepository.updateByID,
    BalanceRepository.CreateBalanceHistory in *.

(** What [CancelSettlement] returns, by cases on the settlement found. *)
Lemma CancelSettlement_cases (now : Z) (settlementID userID : string)
    (st : Store) :
  match findOne (SettlementRepository.byID settlementID) (st_settlements st)
  with
  | None =>
      CancelSettlement now settlementID userID st
      = (inl repositories_ErrSettlementNotFound, st)
  | Some s =>
      if negb (String.eqb (s_FromUserID s) userID)
         && negb (String.eqb (s_ToUserID s) userID)
      then CancelSettlement now settlementID userID st
           = (inl ErrSettlementNotFound, st)
      else if negb (status_eqb (s_Status s) SettlementPending)
      then CancelSettlement now settlementID userID st
           = (inl ErrCancelNotPending, st)
      else exists before after,
          st_settlements st = before ++ s :: after
          /\ Forall (fun x => SettlementRepository.byID settlementID x = false)
                    before
          /\ CancelSettlement now settlementID userID st
             = (inr tt,
                set_settlements (before ++ cancelled now s :: after) st)
  end.
Proof.
  unfold CancelSettlement. unfold_monad.
  destruct (findOne _ _) as [s|] eqn:F; [|reflexivity].
  destruct (negb (String.eqb (s_FromUserID s) userID)
            && negb (String.eqb (s_ToUserID s) userID)); [reflexivity|].
  destruct (negb (status_eqb (s_Status s) SettlementPending)); [reflexivity|].
  destruct (findOne_split _ _ _ F) as (before & after & E & Hall & Hs).
  exists before, after. split; [assumption|]. split; [assumption|].
  rewrite E at 1.
  rewrite (updateOne_app _ _ before after s Hall Hs). reflexivity.
Qed.

(** C9: [CancelSettlement] succeeds exactly when the caller is the from-user
    or the to-user of a pending settlement; any other caller and any other
    status get an error and an unchanged store; a success rewrites the
    status and the update time of that settlement and nothing else: every
    balance and every history row is as before. *)
Theorem CancelSettlement_spec (now : Z) (settlementID userID : string)
    (st : Store) :
  let result := fst (CancelSettlement now settlementID userID st) in
  let st' := snd (CancelSettlement now settlementID userID st) in
  let found :=
    findOne (SettlementRepository.byID settlementID) (st_settlements st) in
  (st_balances st' = st_balances st /\ st_history st' = st_history st
   /\ st_expenses st' = st_expenses st /\ st_users st' = st_users st
   /\ st_groups st' = st_groups st)
  /\ (result = inr tt
      <-> exists s, found = Some s
                    /\ (s_FromUserID s = userID \/ s_ToUserID s = userID)
                    /\ s_Status s = SettlementPending)
  /\ (forall s, found = Some s ->
                s_FromUserID s <> userID -> s_ToUserID s <> userID ->
                result = inl ErrSettlementNotFound)
  /\ (forall s, found = Some s ->
                (s_FromUserID s = userID \/ s_ToUserID s = userID) ->
                s_Status s <> SettlementPending ->
                result = inl ErrCancelNotPending)
  /\ (forall err, result = inl err -> st' = st)
  /\ (result = inr tt ->
      exists s before after,
        found = Some s
        /\ st_settlements st = before ++ s :: after
        /\ st_settlements st' = before ++ cancelled now s :: after).
Proof.
  intros result st' found.
  pose proof (CancelSettlement_cases now settlementID userID st) as H.
  fold found in H. subst result st'.
  destruct found as [s|] eqn:F.
  2:{ rewrite H. cbn [fst snd]. repeat split; try discriminate.
      intros (s & [=] & _). }
  assert (Hparty : negb (String.eqb (s_FromUserID s) userID)
                   && negb (String.eqb (s_ToUserID s) userID) = false
                   <-> s_FromUserID s = userID \/ s_ToUserID s = userID).
  { rewrite andb_false_iff, !negb_false_iff, !String.eqb_eq. tauto. }
  assert (Hpending : negb (status_eqb (s_Status s) SettlementPending) = false
                     <-> s_Status s = SettlementPending).
  { rewrite negb_false_iff. apply status_eqb_eq. }
  destruct (negb (String.eqb (s_FromUserID s) userID)
            && negb (String.eqb (s_ToUserID s) userID)) eqn:E1.
  { assert (Hno : ~ (s_FromUserID s = userID \/ s_ToUserID s = userID))
      by (rewrite <- Hparty; discriminate).
    rewrite H. cbn [fst snd]. repeat split; try discriminate.
    - intros (s' & [= <-] & Hp & _). contradiction.
    - intros s' [= <-] Hp. contradiction. }
  destruct Hparty as [Hparty _]. specialize (Hparty eq_refl).
  destruct (negb (status_eqb (s_Status s) SettlementPending)) eqn:E2.
  { assert (Hno : s_Status s <> SettlementPending)
      by (rewrite <- Hpending; discriminate).
    rewrite H. cbn [fst snd]. repeat split; try discriminate.
    - intros (s' & [= <-] & _ & Hp). contradiction.
    - intros s' [= <-]. tauto. }
  destruct Hpending as [Hpending _]. specialize (Hpending eq_refl).
  destruct H as (before & after & Hdocs & _ & H).
  rewrite H. cbn [fst snd set_settlements st_balances st_history
                  st_expenses st_users st_groups st_settlements].
  repeat split; try discriminate.
  - exists s. tauto.
  - intros s' [= <-]. tauto.
  - intros s' [= <-]. congruence.
  - intros _. exists s, before, after. tauto.
Qed.

(** What [CompleteSettlement] returns, by cases on the settlement found. *)
Lemma CompleteSettlement_cases (now : Z) (settlementID userID : string)
    (transactionID : option string) (st : Store) :
  match findOne (SettlementRepository.byID settlementID) (st_settlements st)
  with
  | None =>
      CompleteSettlement now settlementID userID transactionID st
      = (inl repositories_ErrSettlementNotFound, st)
  | Some s =>
      if negb (String.eqb (s_FromUserID s) userID)
      then CompleteSettlement now settlementID userID transactionID st
           = (inl ErrOnlyPayerCanComplete, st)
      else if negb (status_eqb (s_Status s) SettlementPending)
      then CompleteSettlement now settlementID userID transactionID st
           = (inl ErrSettlementCompleted, st)
      else exists before after,
          st_settlements st = before ++ s :: after
          /\ Forall (fun x => SettlementRepository.byID settlementID x = false)
                    before
          /\ CompleteSettlement now settlementID userID transactionID st
             = (inr tt,
                completedStore now settlementID transactionID s before after
                               st)
  end.
Proof.
  unfold CompleteSettlement. unfold_monad.
  destruct (findOne _ _) as [s|] eqn:F; [|reflexivity].
  destruct (negb (String.eqb (s_FromUserID s) userID)); [reflexivity|].
  destruct (negb (status_eqb (s_Status s) SettlementPending)); [reflexivity|].
  destruct (findOne_split _ _ _ F) as (before & after & E & Hall & Hs).
  exists before, after. split; [assumption|]. split; [assumption|].
  rewrite E at 1.
  rewrite (updateOne_app _ _ before after s Hall Hs).
  unfold completedStore, BalanceRepository.UpdateBalance.
  cbn [fst snd set_history set_balances set_settlements st_history
       st_balances st_users st_groups st_expenses st_settlements].
  rewrite <- app_assoc. reflexivity.
Qed.

Lemma completedStore_balances (now : Z) (settlementID : string)
    (transactionID : option string) (s : Settlement)
    (before after : list Settlement) (st : Store)
    (u : string) (g : option string) :
  balanceOf (completedStore now settlementID transactionID s before after st)
            u g
  == (if decide ((s_ToUserID s, s_GroupID s) = (u, g))
      then (if decide ((s_FromUserID s, s_GroupID s) = (u, g))
            then balanceOf st u g + s_Amount s else balanceOf st u g)
           - s_Amount s
      else if decide ((s_FromUserID s, s_GroupID s) = (u, g))
           then balanceOf st u g + s_Amount s else balanceOf st u g).
Proof.
  unfold completedStore.
  set (st1 := set_settlements _ st).
  set (st2 := snd (BalanceRepository.UpdateBalance now (s_FromUserID s) _ _ st1)).
  set (st3 := snd (BalanceRepository.UpdateBalance now (s_ToUserID s) _ _ st2)).
  change (balanceOf (set_history _ st3) u g) with (balanceOf st3 u g).
  subst st3. rewrite (proj2 (balanceOf_UpdateBalance _ _ _ _ _ _ _)).
  subst st2.
  destruct (decide ((s_ToUserID s, s_GroupID s) = (u, g)));
    rewrite (proj2 (balanceOf_UpdateBalance _ _ _ _ _ _ _));
    change (balanceOf st1 u g) with (balanceOf st u g);
    destruct (decide ((s_FromUserID s, s_GroupID s) = (u, g))); ring.
Qed.

(** C4: the from-user completes a pending settlement.  The settlement is
    stored with status completed, the completion time and the transaction
    reference, its terms as they were; the from-user's balance in the
    settlement's scope
    grows by the amount, the to-user's shrinks by the amount, no other
    balance changes, and exactly two history rows are appended, both
    referring to the settlement, with deltas [+amount] for the from-user
    and [-amount] for the to-user. *)
Theorem CompleteSettlement_pending (now : Z) (settlementID : string)
    (transactionID : option string) (st : Store) (s : Settlement) :
  findOne (SettlementRepository.byID settlementID) (st_settlements st)
  = Some s ->
  s_Status s = SettlementPending ->
  s_FromUserID s <> s_ToUserID s ->
  exists st',
    CompleteSettlement now settlementID (s_FromUserID s) transactionID st
    = (inr tt, st')
    /\ findOne (SettlementRepository.byID settlementID) (st_settlements st')
       = Some (mkSettlement (s_SettlementID s) (s_FromUserID s)
                 (s_ToUserID s) (s_GroupID s) (s_Amount s) (s_Currency s)
                 SettlementCompleted (s_Method s) (s_Description s)
                 transactionID (s_CreatedAt s) now (Some now) (s_FailedAt s)
                 (s_FailureReason s))
    /\ balanceOf st' (s_FromUserID s) (s_GroupID s)
       == balanceOf st (s_FromUserID s) (s_GroupID s) + s_Amount s
    /\ balanceOf st' (s_ToUserID s) (s_GroupID s)
       == balanceOf st (s_ToUserID s) (s_GroupID s) - s_Amount s
    /\ (forall u g, (u, g) <> (s_FromUserID s, s_GroupID s) ->
                    (u, g) <> (s_ToUserID s, s_GroupID s) ->
                    st_balances st' !! (u, g) = st_balances st !! (u, g))
    /\ st_history st'
       = st_history st
         ++ [mkBalanceHistory (s_FromUserID s) (s_GroupID s) (s_Amount s)
               (s_Currency s) BalanceChangeSettlement settlementID
               "Settlement payment to user" now;
             mkBalanceHistory (s_ToUserID s) (s_GroupID s) (- s_Amount s)
               (s_Currency s) BalanceChangeSettlement settlementID
               "Settlement received from user" now].
Proof.
  intros F Hpending Hne.
  pose proof (CompleteSettlement_cases now settlementID (s_FromUserID s)
                transactionID st) as H.
  rewrite F, String.eqb_refl, Hpending in H. cbn [negb status_eqb] in H.
  destruct H as (before & after & Hdocs & Hall & H).
  eexists. split; [exact H|].
  split.
  { unfold completedStore.
    cbn [set_history st_settlements set_settlements snd
         BalanceRepository.UpdateBalance set_balances].
    rewrite (findOne_app _ before after _ Hall).
    apply findOne_split in F. destruct F as (_ & _ & _ & _ & F).
    unfold SettlementRepository.byID in *. cbn [completed s_SettlementID].
    now rewrite F. }
  split.
  { rewrite completedStore_balances.
    destruct (decide ((s_ToUserID s, s_GroupID s)
                      = (s_FromUserID s, s_GroupID s))) as [E|_];
      [congruence|].
    destruct (decide _); [reflexivity|congruence]. }
  split.
  { rewrite completedStore_balances.
    destruct (decide ((s_ToUserID s, s_GroupID s)
                      = (s_ToUserID s, s_GroupID s))); [|congruence].
    destruct (decide _) as [E|_]; [congruence|]. reflexivity. }
  split.
  { intros u g H1 H2. unfold completedStore.
    cbn [set_history st_balances set_settlements snd
         BalanceRepository.UpdateBalance set_balances].
    rewrite !lookup_insert_ne by congruence. reflexivity. }
  reflexivity.
Qed.



Lemma CreateSettlement_store (newID : string) (now : Z)
    (req : SettlementRequest) (st : Store) :
  snd (CreateSettlement newID now req st) = st
  \/ exists x, snd (CreateSettlement newID now req st)
               = set_settlements (st_settlements st ++ [x]) st.
Proof.
  unfold CreateSettlement.
  destruct (String.eqb _ _); [now left|].
  unfold mbind, M_bind, UserRepository.ExistMultiple. cbn [length Nat.eqb].
  destruct (List.filter _ _); [|now left].
  destruct (fle _ _); [now left|].
  right. eexists. reflexivity.
Qed.



(** ** The versioned update *)

Lemma int_incr_in_range (v : Z) :
  (- 2 ^ 63 <= v < 2 ^ 63 - 1)%Z -> int_incr v = (v + 1)%Z.
Proof.
  intros H. unfold int_incr, int_wrap.
  rewrite Z.mod_small by lia. lia.
Qed.

(** C8: [UpdateBalanceWithVersion] writes only when the stored version is
    the version of the caller's copy; it then stores the caller's amount
    with the version incremented; on any other stored version (and when
    no document exists) it returns [ErrOptimisticLockFailure] and the store
    is unchanged. *)
Theorem UpdateBalanceWithVersion_spec (now : Z) (balance : Balance)
    (st : Store) :
  let key := (b_UserID balance, b_GroupID balance) in
  let result := fst (snd (BalanceRepository.UpdateBalanceWithVersion
                            now balance) st) in
  let st' := snd (snd (BalanceRepository.UpdateBalanceWithVersion
                         now balance) st) in
  (forall doc, st_balances st !! key = Some doc ->
               b_Version doc = b_Version balance ->
               result = inr tt
               /\ st' = set_balances
                          (<[key := mkBalance (b_UserID doc) (b_GroupID doc)
                                      (b_Balance balance) (b_Currency doc) now
                                      (int_incr (b_Version balance))]>
                             (st_balances st)) st
               /\ ((- 2 ^ 63 <= b_Version balance < 2 ^ 63 - 1)%Z ->
                   int_incr (b_Version balance) = (b_Version balance + 1)%Z))
  /\ (forall doc, st_balances st !! key = Some doc ->
                  b_Version doc <> b_Version balance ->
                  result = inl ErrOptimisticLockFailure /\ st' = st)
  /\ (st_balances st !! key = None ->
      result = inl ErrOptimisticLockFailure /\ st' = st)
  /\ (result = inr tt ->
      exists doc, st_balances st !! key = Some doc
                  /\ b_Version doc = b_Version balance)
  /\ (forall err, result = inl err ->
                  err = ErrOptimisticLockFailure /\ st' = st).
Proof.
  intros key result st'. subst result st'.
  unfold BalanceRepository.UpdateBalanceWithVersion.
  cbn [fst snd b_UserID b_GroupID b_Balance b_Version b_UpdatedAt].
  fold key.
  destruct (st_balances st !! key) as [doc|] eqn:L.
  - destruct (Z.eqb_spec (b_Version doc) (b_Version balance)) as [E|E];
      cbn [fst snd].
    + split; [|split; [|split; [|split]]].
      * intros doc' [= <-] _. split; [reflexivity|]. split; [reflexivity|].
        apply int_incr_in_range.
      * intros doc' [= <-] Hne. contradiction.
      * discriminate.
      * intros _. exists doc. split; [reflexivity|assumption].
      * discriminate.
    + split; [|split; [|split; [|split]]].
      * intros doc' [= <-] Heq. contradiction.
      * intros doc' _ _. split; reflexivity.
      * discriminate.
      * discriminate.
      * intros err [= <-]. split; reflexivity.
  - cbn [fst snd]. split; [|split; [|split; [|split]]].
    + discriminate.
    + discriminate.
    + intros _. split; reflexivity.
    + discriminate.
    + intros err [= <-]. split; reflexivity.
Qed.

(** ** Reading an expense *)

Lemma existsb_userID {A : Type} (f : A -> string) (l : list A)
    (userID : string) :
  existsb (fun x => String.eqb (f x) userID) l = true <-> userID ∈ map f l.
Proof.
  rewrite existsb_exists, list_elem_of_In, in_map_iff.
  split; intros (x & H1 & H2); exists x.
  - apply String.eqb_eq in H2. tauto.
  - split; [tauto|]. now apply String.eqb_eq.
Qed.

(** C10: [GetExpense] returns the stored expense exactly when the
    requesting user is its creator, one of its payers or one of its split
    participants; for any other user it returns the no-access error, which
    carries no field of the expense; the store is never changed. *)
Theorem GetExpense_spec (expenseID userID : string) (st : Store) :
  let found :=
    findOne (fun e => String.eqb (e_ExpenseID e) expenseID
                      && negb (e_IsDeleted e)) (st_expenses st) in
  let result := fst (GetExpense expenseID userID st) in
  snd (GetExpense expenseID userID st) = st
  /\ (forall expense,
         result = inr expense
         <-> found = Some expense /\ hasAccess expense userID)
  /\ (forall expense,
         found = Some expense -> ~ hasAccess expense userID ->
         result = inl ErrNoAccess)
  /\ (found = None -> result = inl ErrExpenseNotFound).
Proof.
  intros found result. subst result.
  unfold GetExpense, ExpenseRepository.GetByID, mbind, M_bind, mret, M_ret,
    fail.
  fold found. destruct found as [expense|]; cbn [fst snd].
  2:{ repeat split; try discriminate; try congruence.
      intros (H & _). discriminate. }
  assert (Hacc :
    negb (if negb (if negb (String.eqb (e_CreatorID expense) userID)
                   then existsb (fun pb => String.eqb (pb_UserID pb) userID)
                                (e_PaidBy expense)
                   else String.eqb (e_CreatorID expense) userID)
          then existsb (fun share => String.eqb (ss_UserID share) userID)
                       (sd_Details (e_Split expense))
          else (if negb (String.eqb (e_CreatorID expense) userID)
                then existsb (fun pb => String.eqb (pb_UserID pb) userID)
                             (e_PaidBy expense)
                else String.eqb (e_CreatorID expense) userID)) = false
    <-> hasAccess expense userID).
  { unfold hasAccess.
    rewrite <- !existsb_userID, <- (String.eqb_eq (e_CreatorID expense)).
    destruct (String.eqb _ _); cbn [negb]; [tauto|].
    destruct (existsb _ (e_PaidBy expense)); cbn [negb]; [tauto|].
    destruct (existsb _ _); cbn [negb]; intuition discriminate. }
  destruct (negb _) eqn:E; cbn [fst snd].
  - assert (~ hasAccess expense userID) by (rewrite <- Hacc; discriminate).
    split; [reflexivity|]. split; [|split].
    + intros e'. split; [discriminate|]. intros (H1 & H2).
      injection H1 as <-. contradiction.
    + reflexivity.
    + discriminate.
  - destruct Hacc as [Hacc _]. specialize (Hacc eq_refl).
    split; [reflexivity|]. split; [|split].
    + intros e'. split.
      * intros H1. injection H1 as <-. split; [reflexivity|assumption].
      * intros (H1 & _). injection H1 as <-. reflexivity.
    + intros e' H1 H2. injection H1 as <-. contradiction.
    + discriminate.
Qed.

(** ** The balance deltas of an expense *)

Lemma applyDeltas_app (now : Z) (groupID : option string)
    (ds1 ds2 : list (string * Q)) (st : Store) :
  applyDeltas now groupID (ds1 ++ ds2) st
  = applyDeltas now groupID ds2 (applyDeltas now groupID ds1 st).
Proof. unfold applyDeltas. apply foldl_app. Qed.

Lemma updateBalancesPayers_deltas (now : Z) (groupID : option string)
    (share : SplitShare) (paidBy : list PaidBy) :
  forall st,
    updateBalancesPayers now groupID share paidBy st
    = (inr tt, applyDeltas now groupID (deltasPayers share paidBy) st).
Proof.
  induction paidBy as [|pb rest IH]; intros st; [reflexivity|].
  cbn [updateBalancesPayers deltasPayers]. rewrite applyDeltas_app.
  unfold mbind, M_bind at 1.
  destruct (String.eqb _ _).
  - cbn [BalanceRepository.UpdateBalance]. apply IH.
  - destruct (fgt _ _).
    + unfold mbind, M_bind. cbn [BalanceRepository.UpdateBalance]. apply IH.
    + unfold mret, M_ret. apply IH.
Qed.

Lemma updateBalances_deltas (now : Z) (expense : Expense) (st : Store) :
  updateBalances now expense st
  = (inr tt, applyDeltas now (e_GroupID expense) (deltas expense) st).
Proof.
  unfold updateBalances, deltas.
  generalize (e_PaidBy expense) as paidBy, (e_GroupID expense) as groupID.
  intros paidBy groupID. revert st.
  induction (sd_Details (e_Split expense)) as [|share rest IH]; intros st;
    [reflexivity|].
  cbn [updateBalancesShares flat_map]. rewrite applyDeltas_app.
  unfold mbind, M_bind. rewrite updateBalancesPayers_deltas. apply IH.
Qed.

Lemma balanceOf_applyDeltas (now : Z) (groupID : option string)
    (ds : list (string * Q)) (userID : string) :
  forall st,
    balanceOf (applyDeltas now groupID ds st) userID groupID
    == balanceOf st userID groupID + sumFor userID ds.
Proof.
  induction ds as [|[u a] rest IH]; intros st.
  - unfold applyDeltas, sumFor. simpl. ring.
  - change (applyDeltas now groupID ((u, a) :: rest) st)
      with (applyDeltas now groupID rest
              (snd (BalanceRepository.UpdateBalance now u groupID a st))).
    rewrite IH.
    rewrite (proj2 (balanceOf_UpdateBalance _ _ _ _ _ _ _)).
    unfold sumFor. cbn [foldr fst snd]. fold (sumFor userID rest).
    destruct (String.eqb_spec u userID) as [->|Hne].
    + destruct (decide _); [ring|congruence].
    + destruct (decide _) as [E|_]; [congruence|ring].
Qed.

(** Every balance in the scope of the expense moves by the net delta of its
    user. *)
Lemma balanceOf_updateBalances (now : Z) (expense : Expense) (st : Store)
    (userID : string) :
  balanceOf (snd (updateBalances now expense st)) userID (e_GroupID expense)
  == balanceOf st userID (e_GroupID expense) + netDelta expense userID.
Proof.
  rewrite updateBalances_deltas. cbn [snd]. apply balanceOf_applyDeltas.
Qed.

Section Scenario90.

Variable range : gset string -> list string.
Hypothesis range_perm : forall m : gset string, range m ≡ₚ elements m.

(** C2: on the 90.00 scenario the resolved shares are 30.00 for each of A,
    B and C, in whatever order the participants are visited; but applying
    the expense moves the balance of A by +120.00, not by +60.00: A is
    credited [paid - share = 60] as a payer and again 30 for the share of B
    and 30 for the share of C.  B and C each move by -30.00. *)
Theorem expense90_shares_and_deltas (now : Z) (st : Store) :
  exists shares,
    calculateEqualShares range expense90 = inr shares
    /\ map ss_UserID shares ≡ₚ ["A"; "B"; "C"]%string
    /\ Forall (fun share => ss_Value share == 30) shares
    /\ let st' := snd (updateBalances now (withShares expense90 shares) st) in
       balanceOf st' "A" None == balanceOf st "A" None + 120
       /\ balanceOf st' "B" None == balanceOf st "B" None - 30
       /\ balanceOf st' "C" None == balanceOf st "C" None - 30
       /\ ~ balanceOf st' "A" None == balanceOf st "A" None + 60.
Proof.
  pose proof (range_perm (participantsOf expense90)) as Hperm.
  assert (Hel : elements (participantsOf expense90) = ["C"; "A"; "B"]%string)
    by (vm_compute; reflexivity).
  assert (HN : size (participantsOf expense90) = 3%nat)
    by (vm_compute; reflexivity).
  rewrite Hel in Hperm. symmetry in Hperm.
  apply permutations_Permutation in Hperm.
  unfold calculateEqualShares. rewrite HN. cbn [Nat.eqb].
  assert (Hdelta : forall shares (d : Q) (u : string),
             netDelta (withShares expense90 shares) u == d ->
             balanceOf (snd (updateBalances now (withShares expense90 shares)
                               st)) u None
             == balanceOf st u None + d).
  { intros shares d u Hd.
    rewrite <- Hd. apply (balanceOf_updateBalances now (withShares expense90 shares)). }
  assert (Hnot : forall x : Q, ~ x + 120 == x + 60).
  { intros x H. apply Qplus_inj_l in H. discriminate H. }
  remember (range (participantsOf expense90)) as visited eqn:Hv.
  clear Hv. vm_compute in Hperm.
  repeat (apply elem_of_cons in Hperm as [Hperm|Hperm]);
    try (apply elem_of_nil in Hperm; contradiction);
    rewrite Hperm; eexists; (split; [reflexivity|]).
  all: split;
    [cbn [map adjustFirst ss_UserID]; apply permutations_Permutation;
     vm_compute; repeat (first [left; reflexivity | right])|].
  all: split;
    [cbn [map adjustFirst]; repeat apply List.Forall_cons; try apply List.Forall_nil;
     vm_compute; reflexivity|].
  all: cbn zeta; split; [apply Hdelta; vm_compute; reflexivity|].
  all: split; [apply (Hdelta _ (-30)); vm_compute; reflexivity|].
  all: split; [apply (Hdelta _ (-30)); vm_compute; reflexivity|].
  all: rewrite Hdelta with (d := 120) by (vm_compute; reflexivity).
  all: apply Hnot.
Qed.

End Scenario90.

(** ** The properties at concrete inputs *)

Lemma elements_perm (m : gset string) : elements m ≡ₚ elements m.
Proof. reflexivity. Defined.

Lemma expense90_shares_and_deltas_witness :
  exists shares,
    calculateEqualShares elements expense90 = inr shares
    /\ map ss_UserID shares ≡ₚ ["A"; "B"; "C"]%string
    /\ Forall (fun share => ss_Value share == 30) shares
    /\ let st' :=
         snd (updateBalances 7 (withShares expense90 shares) storeXY) in
       balanceOf st' "A" None == balanceOf storeXY "A" None + 120
       /\ balanceOf st' "B" None == balanceOf storeXY "B" None - 30
       /\ balanceOf st' "C" None == balanceOf storeXY "C" None - 30
       /\ ~ balanceOf st' "A" None == balanceOf storeXY "A" None + 60.
Proof.
  apply (expense90_shares_and_deltas elements elements_perm 7 storeXY).
Defined.

Lemma CompleteSettlement_pending_witness :
  exists st',
    CompleteSettlement 7 "s1" "X" (Some "tx-1"%string) storeXY = (inr tt, st')
    /\ findOne (SettlementRepository.byID "s1") (st_settlements st')
       = Some (mkSettlement "s1" "X" "Y" None 50 "USD" SettlementCompleted
                 "cash" "" (Some "tx-1"%string) 1 7 (Some 7%Z) None None)
    /\ balanceOf st' "X" None == balanceOf storeXY "X" None + 50
    /\ balanceOf st' "Y" None == balanceOf storeXY "Y" None - 50
    /\ (forall u g, (u, g) <> ("X"%string, None) ->
                    (u, g) <> ("Y"%string, None) ->
                    st_balances st' !! (u, g) = st_balances storeXY !! (u, g))
    /\ st_history st'
       = st_history storeXY
         ++ [mkBalanceHistory "X" None 50 "USD" BalanceChangeSettlement "s1"
               "Settlement payment to user" 7;
             mkBalanceHistory "Y" None (- 50) "USD" BalanceChangeSettlement
               "s1" "Settlement received from user" 7].
Proof.
  apply (CompleteSettlement_pending 7 "s1" (Some "tx-1"%string) storeXY
           settlement50); [reflexivity | reflexivity | discriminate].
Defined.


(** The whole of [CreateExpense] on the 90.00 scenario, from a store with
    no balance: the balances afterwards. *)
Example CreateExpense_expense90 :
  let st := mkStore [mkUser "A"; mkUser "B"; mkUser "C"] [] [] ∅ [] [] in
  let st' := snd (CreateExpense elements "e1" 7 expense90 st) in
  Qred (balanceOf st' "A" None) = 120
  /\ Qred (balanceOf st' "B" None) = - 30
  /\ Qred (balanceOf st' "C" None) = - 30
  /\ length (st_expenses st') = 1%nat.
Proof. vm_compute. repeat split. Qed.

(** A stale version is refused and the stored document is kept. *)
Example UpdateBalanceWithVersion_stale :
  let stored := mkBalance "A" None 10 "USD" 1 5 in
  let st := mkStore [] [] [] {[ ("A"%string, None) := stored ]} [] [] in
  snd (BalanceRepository.UpdateBalanceWithVersion 9
         (mkBalance "A" None 99 "USD" 1 4)) st
  = (inl ErrOptimisticLockFailure, st).
Proof. reflexivity. Qed.

(** Either party cancels a pending settlement; a third user does not. *)
Example CancelSettlement_by_to_user :
  CancelSettlement 9 "s1" "Y" storeXY
  = (inr tt, set_settlements [cancelled 9 settlement50] storeXY).
Proof. reflexivity. Qed.

Example CancelSettlement_by_stranger :
  CancelSettlement 9 "s1" "Z" storeXY = (inl ErrSettlementNotFound, storeXY).
Proof. reflexivity. Qed.

(** A cancelled settlement can be neither completed nor cancelled again. *)
Example cancelled_is_terminal :
  let st := snd (CancelSettlement 9 "s1" "Y" storeXY) in
  CompleteSettlement 10 "s1" "X" None st = (inl ErrSettlementCompleted, st)
  /\ CancelSettlement 10 "s1" "X" st = (inl ErrCancelNotPending, st).
Proof. split; reflexivity. Qed.

(** A participant reads an expense; a stranger does not. *)
Example GetExpense_access :
  let stored := withShares expense90 [mkSplitShare "B" 90] in
  let st := mkStore [] [] [stored] ∅ [] [] in
  GetExpense "" "B" st = (inr stored, st)
  /\ GetExpense "" "Z" st = (inl ErrNoAccess, st).
Proof. split; reflexivity. Qed.

(** * Further properties *)

(** ** The exact and the share-based resolvers *)

Lemma sumExact_inl (details : list SplitShare) :
  forall (acc : Q) (err : error),
    sumExact details acc = inl err -> is_ValidationError err = true.
Proof.
  induction details as [|s rest IH]; intros acc err; simpl; [discriminate|].
  destruct (fle _ _); [intros [= <-]; reflexivity|]. apply IH.
Qed.

Lemma sumShareCounts_inl (details : list SplitShare) :
  forall (acc : Q) (err : error),
    sumShareCounts details acc = inl err -> is_ValidationError err = true.
Proof.
  induction details as [|s rest IH]; intros acc err; simpl; [discriminate|].
  destruct (fle _ _); [intros [= <-]; reflexivity|]. apply IH.
Qed.






Lemma calculateEqualShares_inl (range : gset string -> list string)
    (expense : Expense) (err : error) :
  calculateEqualShares range expense = inl err ->
  err = ErrNoParticipants /\ participantsOf expense = ∅.
Proof.
  unfold calculateEqualShares.
  destruct (size (participantsOf expense) =? 0)%nat eqn:E; [|discriminate].
  intros [= <-]. split; [reflexivity|].
  apply Nat.eqb_eq in E. now apply size_empty_inv in E; apply leibniz_equiv.
Qed.

Lemma calculatePercentageShares_inl (expense : Expense) (err : error) :
  calculatePercentageShares expense = inl err -> is_ValidationError err = true.
Proof.
  unfold calculatePercentageShares.
  destruct (_ =? _)%nat; [intros [= <-]; reflexivity|].
  destruct (sumPercentage _ 0) as [err'|total] eqn:S.
  { intros [= <-]. eapply sumPercentage_inl; eauto. }
  destruct (fgt _ _); [intros [= <-]; reflexivity|discriminate].
Qed.

Lemma calculateExactShares_inl (expense : Expense) (err : error) :
  calculateExactShares expense = inl err -> is_ValidationError err = true.
Proof.
  unfold calculateExactShares.
  destruct (_ =? _)%nat; [intros [= <-]; reflexivity|].
  destruct (sumExact _ 0) as [err'|total] eqn:S.
  { intros [= <-]. eapply sumExact_inl; eauto. }
  destruct (fgt _ _); [intros [= <-]; reflexivity|discriminate].
Qed.

Lemma calculateShareBased_inl (expense : Expense) (err : error) :
  calculateShareBased expense = inl err -> is_ValidationError err = true.
Proof.
  unfold calculateShareBased.
  destruct (_ =? _)%nat; [intros [= <-]; reflexivity|].
  destruct (sumShareCounts _ 0) as [err'|total] eqn:S.
  { intros [= <-]. eapply sumShareCounts_inl; eauto. }
  destruct (feq _ _); [intros [= <-]; reflexivity|discriminate].
Qed.

Lemma calculateShares_inl (range : gset string -> list string)
    (expense : Expense) (err : error) :
  calculateShares range expense = inl err -> is_ValidationError err = true.
Proof.
  unfold calculateShares.
  destruct (String.eqb _ SplitEqual).
  { intros H. apply calculateEqualShares_inl in H. now destruct H as [-> _]. }
  destruct (String.eqb _ SplitExact); [apply calculateExactShares_inl|].
  destruct (String.eqb _ SplitPercentage);
    [apply calculatePercentageShares_inl|].
  destruct (String.eqb _ SplitShares); [apply calculateShareBased_inl|].
  intros [= <-]. reflexivity.
Qed.

Lemma resolvers_supported (expense : Expense) (t : SplitType) :
  calculateExactShares expense <> inl (ErrUnsupportedSplitType t)
  /\ calculatePercentageShares expense <> inl (ErrUnsupportedSplitType t)
  /\ calculateShareBased expense <> inl (ErrUnsupportedSplitType t).
Proof.
  assert (H1 : forall l acc, sumExact l acc <> inl (ErrUnsupportedSplitType t)).
  { induction l as [|x l IH]; intros acc; simpl; [discriminate|].
    destruct (fle _ _); [discriminate|apply IH]. }
  assert (H2 : forall l acc,
             sumPercentage l acc <> inl (ErrUnsupportedSplitType t)).
  { induction l as [|x l IH]; intros acc; simpl; [discriminate|].
    destruct (_ || _); [discriminate|apply IH]. }
  assert (H3 : forall l acc,
             sumShareCounts l acc <> inl (ErrUnsupportedSplitType t)).
  { induction l as [|x l IH]; intros acc; simpl; [discriminate|].
    destruct (fle _ _); [discriminate|apply IH]. }
  unfold calculateExactShares, calculatePercentageShares, calculateShareBased.
  repeat split.
  - destruct (_ =? _)%nat; [discriminate|].
    destruct (sumExact _ 0) eqn:E; [intros [= ->]; now apply H1 in E|].
    destruct (fgt _ _); discriminate.
  - destruct (_ =? _)%nat; [discriminate|].
    destruct (sumPercentage _ 0) eqn:E; [intros [= ->]; now apply H2 in E|].
    destruct (fgt _ _); discriminate.
  - destruct (_ =? _)%nat; [discriminate|].
    destruct (sumShareCounts _ 0) eqn:E; [intros [= ->]; now apply H3 in E|].
    destruct (feq _ _); discriminate.
Qed.

Lemma participantsOf_payer (expense : Expense) (pb : PaidBy) :
  pb ∈ e_PaidBy expense -> pb_UserID pb ∈ participantsOf expense.
Proof.
  intros H. rewrite participantsOf_union. apply elem_of_union_l.
  apply elem_of_list_to_set. apply list_elem_of_fmap. eauto.
Qed.

(** X4: the dispatch of [calculateShares] after validation.  An expense
    that passed [validateExpense] never gets the unsupported-type error,
    an equal split of it always resolves, and whatever error
    [calculateShares] returns is a validation error. *)
Theorem calculateShares_after_validation
    (range : gset string -> list string) (expense : Expense) :
  validateExpense expense = None ->
  (forall t, calculateShares range expense <> inl (ErrUnsupportedSplitType t))
  /\ (sd_Type (e_Split expense) = SplitEqual ->
      exists shares, calculateShares range expense = inr shares)
  /\ (forall err, calculateShares range expense = inl err ->
                  is_ValidationError err = true).
Proof.
  intros V. apply validateExpense_None in V.
  destruct V as (_ & Hpayers & _ & _ & Htype).
  split; [|split].
  - intros t H. unfold calculateShares in H.
    apply knownSplitType_true in Htype. unfold knownSplitType in Htype.
    destruct (resolvers_supported expense t) as (R1 & R2 & R3).
    destruct (String.eqb _ SplitEqual).
    { apply calculateEqualShares_inl in H. destruct H as [H _].
      discriminate H. }
    destruct (String.eqb _ SplitExact); [contradiction|].
    destruct (String.eqb _ SplitPercentage); [contradiction|].
    destruct (String.eqb _ SplitShares); [contradiction|].
    discriminate Htype.
  - intros Ht. unfold calculateShares. rewrite Ht. cbn [String.eqb].
    destruct (calculateEqualShares range expense) as [err|shares] eqn:E;
      [|eauto].
    exfalso. apply calculateEqualShares_inl in E. destruct E as [_ E].
    destruct (e_PaidBy expense) as [|pb rest] eqn:P; [congruence|].
    assert (H : pb_UserID pb ∈ participantsOf expense).
    { apply participantsOf_payer. rewrite P. left. }
    rewrite E in H. exact (not_elem_of_empty _ H).
  - apply calculateShares_inl.
Qed.

(** ** Blind increments and versioned updates *)

Lemma int_incr_neq (v : Z) : int_incr v <> v.
Proof.
  unfold int_incr, int_wrap. intros H.
  assert (Hr : (0 <= (v + 1 + 2 ^ 63) mod 2 ^ 64 < 2 ^ 64)%Z)
    by (apply Z.mod_pos_bound; lia).
  assert (Hv : (- 2 ^ 63 <= v < 2 ^ 63)%Z) by lia.
  destruct (Z.eq_dec v (2 ^ 63 - 1)%Z) as [->|Hne].
  - vm_compute in H. discriminate.
  - rewrite Z.mod_small in H by lia. lia.
Qed.

Lemma applyDeltas_other_scope (now : Z) (groupID : option string)
    (ds : list (string * Q)) (u : string) (g : option string) :
  g <> groupID ->
  forall st,
    st_balances (applyDeltas now groupID ds st) !! (u, g)
    = st_balances st !! (u, g).
Proof.
  intros Hg. induction ds as [|[u' a] rest IH]; intros st; [reflexivity|].
  change (applyDeltas now groupID ((u', a) :: rest) st)
    with (applyDeltas now groupID rest
            (snd (BalanceRepository.UpdateBalance now u' groupID a st))).
  rewrite IH. unfold BalanceRepository.UpdateBalance.
  cbn [snd st_balances set_balances].
  apply lookup_insert_ne. congruence.
Qed.

Lemma applyDeltas_other_user (now : Z) (groupID : option string)
    (ds : list (string * Q)) (u : string) :
  u ∉ map fst ds ->
  forall st,
    st_balances (applyDeltas now groupID ds st) !! (u, groupID)
    = st_balances st !! (u, groupID).
Proof.
  induction ds as [|[u' a] rest IH]; intros Hu st; [reflexivity|].
  change (applyDeltas now groupID ((u', a) :: rest) st)
    with (applyDeltas now groupID rest
            (snd (BalanceRepository.UpdateBalance now u' groupID a st))).
  cbn [map fst] in Hu. apply not_elem_of_cons in Hu. destruct Hu as [Hne Hu].
  rewrite IH by assumption. unfold BalanceRepository.UpdateBalance.
  cbn [snd st_balances set_balances].
  apply lookup_insert_ne. congruence.
Qed.

Lemma applyDeltas_frame (now : Z) (groupID : option string)
    (ds : list (string * Q)) :
  forall st,
    st_history (applyDeltas now groupID ds st) = st_history st
    /\ st_expenses (applyDeltas now groupID ds st) = st_expenses st
    /\ st_settlements (applyDeltas now groupID ds st) = st_settlements st
    /\ st_users (applyDeltas now groupID ds st) = st_users st
    /\ st_groups (applyDeltas now groupID ds st) = st_groups st.
Proof.
  induction ds as [|[u a] rest IH]; intros st; [repeat split|].
  change (applyDeltas now groupID ((u, a) :: rest) st)
    with (applyDeltas now groupID rest
            (snd (BalanceRepository.UpdateBalance now u groupID a st))).
  destruct (IH (snd (BalanceRepository.UpdateBalance now u groupID a st)))
    as (-> & -> & -> & -> & ->).
  repeat split.
Qed.

(** X6: the versioned update detects a write in between.  A caller reads
    a balance, changes the amount of its copy and writes it back with
    [UpdateBalanceWithVersion]: untouched in between, the write succeeds
    and stores the new amount; after a blind increment of the same balance
    in between, it fails with the lock error and the increment is kept. *)
Theorem UpdateBalanceWithVersion_detects_write (now now' now'' : Z)
    (userID : string) (groupID : option string) (st : Store)
    (read : Balance) (newAmount delta : Q) :
  BalanceRepository.GetByUserAndGroup userID groupID st = (inr read, st) ->
  b_UserID read = userID -> b_GroupID read = groupID ->
  let copy :=
    mkBalance (b_UserID read) (b_GroupID read) newAmount (b_Currency read)
              (b_UpdatedAt read) (b_Version read) in
  let st1 :=
    snd (BalanceRepository.UpdateBalance now' userID groupID delta st) in
  (exists st2,
      snd (BalanceRepository.UpdateBalanceWithVersion now'' copy) st
      = (inr tt, st2)
      /\ balanceOf st2 userID groupID = newAmount
      /\ versionOf st2 userID groupID = int_incr (b_Version read))
  /\ snd (BalanceRepository.UpdateBalanceWithVersion now'' copy) st1
     = (inl ErrOptimisticLockFailure, st1)
  /\ balanceOf st1 userID groupID == b_Balance read + delta.
Proof.
  intros Hread Hu Hg copy st1.
  unfold BalanceRepository.GetByUserAndGroup in Hread.
  destruct (st_balances st !! (userID, groupID)) as [b|] eqn:L;
    [|discriminate].
  injection Hread as <-. subst copy st1.
  unfold BalanceRepository.UpdateBalanceWithVersion,
    BalanceRepository.UpdateBalance.
  cbn [fst snd b_UserID b_GroupID b_Balance b_Version b_UpdatedAt
       st_balances set_balances].
  rewrite Hu, Hg, L, lookup_insert_eq. cbn [b_Version].
  rewrite Z.eqb_refl.
  replace (b_Version b + 1 =? b_Version b)%Z with false
    by (symmetry; apply Z.eqb_neq; lia).
  split; [|split; [reflexivity|]].
  - eexists. split; [reflexivity|].
    unfold balanceOf, versionOf. cbn [st_balances set_balances].
    rewrite lookup_insert_eq. split; reflexivity.
  - unfold balanceOf. cbn [st_balances set_balances].
    rewrite lookup_insert_eq. reflexivity.
Qed.

(** X7: versioned updates chain.  After a successful
    [UpdateBalanceWithVersion], the caller's struct carries the stored
    version: a further versioned update with it succeeds, while a replay
    of the struct as it was before the first update fails with the lock
    error and changes nothing. *)
Theorem UpdateBalanceWithVersion_chain (now now' : Z) (balance : Balance)
    (st st1 : Store) (newAmount : Q) :
  snd (BalanceRepository.UpdateBalanceWithVersion now balance) st
  = (inr tt, st1) ->
  let balance1 := fst (BalanceRepository.UpdateBalanceWithVersion now balance) in
  let next :=
    mkBalance (b_UserID balance1) (b_GroupID balance1) newAmount
              (b_Currency balance1) (b_UpdatedAt balance1)
              (b_Version balance1) in
  (exists st2,
      snd (BalanceRepository.UpdateBalanceWithVersion now' next) st1
      = (inr tt, st2)
      /\ balanceOf st2 (b_UserID balance) (b_GroupID balance) = newAmount
      /\ versionOf st2 (b_UserID balance) (b_GroupID balance)
         = int_incr (int_incr (b_Version balance)))
  /\ snd (BalanceRepository.UpdateBalanceWithVersion now' balance) st1
     = (inl ErrOptimisticLockFailure, st1).
Proof.
  intros H balance1 next. subst next balance1.
  unfold BalanceRepository.UpdateBalanceWithVersion in *.
  cbn [fst snd b_UserID b_GroupID b_Balance b_Version b_UpdatedAt
       b_Currency] in *.
  destruct (st_balances st !! (b_UserID balance, b_GroupID balance))
    as [doc|] eqn:L; [|discriminate].
  destruct (Z.eqb_spec (b_Version doc) (b_Version balance)) as [E|E];
    [|discriminate].
  injection H as <-. cbn [st_balances set_balances].
  rewrite lookup_insert_eq. cbn [b_Version]. rewrite Z.eqb_refl.
  replace (int_incr (b_Version balance) =? b_Version balance)%Z with false
    by (symmetry; apply Z.eqb_neq; apply int_incr_neq).
  split; [|reflexivity].
  eexists. split; [reflexivity|].
  unfold balanceOf, versionOf. cbn [st_balances set_balances].
  rewrite lookup_insert_eq. split; reflexivity.
Qed.

(** X8: [Create] of the balance repository is get-or-create.  When the
    (user, scope) pair has a balance, that balance is returned and the store
    is unchanged, whatever amount was passed; otherwise the balance is
    inserted with version 1.  Either way a read of the pair then returns
    what [Create] returned, and a second [Create] for the pair returns it
    again and writes nothing. *)
Theorem Create_get_or_create (now now' : Z) (balance other : Balance)
    (st : Store) :
  let key := (b_UserID balance, b_GroupID balance) in
  exists created st',
    BalanceRepository.Create now balance st = (inr created, st')
    /\ (forall doc, st_balances st !! key = Some doc ->
                    created = doc /\ st' = st)
    /\ (st_balances st !! key = None ->
        created = mkBalance (b_UserID balance) (b_GroupID balance)
                    (b_Balance balance) (b_Currency balance) now 1
        /\ forall k, k <> key -> st_balances st' !! k = st_balances st !! k)
    /\ BalanceRepository.GetByUserAndGroup (b_UserID balance)
         (b_GroupID balance) st' = (inr created, st')
    /\ (b_UserID other = b_UserID balance ->
        b_GroupID other = b_GroupID balance ->
        BalanceRepository.Create now' other st' = (inr created, st')).
Proof.
  intros key. unfold BalanceRepository.Create,
    BalanceRepository.GetByUserAndGroup.
  cbn [b_UserID b_GroupID]. fold key.
  destruct (st_balances st !! key) as [doc|] eqn:L.
  - exists doc, st. rewrite L. split; [reflexivity|].
    split; [intros doc' [= <-]; split; reflexivity|].
    split; [discriminate|]. split; [reflexivity|].
    intros -> ->. fold key. now rewrite L.
  - eexists _, _. split; [reflexivity|].
    split; [discriminate|].
    split.
    { intros _. split; [reflexivity|]. intros k Hk.
      cbn [st_balances set_balances]. now apply lookup_insert_ne. }
    cbn [st_balances set_balances]. rewrite lookup_insert_eq.
    split; [reflexivity|].
    intros -> ->. fold key. now rewrite lookup_insert_eq.
Qed.

(** X9: [GetUserBalanceInGroup] never fails: it returns the stored balance
    of the user in the group, or a zero balance in USD when there is none,
    and leaves the store unchanged; after a blind increment of that
    balance it returns the previous amount plus the increment. *)
Theorem GetUserBalanceInGroup_spec (now : Z) (userID groupID : string)
    (amount : Q) (st : Store) :
  (exists balance,
      GetUserBalanceInGroup userID groupID st = (inr balance, st)
      /\ b_Balance balance = balanceOf st userID (Some groupID)
      /\ (st_balances st !! (userID, Some groupID) = None ->
          balance = mkBalance userID (Some groupID) 0 "USD" 0 0))
  /\ (let st' :=
        snd (BalanceRepository.UpdateBalance now userID (Some groupID)
               amount st) in
      exists balance',
        GetUserBalanceInGroup userID groupID st' = (inr balance', st')
        /\ b_Balance balance'
           == balanceOf st userID (Some groupID) + amount).
Proof.
  assert (H : forall st0,
             exists balance,
               GetUserBalanceInGroup userID groupID st0 = (inr balance, st0)
               /\ b_Balance balance = balanceOf st0 userID (Some groupID)
               /\ (st_balances st0 !! (userID, Some groupID) = None ->
                   balance = mkBalance userID (Some groupID) 0 "USD" 0 0)).
  { intros st0.
    unfold GetUserBalanceInGroup, BalanceRepository.GetByUserAndGroup,
      balanceOf.
    destruct (st_balances st0 !! (userID, Some groupID)) as [b|].
    - exists b. repeat split. discriminate.
    - eexists. repeat split. }
  split; [apply H|].
  intros st'. destruct (H st') as (balance' & Hget & Hbal & _).
  exists balance'. split; [assumption|]. rewrite Hbal. subst st'.
  rewrite (proj2 (balanceOf_UpdateBalance _ _ _ _ _ _ _)).
  destruct (decide _); [reflexivity|congruence].
Qed.

(** ** The balance deltas of an expense, in general *)

Lemma deltasPayers_users (share : SplitShare) (paidBy : list PaidBy)
    (u : string) :
  u ∈ map fst (deltasPayers share paidBy) ->
  u = ss_UserID share \/ u ∈ map pb_UserID paidBy.
Proof.
  induction paidBy as [|pb rest IH]; cbn [deltasPayers map];
    [intros H; inversion H|].
  rewrite map_app, elem_of_app. intros [H|H].
  - destruct (String.eqb_spec (pb_UserID pb) (ss_UserID share)) as [E|E].
    + cbn in H. apply list_elem_of_singleton in H. subst u. now left.
    + destruct (fgt _ _); cbn in H.
      * apply elem_of_cons in H. destruct H as [->|H]; [now left|].
        apply list_elem_of_singleton in H. subst u. right. left.
      * inversion H.
  - destruct (IH H) as [->|H']; [now left|]. right. now right.
Qed.

Lemma deltas_users (expense : Expense) (u : string) :
  u ∈ map fst (deltas expense) ->
  u ∈ map pb_UserID (e_PaidBy expense)
  \/ u ∈ map ss_UserID (sd_Details (e_Split expense)).
Proof.
  unfold deltas.
  induction (sd_Details (e_Split expense)) as [|share rest IH];
    cbn [flat_map map]; [intros H; inversion H|].
  rewrite map_app, elem_of_app. intros [H|H].
  - apply deltasPayers_users in H. destruct H as [->|H]; [right; left|now left].
  - destruct (IH H) as [H'|H']; [now left|right; now right].
Qed.

(** X10: what [updateBalances] writes.  It returns nil; in the scope of
    the expense the balance of every user moves by the user's net delta;
    balances in other scopes, and balances of users who are neither payers
    nor participants, are untouched; and nothing else is written: no
    history row, no expense, no settlement. *)
Theorem updateBalances_effect (now : Z) (expense : Expense) (st : Store) :
  exists st',
    updateBalances now expense st = (inr tt, st')
    /\ (forall u,
           balanceOf st' u (e_GroupID expense)
           == balanceOf st u (e_GroupID expense) + netDelta expense u)
    /\ (forall u g, g <> e_GroupID expense ->
                    st_balances st' !! (u, g) = st_balances st !! (u, g))
    /\ (forall u, u ∉ map pb_UserID (e_PaidBy expense) ->
                  u ∉ map ss_UserID (sd_Details (e_Split expense)) ->
                  st_balances st' !! (u, e_GroupID expense)
                  = st_balances st !! (u, e_GroupID expense))
    /\ st_history st' = st_history st
    /\ st_expenses st' = st_expenses st
    /\ st_settlements st' = st_settlements st.
Proof.
  eexists. split; [apply updateBalances_deltas|].
  split; [intros u; apply balanceOf_applyDeltas|].
  split; [intros u g Hg; now apply applyDeltas_other_scope|].
  split.
  { intros u H1 H2. apply applyDeltas_other_user.
    intros H. apply deltas_users in H. tauto. }
  destruct (applyDeltas_frame now (e_GroupID expense) (deltas expense) st)
    as (-> & -> & -> & _).
  repeat split.
Qed.

Lemma sumFor_app (userID : string) (ds1 ds2 : list (string * Q)) :
  sumFor userID (ds1 ++ ds2) == sumFor userID ds1 + sumFor userID ds2.
Proof.
  unfold sumFor. induction ds1 as [|d rest IH]; cbn [app foldr].
  - ring.
  - destruct (String.eqb _ _); rewrite IH; ring.
Qed.

(** The increments of one share against a single payer, summed for a
    user. *)
Lemma sumFor_single_payer (pb : PaidBy) (share : SplitShare) (u : string) :
  0 < ss_Value share ->
  sumFor u (deltasPayers share [pb])
  == (if String.eqb (pb_UserID pb) (ss_UserID share)
      then (if String.eqb (pb_UserID pb) u
            then pb_Amount pb - ss_Value share else 0)
      else (if String.eqb (ss_UserID share) u then - ss_Value share else 0)
           + (if String.eqb (pb_UserID pb) u then ss_Value share else 0)).
Proof.
  intros Hpos. cbn [deltasPayers]. rewrite app_nil_r.
  destruct (String.eqb (pb_UserID pb) (ss_UserID share)).
  - unfold sumFor. cbn [foldr fst snd].
    destruct (String.eqb (pb_UserID pb) u); ring.
  - replace (fgt (ss_Value share) 0) with true
      by (symmetry; now apply fgt_true).
    unfold sumFor. cbn [foldr fst snd].
    destruct (String.eqb (ss_UserID share) u),
      (String.eqb (pb_UserID pb) u); ring.
Qed.

Lemma single_payer_induction (pb : PaidBy) (details : list SplitShare) :
  NoDup (map ss_UserID details) ->
  Forall (fun share => 0 < ss_Value share) details ->
  let D := flat_map (fun share => deltasPayers share [pb]) details in
  let p := pb_UserID pb in
  (forall u, u <> p -> u ∉ map ss_UserID details -> sumFor u D == 0)
  /\ (forall share, share ∈ details -> ss_UserID share <> p ->
        sumFor (ss_UserID share) D == - ss_Value share)
  /\ (p ∉ map ss_UserID details -> sumFor p D == sumValues details)
  /\ (forall own, own ∈ details -> ss_UserID own = p ->
        sumFor p D
        == pb_Amount pb - ss_Value own + (sumValues details - ss_Value own)).
Proof.
  intros Hnd Hpos. cbn zeta.
  induction details as [|s rest IH].
  { cbn [flat_map map]. split; [|split; [|split]].
    - intros u _ _. reflexivity.
    - intros share H. inversion H.
    - intros _. reflexivity.
    - intros own H. inversion H. }
  cbn [map] in Hnd. apply NoDup_cons in Hnd. destruct Hnd as [Hs Hnd].
  apply Forall_cons in Hpos. destruct Hpos as [Hsp Hpos].
  destruct (IH Hnd Hpos) as (IHa & IHb & IHc & IHd). clear IH.
  cbn [flat_map map].
  split; [|split; [|split]].
  - intros u Hu Hnot. apply not_elem_of_cons in Hnot.
    destruct Hnot as [Hne Hnot].
    rewrite sumFor_app, (sumFor_single_payer pb s u Hsp), (IHa u Hu Hnot).
    replace (String.eqb (pb_UserID pb) u) with false
      by (symmetry; apply String.eqb_neq; congruence).
    replace (String.eqb (ss_UserID s) u) with false
      by (symmetry; apply String.eqb_neq; congruence).
    destruct (String.eqb _ _); ring.
  - intros share Hin Hne. apply elem_of_cons in Hin.
    rewrite sumFor_app, (sumFor_single_payer pb s _ Hsp).
    replace (String.eqb (pb_UserID pb) (ss_UserID share)) with false
      by (symmetry; apply String.eqb_neq; congruence).
    destruct Hin as [->|Hin].
    + rewrite String.eqb_refl.
      replace (String.eqb (pb_UserID pb) (ss_UserID s)) with false
        by (symmetry; apply String.eqb_neq; congruence).
      rewrite (IHa (ss_UserID s) Hne Hs). ring.
    + assert (Hneq : ss_UserID s <> ss_UserID share).
      { intros E. apply Hs. rewrite E. apply list_elem_of_fmap. eauto. }
      replace (String.eqb (ss_UserID s) (ss_UserID share)) with false
        by (symmetry; now apply String.eqb_neq).
      rewrite (IHb share Hin Hne).
      destruct (String.eqb _ _); ring.
  - intros Hnot. apply not_elem_of_cons in Hnot. destruct Hnot as [Hne Hnot].
    rewrite sumFor_app, (sumFor_single_payer pb s _ Hsp), (IHc Hnot).
    rewrite String.eqb_refl.
    replace (String.eqb (pb_UserID pb) (ss_UserID s)) with false
      by (symmetry; now apply String.eqb_neq).
    replace (String.eqb (ss_UserID s) (pb_UserID pb)) with false
      by (symmetry; apply String.eqb_neq; congruence).
    rewrite sumValues_cons. ring.
  - intros own Hin Hown. apply elem_of_cons in Hin.
    rewrite sumFor_app, (sumFor_single_payer pb s _ Hsp).
    rewrite String.eqb_refl, sumValues_cons.
    destruct Hin as [->|Hin].
    + replace (String.eqb (pb_UserID pb) (ss_UserID s)) with true
        by (symmetry; now apply String.eqb_eq).
      rewrite IHc by (rewrite <- Hown; exact Hs). ring.
    + assert (Hneq : pb_UserID pb <> ss_UserID s).
      { intros E. apply Hs. rewrite <- E, <- Hown.
        apply list_elem_of_fmap. eauto. }
      replace (String.eqb (pb_UserID pb) (ss_UserID s)) with false
        by (symmetry; now apply String.eqb_neq).
      replace (String.eqb (ss_UserID s) (pb_UserID pb)) with false
        by (symmetry; apply String.eqb_neq; congruence).
      rewrite (IHd own Hin Hown). ring.
Qed.

(** X11: the net deltas of an expense with one payer, distinct
    participants and positive shares.  A participant other than the payer
    moves by minus the participant's share.  The payer moves by the sum of
    all shares when the payer is not a participant, and by
    [paid - own share] plus the sum of the other shares when the payer is
    one: the shares of the others are credited on top of the payer's own
    netting. *)
Theorem netDelta_single_payer (expense : Expense) (pb : PaidBy) :
  e_PaidBy expense = [pb] ->
  NoDup (map ss_UserID (sd_Details (e_Split expense))) ->
  Forall (fun share => 0 < ss_Value share) (sd_Details (e_Split expense)) ->
  let details := sd_Details (e_Split expense) in
  (forall share, share ∈ details -> ss_UserID share <> pb_UserID pb ->
      netDelta expense (ss_UserID share) == - ss_Value share)
  /\ (pb_UserID pb ∉ map ss_UserID details ->
      netDelta expense (pb_UserID pb) == sumValues details)
  /\ (forall own, own ∈ details -> ss_UserID own = pb_UserID pb ->
      netDelta expense (pb_UserID pb)
      == pb_Amount pb - ss_Value own + (sumValues details - ss_Value own)).
Proof.
  intros Hpb Hnd Hpos details.
  destruct (single_payer_induction pb details Hnd Hpos)
    as (_ & Hb & Hc & Hd).
  unfold netDelta, deltas. rewrite Hpb. fold details.
  split; [exact Hb|]. split; [exact Hc|exact Hd].
Qed.

(** ** Recording an expense *)

Lemma ExistMultiple_spec (userIDs : list string) (st : Store) :
  exists missing,
    UserRepository.ExistMultiple userIDs st = (inr missing, st)
    /\ forall id, id ∈ missing <-> id ∈ userIDs /\ ~ userExists st id.
Proof.
  unfold UserRepository.ExistMultiple, userExists.
  destruct userIDs as [|x rest] eqn:D.
  { exists []. split; [reflexivity|]. intros id. rewrite elem_of_nil. tauto. }
  rewrite <- D. replace (length userIDs =? 0)%nat with false
    by (rewrite D; reflexivity).
  eexists. split; [reflexivity|]. intros id.
  rewrite list_elem_of_In, filter_In, <- list_elem_of_In.
  rewrite negb_true_iff, bool_decide_eq_false, elem_of_list_to_set.
  split; intros [Hin Hno]; (split; [assumption|]); intros H; apply Hno.
  - apply list_elem_of_fmap in H. destruct H as (u & -> & Hu).
    apply list_elem_of_fmap. exists u. split; [reflexivity|].
    apply list_elem_of_In, filter_In. split; [now apply list_elem_of_In|].
    now apply bool_decide_eq_true.
  - apply list_elem_of_fmap in H. destruct H as (u & -> & Hu).
    apply list_elem_of_fmap. exists u. split; [reflexivity|].
    apply list_elem_of_In, filter_In in Hu. destruct Hu as [Hu _].
    now apply list_elem_of_In.
Qed.

Lemma GetNonMembers_spec (groupID : string) (userIDs : list string)
    (st : Store) :
  exists nonMembers,
    GroupRepository.GetNonMembers groupID userIDs st = (inr nonMembers, st)
    /\ forall id, id ∈ nonMembers
                  <-> id ∈ userIDs /\ ~ activeMember st groupID id.
Proof.
  unfold GroupRepository.GetNonMembers, activeMember.
  destruct userIDs as [|x rest] eqn:D.
  { exists []. split; [reflexivity|]. intros id. rewrite elem_of_nil. tauto. }
  rewrite <- D. replace (length userIDs =? 0)%nat with false
    by (rewrite D; reflexivity).
  eexists. split; [reflexivity|]. intros id.
  rewrite list_elem_of_In, filter_In, <- list_elem_of_In.
  rewrite negb_true_iff, bool_decide_eq_false, elem_of_list_to_set.
  split; intros [Hin Hno]; (split; [assumption|]); intros H; apply Hno.
  - destruct H as (g & m & Hg & Hid & Hm & Hu & Hact).
    apply list_elem_of_fmap. exists m. split; [now rewrite Hu|].
    apply list_elem_of_In, filter_In. split.
    + apply in_flat_map. exists g. split; [|now apply list_elem_of_In].
      apply filter_In. split; [now apply list_elem_of_In|].
      now apply String.eqb_eq.
    + rewrite Hact, Hu, andb_true_r. now apply bool_decide_eq_true.
  - apply list_elem_of_fmap in H. destruct H as (m & -> & Hm).
    apply list_elem_of_In, filter_In in Hm. destruct Hm as [Hm Hc].
    apply andb_true_iff in Hc. destruct Hc as [_ Hact].
    apply in_flat_map in Hm. destruct Hm as (g & Hg & Hm).
    apply filter_In in Hg. destruct Hg as [Hg Hid].
    apply String.eqb_eq in Hid.
    exists g, m. repeat split; try assumption; now apply list_elem_of_In.
Qed.

Lemma activeMember_bool (st : Store) (groupID userID : string) :
  activeMember st groupID userID
  <-> existsb (fun g => String.eqb (g_GroupID g) groupID
                        && GroupRepository.hasActiveMember userID g)
              (st_groups st) = true.
Proof.
  unfold activeMember, GroupRepository.hasActiveMember.
  rewrite existsb_exists. split.
  - intros (g & m & Hg & Hid & Hm & Hu & Hact). exists g.
    split; [now apply list_elem_of_In|].
    apply andb_true_iff. split; [now apply String.eqb_eq|].
    apply existsb_exists. exists m. split; [now apply list_elem_of_In|].
    apply andb_true_iff. split; [now apply String.eqb_eq|assumption].
  - intros (g & Hg & Hc). apply andb_true_iff in Hc. destruct Hc as [Hid Hm].
    apply String.eqb_eq in Hid. apply existsb_exists in Hm.
    destruct Hm as (m & Hm & Hc). apply andb_true_iff in Hc.
    destruct Hc as [Hu Hact]. apply String.eqb_eq in Hu.
    exists g, m. repeat split; try assumption; now apply list_elem_of_In.
Qed.

Lemma activeMember_dec (st : Store) (groupID userID : string) :
  activeMember st groupID userID \/ ~ activeMember st groupID userID.
Proof.
  rewrite activeMember_bool. destruct (existsb _ _); [now left|right].
  discriminate.
Qed.

Lemma userIDSetOf_elem (expense : Expense) (u : string) :
  u ∈ userIDSetOf expense <-> mentioned expense u.
Proof.
  unfold userIDSetOf, mentioned. rewrite !foldl_collect.
  rewrite !elem_of_union, !elem_of_list_to_set, elem_of_singleton.
  intuition congruence.
Qed.

(** The store after the transaction of [CreateExpense]. *)
Lemma CreateExpense_cases (range : gset string -> list string)
    (newID : string) (now : Z) (expense : Expense) (st : Store) :
  (exists err, CreateExpense range newID now expense st = (inl err, st)
               /\ (validateExpense expense = Some err
                   \/ (validateExpense expense = None
                       /\ validateUsersExist range expense st = (inl err, st))
                   \/ (validateExpense expense = None
                       /\ validateUsersExist range expense st = (inr tt, st)
                       /\ exists g, e_GroupID expense = Some g
                          /\ validateGroupMembership range g expense st
                             = (inl err, st))
                   \/ (validateExpense expense = None
                       /\ calculateShares range expense = inl err)))
  \/ (exists shares,
         validateExpense expense = None
         /\ validateUsersExist range expense st = (inr tt, st)
         /\ (forall g, e_GroupID expense = Some g ->
                       validateGroupMembership range g expense st
                       = (inr tt, st))
         /\ calculateShares range expense = inr shares
         /\ CreateExpense range newID now expense st
            = (inr (createdExpense newID now expense shares),
               applyDeltas now (e_GroupID expense)
                 (deltas (storedExpense newID now expense shares))
                 (set_expenses
                    (st_expenses st
                     ++ [storedExpense newID now expense shares]) st))).
Proof.
  assert (HU : exists r, validateUsersExist range expense st = (r, st)).
  { unfold validateUsersExist, mbind, M_bind.
    destruct (ExistMultiple_spec (range (userIDSetOf expense)) st)
      as (missing & -> & _).
    destruct missing; eexists; reflexivity. }
  assert (HG : exists r,
             match e_GroupID expense with
             | Some groupID => validateGroupMembership range groupID expense
             | None => fun st => (inr tt, st)
             end st = (r, st)
             /\ (forall g, e_GroupID expense = Some g ->
                           validateGroupMembership range g expense st
                           = (r, st))).
  { destruct (e_GroupID expense) as [g|].
    - unfold validateGroupMembership, mbind, M_bind.
      destruct (GetNonMembers_spec g (range (userIDSetOf expense)) st)
        as (nonMembers & Hnm & _).
      rewrite Hnm.
      destruct nonMembers; eexists; (split; [reflexivity|]);
        intros g' [= <-]; rewrite Hnm; reflexivity.
    - exists (inr tt). split; [reflexivity|]. discriminate. }
  destruct HU as [rU HU]. destruct HG as (rG & HG & HG').
  unfold CreateExpense, mbind, M_bind, check, lift, mret, M_ret, fail.
  destruct (validateExpense expense) as [err|] eqn:V.
  { left. exists err. split; [reflexivity|]. now left. }
  rewrite HU. destruct rU as [err|[]].
  { left. exists err. split; [reflexivity|]. right. left. now split. }
  rewrite HG. destruct rG as [err|[]].
  { left. exists err. split; [reflexivity|]. right. right. left.
    split; [reflexivity|]. split; [reflexivity|].
    destruct (e_GroupID expense) as [g|]; [|discriminate].
    exists g. split; [reflexivity|]. now apply HG'. }
  destruct (calculateShares range expense) as [err|shares] eqn:C.
  { left. exists err. split; [reflexivity|]. right. right. right.
    now split. }
  right. exists shares. split; [reflexivity|]. split; [reflexivity|].
  split; [exact HG'|]. split; [reflexivity|].
  unfold WithTransaction, ExpenseRepository.CreateExpense.
  rewrite updateBalances_deltas. reflexivity.
Qed.

Section Referential.

Variable range : gset string -> list string.
Hypothesis range_perm : forall m : gset string, range m ≡ₚ elements m.

Lemma validateUsersExist_spec (expense : Expense) (st : Store) :
  (validateUsersExist range expense st = (inr tt, st)
   /\ forall u, mentioned expense u -> userExists st u)
  \/ (exists u, validateUsersExist range expense st
                = (inl (ErrUserDoesNotExist u), st)
                /\ mentioned expense u /\ ~ userExists st u).
Proof.
  unfold validateUsersExist, mbind, M_bind.
  destruct (ExistMultiple_spec (range (userIDSetOf expense)) st)
    as (missing & -> & Hm).
  destruct missing as [|u rest].
  - left. split; [reflexivity|]. intros u Hu.
    destruct (decide (u ∈ map u_UserID (st_users st))) as [H|H];
      [exact H|].
    exfalso. apply (proj1 (elem_of_nil u)). apply Hm. split; [|exact H].
    rewrite (range_perm (userIDSetOf expense)), elem_of_elements.
    now apply userIDSetOf_elem.
  - right. exists u. split; [reflexivity|].
    destruct (proj1 (Hm u)) as [Hin Hno]; [left|].
    rewrite (range_perm (userIDSetOf expense)), elem_of_elements in Hin.
    split; [now apply userIDSetOf_elem|assumption].
Qed.

Lemma validateGroupMembership_spec (groupID : string) (expense : Expense)
    (st : Store) :
  (validateGroupMembership range groupID expense st = (inr tt, st)
   /\ forall u, mentioned expense u -> activeMember st groupID u)
  \/ (exists u, validateGroupMembership range groupID expense st
                = (inl (ErrNotGroupMember u groupID), st)
                /\ mentioned expense u /\ ~ activeMember st groupID u).
Proof.
  unfold validateGroupMembership, mbind, M_bind.
  destruct (GetNonMembers_spec groupID (range (userIDSetOf expense)) st)
    as (nonMembers & -> & Hm).
  destruct nonMembers as [|u rest].
  - left. split; [reflexivity|]. intros u Hu.
    destruct (activeMember_dec st groupID u) as [H|H]; [exact H|].
    exfalso. apply (proj1 (elem_of_nil u)). apply Hm. split; [|exact H].
    rewrite (range_perm (userIDSetOf expense)), elem_of_elements.
    now apply userIDSetOf_elem.
  - right. exists u. split; [reflexivity|].
    destruct (proj1 (Hm u)) as [Hin Hno]; [left|].
    rewrite (range_perm (userIDSetOf expense)), elem_of_elements in Hin.
    split; [now apply userIDSetOf_elem|assumption].
Qed.

(** X13: the referential checks of [CreateExpense].  If it succeeds, the
    creator, every payer and every split participant has a user document
    and, for a group expense, is an active member of the group.  If it
    fails with the unknown-user or the not-a-member error, the user named
    in the error is one of them and is unknown, respectively not an active
    member. *)
Theorem CreateExpense_referential (newID : string) (now : Z)
    (expense : Expense) (st : Store) :
  (forall created st',
      CreateExpense range newID now expense st = (inr created, st') ->
      forall u, mentioned expense u ->
        userExists st u
        /\ forall g, e_GroupID expense = Some g -> activeMember st g u)
  /\ (forall u st',
         CreateExpense range newID now expense st
         = (inl (ErrUserDoesNotExist u), st') ->
         mentioned expense u /\ ~ userExists st u)
  /\ (forall u g st',
         CreateExpense range newID now expense st
         = (inl (ErrNotGroupMember u g), st') ->
         e_GroupID expense = Some g
         /\ mentioned expense u /\ ~ activeMember st g u).
Proof.
  destruct (CreateExpense_cases range newID now expense st)
    as [(err & H & Hwhy)|(shares & V & HU & HG & C & H)]; rewrite H.
  - split; [discriminate|].
    assert (Hval : is_ValidationError err = true ->
                   (forall u, err <> ErrUserDoesNotExist u)
                   /\ (forall u g, err <> ErrNotGroupMember u g)).
    { intros Hv. split; intros; intros ->; discriminate. }
    destruct Hwhy as [V|[(V & HU)|[(V & HU & g & Hg & HG)|(V & C)]]].
    + apply validateExpense_Some in V. destruct (Hval V) as [N1 N2].
      split; [intros u st' [= -> _]; now destruct (N1 u)|].
      intros u g st' [= -> _]. now destruct (N2 u g).
    + destruct (validateUsersExist_spec expense st)
        as [[HU' _]|(u' & HU' & Hm & Hno)]; [congruence|].
      assert (err = ErrUserDoesNotExist u') by congruence. subst err.
      split; [intros u st' [= <- _]; now split|discriminate].
    + destruct (validateGroupMembership_spec g expense st)
        as [[HG' _]|(u' & HG' & Hm & Hno)]; [congruence|].
      assert (err = ErrNotGroupMember u' g) by congruence. subst err.
      split; [discriminate|]. intros u g' st' [= <- <- _]. now repeat split.
    + apply calculateShares_inl in C. destruct (Hval C) as [N1 N2].
      split; [intros u st' [= -> _]; now destruct (N1 u)|].
      intros u g st' [= -> _]. now destruct (N2 u g).
  - split; [|split; discriminate].
    intros created st' _ u Hu. split.
    + destruct (validateUsersExist_spec expense st)
        as [[_ Hall]|(u' & HU' & _)]; [now apply Hall|congruence].
    + intros g Hg.
      destruct (validateGroupMembership_spec g expense st)
        as [[_ Hall]|(u' & HG' & _)]; [now apply Hall|].
      rewrite (HG g Hg) in HG'. discriminate.
Qed.

End Referential.

(** ** Reading expenses back *)

Lemma involves_hasAccess (userID : string) (e : Expense) :
  ExpenseRepository.involves userID e = true
  <-> e_IsDeleted e = false /\ hasAccess e userID.
Proof.
  unfold ExpenseRepository.involves, hasAccess.
  rewrite andb_true_iff, negb_true_iff, !orb_true_iff, !existsb_userID,
    String.eqb_eq.
  tauto.
Qed.

(** What [GetExpense] returns once the repository has found a document. *)
Lemma GetExpense_found (expenseID userID : string) (st : Store) (e : Expense) :
  findOne (fun e => String.eqb (e_ExpenseID e) expenseID
                    && negb (e_IsDeleted e)) (st_expenses st) = Some e ->
  GetExpense expenseID userID st
  = (if ExpenseRepository.involves userID e then inr e else inl ErrNoAccess,
     st).
Proof.
  intros F.
  assert (Hdel : e_IsDeleted e = false).
  { destruct (findOne_split _ _ _ F) as (_ & _ & _ & _ & H).
    apply andb_true_iff in H. now apply negb_true_iff. }
  unfold GetExpense, ExpenseRepository.GetByID, mbind, M_bind, mret, M_ret,
    fail.
  rewrite F. unfold ExpenseRepository.involves. rewrite Hdel. cbn [negb andb].
  destruct (String.eqb (e_CreatorID e) userID); cbn [negb orb];
    [reflexivity|].
  destruct (existsb _ (e_PaidBy e)); cbn [negb orb]; [reflexivity|].
  destruct (existsb _ _); reflexivity.
Qed.

Lemma GetExpense_not_found (expenseID userID : string) (st : Store) :
  findOne (fun e => String.eqb (e_ExpenseID e) expenseID
                    && negb (e_IsDeleted e)) (st_expenses st) = None ->
  GetExpense expenseID userID st = (inl ErrExpenseNotFound, st).
Proof.
  intros F.
  unfold GetExpense, ExpenseRepository.GetByID, mbind, M_bind.
  now rewrite F.
Qed.

Lemma find_none_forall {A : Type} (p : A -> bool) (l : list A) :
  (forall x, x ∈ l -> p x = false) -> find p l = None.
Proof.
  induction l as [|x rest IH]; intros H; simpl; [reflexivity|].
  rewrite (H x) by left. apply IH. intros y Hy. apply H. now right.
Qed.

(** X14: an expense can be read back.  After a successful [CreateExpense]
    under an id that no stored, not deleted expense has, [GetExpense] with
    that id returns the stored document to the creator, to every payer and
    to every participant of the resolved split, and the no-access error to
    anyone else; reads under any other id answer as before. *)
Theorem CreateExpense_then_GetExpense (range : gset string -> list string)
    (newID : string) (now : Z) (expense : Expense) (st st' : Store)
    (created : Expense) :
  CreateExpense range newID now expense st = (inr created, st') ->
  (forall x, x ∈ st_expenses st -> e_IsDeleted x = false ->
             e_ExpenseID x <> newID) ->
  let stored :=
    storedExpense newID now expense (sd_Details (e_Split created)) in
  (forall u, hasAccess created u ->
             GetExpense newID u st' = (inr stored, st'))
  /\ (forall u, ~ hasAccess created u ->
                GetExpense newID u st' = (inl ErrNoAccess, st'))
  /\ (forall id u, id <> newID ->
                   fst (GetExpense id u st') = fst (GetExpense id u st)).
Proof.
  intros H Hfresh stored.
  destruct (CreateExpense_cases range newID now expense st)
    as [(err & H' & _)|(shares & _ & _ & _ & _ & H')];
    rewrite H' in H; [discriminate|].
  injection H as <- <-. subst stored.
  cbn [createdExpense e_Split sd_Details].
  set (stored := storedExpense newID now expense shares).
  set (st' := applyDeltas _ _ _ _).
  assert (Hexp : st_expenses st' = st_expenses st ++ [stored]).
  { subst st'. now destruct (applyDeltas_frame now (e_GroupID expense)
      (deltas stored) (set_expenses (st_expenses st ++ [stored]) st))
      as (_ & -> & _). }
  assert (Hfind : findOne (fun e => String.eqb (e_ExpenseID e) newID
                                    && negb (e_IsDeleted e))
                          (st_expenses st') = Some stored).
  { rewrite Hexp. unfold findOne. rewrite find_app.
    rewrite find_none_forall.
    - cbn [find stored storedExpense e_ExpenseID e_IsDeleted].
      now rewrite String.eqb_refl.
    - intros x Hx. destruct (e_IsDeleted x) eqn:Hd;
        [now rewrite andb_false_r|].
      rewrite andb_true_r. apply String.eqb_neq. now apply Hfresh. }
  assert (Hacc : forall u, hasAccess (createdExpense newID now expense shares) u
                           <-> ExpenseRepository.involves u stored = true).
  { intros u. rewrite involves_hasAccess. unfold hasAccess.
    cbn [stored storedExpense createdExpense e_CreatorID e_PaidBy e_Split
         e_IsDeleted]. tauto. }
  split; [|split].
  - intros u Hu. rewrite (GetExpense_found _ _ _ _ Hfind).
    apply Hacc in Hu. now rewrite Hu.
  - intros u Hu. rewrite (GetExpense_found _ _ _ _ Hfind).
    destruct (ExpenseRepository.involves u stored) eqn:E; [|reflexivity].
    exfalso. apply Hu. now apply Hacc.
  - intros id u Hid.
    assert (Hsame : findOne (fun e => String.eqb (e_ExpenseID e) id
                                      && negb (e_IsDeleted e))
                            (st_expenses st')
                    = findOne (fun e => String.eqb (e_ExpenseID e) id
                                        && negb (e_IsDeleted e))
                              (st_expenses st)).
    { rewrite Hexp. unfold findOne. rewrite find_app.
      destruct (find _ (st_expenses st)); [reflexivity|].
      cbn [find stored storedExpense e_ExpenseID e_IsDeleted].
      replace (String.eqb newID id) with false
        by (symmetry; apply String.eqb_neq; congruence).
      reflexivity. }
    destruct (findOne _ (st_expenses st)) as [e|] eqn:F.
    + rewrite (GetExpense_found _ _ _ _ Hsame), (GetExpense_found _ _ _ _ F).
      reflexivity.
    + rewrite (GetExpense_not_found _ _ _ Hsame),
        (GetExpense_not_found _ _ _ F). reflexivity.
Qed.

(** X22: the user filter of the expense repository and the access check
    of [GetExpense] agree.  [CountByUserID] counts the stored expenses that
    are not deleted and that have the user as creator, payer or split
    participant; and when no two stored expenses share an id, those are the
    expenses that [GetExpense] returns to the user. *)
Theorem CountByUserID_agrees_with_GetExpense (userID : string) (st : Store) :
  ExpenseRepository.CountByUserID userID st
  = (inr (length (List.filter (ExpenseRepository.involves userID)
                              (st_expenses st))), st)
  /\ (forall e, ExpenseRepository.involves userID e = true
                <-> e_IsDeleted e = false /\ hasAccess e userID)
  /\ (NoDup (map e_ExpenseID (st_expenses st)) ->
      forall e, e ∈ st_expenses st ->
        (GetExpense (e_ExpenseID e) userID st = (inr e, st)
         <-> ExpenseRepository.involves userID e = true)).
Proof.
  split; [reflexivity|]. split; [intros e; apply involves_hasAccess|].
  intros Hnd e He.
  destruct (e_IsDeleted e) eqn:Hd.
  - (* a deleted expense is neither counted nor returned *)
    assert (Hinv : ExpenseRepository.involves userID e = false)
      by (unfold ExpenseRepository.involves; now rewrite Hd).
    rewrite Hinv. split; [|discriminate]. intros H.
    destruct (findOne (fun x => String.eqb (e_ExpenseID x) (e_ExpenseID e)
                                && negb (e_IsDeleted x)) (st_expenses st))
      as [x|] eqn:F.
    + rewrite (GetExpense_found _ _ _ _ F) in H.
      destruct (findOne_split _ _ _ F) as (_ & _ & _ & _ & Hx).
      apply andb_true_iff in Hx. destruct Hx as [_ Hx].
      apply negb_true_iff in Hx.
      destruct (ExpenseRepository.involves userID x); [|discriminate].
      congruence.
    + rewrite (GetExpense_not_found _ _ _ F) in H. discriminate.
  - assert (F : findOne (fun x => String.eqb (e_ExpenseID x) (e_ExpenseID e)
                                  && negb (e_IsDeleted x)) (st_expenses st)
                = Some e).
    { clear -Hnd He Hd. unfold findOne.
      induction (st_expenses st) as [|x rest IH]; [inversion He|].
      cbn [map] in Hnd. apply NoDup_cons in Hnd. destruct Hnd as [Hx Hnd].
      apply elem_of_cons in He. cbn [find]. destruct He as [<-|He].
      - now rewrite String.eqb_refl, Hd.
      - replace (String.eqb (e_ExpenseID x) (e_ExpenseID e)) with false.
        + cbn [andb]. now apply IH.
        + symmetry. apply String.eqb_neq. intros E. apply Hx. rewrite E.
          apply list_elem_of_fmap. eauto. }
    rewrite (GetExpense_found _ _ _ _ F).
    destruct (ExpenseRepository.involves userID e); split;
      congruence.
Qed.

(** X21: [SoftDelete] hides an expense and reverts nothing.  When the
    stored expenses have distinct ids and one has the id, [SoftDelete]
    returns nil; afterwards [GetExpense] with that id answers not-found for
    every user, while the balances and the history are as before; reads
    under other ids are not affected; and a second [SoftDelete] of the
    same id returns nil again, not not-found. *)
Theorem SoftDelete_effect (now now' : Z) (expenseID : string) (st : Store)
    (e : Expense) :
  findOne (fun x => String.eqb (e_ExpenseID x) expenseID) (st_expenses st)
  = Some e ->
  NoDup (map e_ExpenseID (st_expenses st)) ->
  exists st',
    ExpenseRepository.SoftDelete now expenseID st = (inr tt, st')
    /\ (forall u, GetExpense expenseID u st' = (inl ErrExpenseNotFound, st'))
    /\ st_balances st' = st_balances st
    /\ st_history st' = st_history st
    /\ (forall id u, id <> expenseID ->
                     fst (GetExpense id u st') = fst (GetExpense id u st))
    /\ (exists st'',
           ExpenseRepository.SoftDelete now' expenseID st' = (inr tt, st'')).
Proof.
  intros F Hnd.
  destruct (findOne_split _ _ _ F) as (before & after & Hdocs & Hall & He).
  assert (Hsd : ExpenseRepository.SoftDelete now expenseID st
                = (inr tt,
                   set_expenses
                     (before ++ ExpenseRepository.deleted now e :: after) st)).
  { unfold ExpenseRepository.SoftDelete. rewrite Hdocs at 1.
    now rewrite (updateOne_app _ _ before after e Hall He). }
  eexists. split; [exact Hsd|].
  cbn [st_expenses set_expenses st_balances st_history].
  assert (Hafter : Forall (fun x => String.eqb (e_ExpenseID x) expenseID
                                    = false) after).
  { rewrite Hdocs, map_app in Hnd. cbn [map] in Hnd.
    apply NoDup_app in Hnd. destruct Hnd as (_ & _ & Hnd).
    apply NoDup_cons in Hnd. destruct Hnd as [Hnot _].
    apply Forall_forall. intros x Hx. apply String.eqb_neq. intros E.
    apply Hnot. apply String.eqb_eq in He. rewrite He, <- E.
    apply list_elem_of_fmap. exists x. split; [reflexivity|assumption]. }
  split; [|split; [reflexivity|split; [reflexivity|split]]].
  - intros u. apply GetExpense_not_found.
    cbn [st_expenses set_expenses]. unfold findOne. rewrite find_app.
    rewrite find_none_forall.
    + cbn [find ExpenseRepository.deleted e_IsDeleted]. rewrite andb_false_r.
      apply find_none_forall. intros x Hx.
      rewrite Forall_forall in Hafter.
      rewrite (Hafter x) by assumption. reflexivity.
    + intros x Hx. rewrite Forall_forall in Hall.
      rewrite (Hall x) by assumption. reflexivity.
  - intros id u Hid.
    assert (Hsame : findOne (fun x => String.eqb (e_ExpenseID x) id
                                      && negb (e_IsDeleted x))
                            (before ++ ExpenseRepository.deleted now e :: after)
                    = findOne (fun x => String.eqb (e_ExpenseID x) id
                                        && negb (e_IsDeleted x))
                              (st_expenses st)).
    { rewrite Hdocs. unfold findOne. rewrite !find_app. cbn [find].
      apply String.eqb_eq in He.
      cbn [ExpenseRepository.deleted e_ExpenseID]. rewrite He.
      replace (String.eqb expenseID id) with false
        by (symmetry; apply String.eqb_neq; congruence).
      reflexivity. }
    destruct (findOne (fun x => String.eqb (e_ExpenseID x) id
                                && negb (e_IsDeleted x)) (st_expenses st))
      as [x|] eqn:Fx.
    + rewrite (GetExpense_found id u (set_expenses _ st) x Hsame),
        (GetExpense_found _ _ _ _ Fx). reflexivity.
    + rewrite (GetExpense_not_found id u (set_expenses _ st) Hsame),
        (GetExpense_not_found _ _ _ Fx). reflexivity.
  - unfold ExpenseRepository.SoftDelete. cbn [st_expenses set_expenses].
    rewrite (updateOne_app _ _ before after _ Hall)
      by (cbn [ExpenseRepository.deleted e_ExpenseID]; exact He).
    eexists. reflexivity.
Qed.

(** ** Creating and reading settlements *)

Lemma userExists_bool (st : Store) (userID : string) :
  userExists st userID
  <-> existsb (fun u => String.eqb (u_UserID u) userID) (st_users st) = true.
Proof. unfold userExists. symmetry. apply existsb_userID. Qed.

Lemma ExistMultiple_pair (a b : string) (st : Store) :
  exists missing,
    UserRepository.ExistMultiple [a; b] st = (inr missing, st)
    /\ (userExists st a -> userExists st b -> missing = [])
    /\ (~ userExists st a -> exists rest, missing = a :: rest)
    /\ (userExists st a -> ~ userExists st b -> missing = [b]).
Proof.
  unfold UserRepository.ExistMultiple. cbn [length Nat.eqb].
  eexists. split; [reflexivity|].
  set (existing := list_to_set _ : gset string).
  assert (Hex : forall id, id ∈ [a; b] -> (id ∈ existing <-> userExists st id)).
  { intros id Hid. subst existing. unfold userExists.
    rewrite elem_of_list_to_set. split; intros H.
    - apply list_elem_of_fmap in H. destruct H as (u & -> & Hu).
      apply list_elem_of_fmap. exists u. split; [reflexivity|].
      apply list_elem_of_In, filter_In in Hu. destruct Hu as [Hu _].
      now apply list_elem_of_In.
    - apply list_elem_of_fmap in H. destruct H as (u & -> & Hu).
      apply list_elem_of_fmap. exists u. split; [reflexivity|].
      apply list_elem_of_In, filter_In. split; [now apply list_elem_of_In|].
      now apply bool_decide_eq_true. }
  assert (Ha : bool_decide (a ∈ existing) = true <-> userExists st a).
  { rewrite bool_decide_eq_true. apply Hex. left. }
  assert (Hb : bool_decide (b ∈ existing) = true <-> userExists st b).
  { rewrite bool_decide_eq_true. apply Hex. right. left. }
  cbn [List.filter].
  destruct (bool_decide (a ∈ existing)), (bool_decide (b ∈ existing));
    cbn [negb]; repeat split; intros;
    try (exfalso; intuition congruence); eauto.
Qed.

(** X15: [CreateSettlement] checks, in this order, that the two users
    differ, that both exist (the from-user is reported first) and that the
    amount is positive; each failure leaves the store unchanged.  When all
    checks pass it appends one pending settlement with the requested terms
    and the new id, and writes nothing else. *)
Theorem CreateSettlement_spec (newID : string) (now : Z)
    (req : SettlementRequest) (st : Store) :
  let from := rq_FromUserID req in
  let to := rq_ToUserID req in
  let result := CreateSettlement newID now req st in
  (from = to -> result = (inl ErrInvalidSettlement, st))
  /\ (from <> to -> ~ userExists st from ->
      result = (inl (ErrUserDoesNotExist from), st))
  /\ (from <> to -> userExists st from -> ~ userExists st to ->
      result = (inl (ErrUserDoesNotExist to), st))
  /\ (from <> to -> userExists st from -> userExists st to ->
      ~ 0 < rq_Amount req ->
      result = (inl ErrSettlementAmountNotPositive, st))
  /\ (from <> to -> userExists st from -> userExists st to ->
      0 < rq_Amount req ->
      let s := mkSettlement newID from to (rq_GroupID req) (rq_Amount req)
                 (rq_Currency req) SettlementPending (rq_Method req)
                 (rq_Description req) None now now None None None in
      result = (inr s, set_settlements (st_settlements st ++ [s]) st)).
Proof.
  intros from to result. subst result. unfold CreateSettlement.
  fold from to.
  destruct (String.eqb_spec from to) as [E|E].
  { split; [reflexivity|]. repeat split; intros; contradiction. }
  split; [intros; contradiction|].
  unfold mbind, M_bind.
  destruct (ExistMultiple_pair from to st) as (missing & -> & H1 & H2 & H3).
  split; [|split; [|split]].
  - intros _ Hno. destruct (H2 Hno) as [rest ->]. reflexivity.
  - intros _ Ha Hb. rewrite (H3 Ha Hb). reflexivity.
  - intros _ Ha Hb Hamt. rewrite (H1 Ha Hb).
    replace (fle (rq_Amount req) 0) with true; [reflexivity|].
    symmetry. apply fle_true. now apply Qnot_lt_le.
  - intros _ Ha Hb Hamt. rewrite (H1 Ha Hb).
    replace (fle (rq_Amount req) 0) with false; [reflexivity|].
    symmetry. now apply fle_false.
Qed.

(** What [GetSettlement] returns, by cases on the settlement found. *)
Lemma GetSettlement_cases (settlementID userID : string) (st : Store) :
  GetSettlement settlementID userID st
  = (match findOne (SettlementRepository.byID settlementID)
                   (st_settlements st) with
     | None => inl ErrSettlementNotFound
     | Some s =>
         if negb (String.eqb (s_FromUserID s) userID)
            && negb (String.eqb (s_ToUserID s) userID)
         then inl ErrSettlementNotFound else inr s
     end, st).
Proof.
  unfold GetSettlement, SettlementRepository.GetByID.
  destruct (findOne _ _) as [s|]; [|reflexivity].
  now destruct (_ && _).
Qed.

(** X16: [GetSettlement] returns a settlement only to its two parties.
    For anyone else the answer is the same not-found error as for an id
    that no settlement has, so the call does not tell a third user whether
    the settlement exists; the store is never changed. *)
Theorem GetSettlement_spec (settlementID userID : string) (st : Store) :
  let found :=
    findOne (SettlementRepository.byID settlementID) (st_settlements st) in
  snd (GetSettlement settlementID userID st) = st
  /\ (forall s, fst (GetSettlement settlementID userID st) = inr s
                <-> found = Some s
                    /\ (s_FromUserID s = userID \/ s_ToUserID s = userID))
  /\ (forall s, found = Some s ->
                s_FromUserID s <> userID -> s_ToUserID s <> userID ->
                GetSettlement settlementID userID st
                = (inl ErrSettlementNotFound, st))
  /\ (found = None ->
      GetSettlement settlementID userID st = (inl ErrSettlementNotFound, st)).
Proof.
  intros found. rewrite GetSettlement_cases. fold found. cbn [fst snd].
  split; [reflexivity|].
  destruct found as [s|].
  2:{ split; [|split; [discriminate|reflexivity]].
      intros s. split; [discriminate|]. intros [H _]. discriminate. }
  assert (Hparty : negb (String.eqb (s_FromUserID s) userID)
                   && negb (String.eqb (s_ToUserID s) userID) = false
                   <-> s_FromUserID s = userID \/ s_ToUserID s = userID).
  { rewrite andb_false_iff, !negb_false_iff, !String.eqb_eq. tauto. }
  destruct (_ && _).
  - assert (Hno : ~ (s_FromUserID s = userID \/ s_ToUserID s = userID))
      by (rewrite <- Hparty; discriminate).
    split; [|split; [reflexivity|discriminate]].
    intros s'. split; [discriminate|]. intros (H1 & H2).
    injection H1 as <-. contradiction.
  - destruct Hparty as [Hparty _]. specialize (Hparty eq_refl).
    split; [|split; [|discriminate]].
    + intros s'. split.
      * intros H1. injection H1 as <-. now split.
      * intros (H1 & _). injection H1 as <-. reflexivity.
    + intros s' H1 H2 H3. injection H1 as <-. tauto.
Qed.

(** ** Invariants of the settlement service *)

Lemma sameTerms_refl (s : Settlement) : sameTerms s s.
Proof. unfold sameTerms. tauto. Qed.

Lemma sameTerms_trans (s1 s2 s3 : Settlement) :
  sameTerms s1 s2 -> sameTerms s2 s3 -> sameTerms s1 s3.
Proof. unfold sameTerms. intuition congruence. Qed.

(** The store after an operation of the settlement service: unchanged, or
    with one settlement appended, or with one pending settlement cancelled
    in place, or with one pending settlement completed. *)
Lemma runOp_cases (op : SettlementOp) (st : Store) :
  runOp op st = st
  \/ (exists x, runOp op st = set_settlements (st_settlements st ++ [x]) st)
  \/ (exists now settlementID s before after,
         st_settlements st = before ++ s :: after
         /\ Forall (fun x => SettlementRepository.byID settlementID x = false)
                   before
         /\ SettlementRepository.byID settlementID s = true
         /\ s_Status s = SettlementPending
         /\ runOp op st
            = set_settlements (before ++ cancelled now s :: after) st)
  \/ (exists now settlementID transactionID s before after,
         st_settlements st = before ++ s :: after
         /\ Forall (fun x => SettlementRepository.byID settlementID x = false)
                   before
         /\ SettlementRepository.byID settlementID s = true
         /\ s_Status s = SettlementPending
         /\ runOp op st
            = completedStore now settlementID transactionID s before after st).
Proof.
  destruct op as [newID now req|now id userID tx|now id userID]; cbn [runOp].
  - destruct (CreateSettlement_store newID now req st) as [H|H]; auto.
  - pose proof (CompleteSettlement_cases now id userID tx st) as H.
    destruct (findOne _ _) as [s|] eqn:F; [|left; now rewrite H].
    destruct (negb (String.eqb _ _)); [left; now rewrite H|].
    destruct (negb (status_eqb _ _)) eqn:P; [left; now rewrite H|].
    destruct H as (before & after & Hdocs & Hall & H).
    right. right. right. exists now, id, tx, s, before, after.
    rewrite H. repeat split; try assumption.
    + now destruct (findOne_split _ _ _ F) as (_ & _ & _ & _ & ?).
    + apply negb_false_iff in P. now apply status_eqb_eq.
  - pose proof (CancelSettlement_cases now id userID st) as H.
    destruct (findOne _ _) as [s|] eqn:F; [|left; now rewrite H].
    destruct (_ && _); [left; now rewrite H|].
    destruct (negb (status_eqb _ _)) eqn:P; [left; now rewrite H|].
    destruct H as (before & after & Hdocs & Hall & H).
    right. right. left. exists now, id, s, before, after.
    rewrite H. repeat split; try assumption.
    + now destruct (findOne_split _ _ _ F) as (_ & _ & _ & _ & ?).
    + apply negb_false_iff in P. now apply status_eqb_eq.
Qed.

Lemma find_replace_terms (settlementID updated : string)
    (before after : list Settlement) (s s' x : Settlement) :
  Forall (fun y => SettlementRepository.byID updated y = false) before ->
  SettlementRepository.byID updated s = true ->
  sameTerms s s' ->
  findOne (SettlementRepository.byID settlementID) (before ++ s :: after)
  = Some x ->
  exists x',
    findOne (SettlementRepository.byID settlementID) (before ++ s' :: after)
    = Some x'
    /\ sameTerms x x'.
Proof.
  intros Hall Hs Hterms. unfold findOne. rewrite !find_app.
  destruct (find _ before) as [y|]; [intros [= <-]; eauto using sameTerms_refl|].
  cbn [find]. unfold SettlementRepository.byID.
  destruct (Hterms) as (Hid & _). rewrite Hid.
  destruct (String.eqb (s_SettlementID s) settlementID).
  - intros [= <-]. exists s'. split; [reflexivity|exact Hterms].
  - intros H. eauto using sameTerms_refl.
Qed.

Lemma runOp_terms (op : SettlementOp) (st : Store) (settlementID : string)
    (s : Settlement) :
  findOne (SettlementRepository.byID settlementID) (st_settlements st)
  = Some s ->
  exists s',
    findOne (SettlementRepository.byID settlementID)
            (st_settlements (runOp op st)) = Some s'
    /\ sameTerms s s'.
Proof.
  intros F.
  destruct (runOp_cases op st)
    as [->|[(x & ->)|[(now & id & s0 & before & after & Hdocs & Hall & Hs0
                        & _ & ->)
                     |(now & id & tx & s0 & before & after & Hdocs & Hall
                        & Hs0 & _ & ->)]]].
  - eauto using sameTerms_refl.
  - cbn [st_settlements set_settlements].
    eauto using findOne_snoc_Some, sameTerms_refl.
  - cbn [st_settlements set_settlements]. rewrite Hdocs in F.
    apply (find_replace_terms settlementID id before after s0); auto.
    unfold sameTerms, cancelled. cbn. tauto.
  - unfold completedStore.
    cbn [set_history st_settlements set_settlements snd
         BalanceRepository.UpdateBalance set_balances].
    rewrite Hdocs in F.
    apply (find_replace_terms settlementID id before after s0); auto.
    unfold sameTerms, completed. cbn. tauto.
Qed.

(** X18: the terms of a settlement never change.  Whatever sequence of
    [CreateSettlement], [CompleteSettlement] and [CancelSettlement] calls
    follows, each succeeding or failing, a stored settlement stays
    reachable under its id and keeps its parties, scope, amount, currency,
    method, description and creation time. *)
Theorem settlement_terms_fixed (ops : list SettlementOp) (st : Store)
    (settlementID : string) (s : Settlement) :
  findOne (SettlementRepository.byID settlementID) (st_settlements st)
  = Some s ->
  exists s',
    findOne (SettlementRepository.byID settlementID)
            (st_settlements (foldl (fun st op => runOp op st) st ops))
    = Some s'
    /\ sameTerms s s'.
Proof.
  revert st s. induction ops as [|op ops IH]; intros st s F; cbn [foldl].
  - eauto using sameTerms_refl.
  - destruct (runOp_terms op st settlementID s F) as (s1 & F1 & T1).
    destruct (IH _ _ F1) as (s' & F' & T').
    eauto using sameTerms_trans.
Qed.





Lemma balanceOf_lookup (st st' : Store) (u : string) (g : option string) :
  st_balances st' !! (u, g) = st_balances st !! (u, g) ->
  balanceOf st' u g = balanceOf st u g.
Proof. unfold balanceOf. now intros ->. Qed.

(** X23: expenses are not audited.  [CreateExpense] moves balances and
    appends no history row: starting from a store in which every balance
    equals the sum of its history deltas, the store after a successful
    [CreateExpense] has that property exactly when every net delta of the
    expense is zero. *)
Theorem CreateExpense_reconciled (range : gset string -> list string)
    (newID : string) (now : Z) (expense : Expense) (st st' : Store)
    (created : Expense) :
  CreateExpense range newID now expense st = (inr created, st') ->
  reconciled st ->
  (reconciled st' <-> forall u, netDelta created u == 0).
Proof.
  intros H R.
  destruct (CreateExpense_cases range newID now expense st)
    as [(err & H' & _)|(shares & _ & _ & _ & _ & H')];
    rewrite H' in H; [discriminate|].
  injection H as <- <-.
  set (stored := storedExpense newID now expense shares).
  set (st0 := set_expenses (st_expenses st ++ [stored]) st).
  assert (Hnet : forall u, netDelta (createdExpense newID now expense shares) u
                           = netDelta stored u) by reflexivity.
  assert (Hh : forall u g,
             historySum (applyDeltas now (e_GroupID expense) (deltas stored)
                           st0) u g
             = historySum st u g).
  { intros u g. unfold historySum.
    now destruct (applyDeltas_frame now (e_GroupID expense) (deltas stored)
                    st0) as (-> & _). }
  assert (Hb : forall u,
             balanceOf (applyDeltas now (e_GroupID expense) (deltas stored)
                          st0) u (e_GroupID expense)
             == balanceOf st u (e_GroupID expense) + netDelta stored u).
  { intros u. rewrite balanceOf_applyDeltas. reflexivity. }
  split.
  - intros R' u. rewrite Hnet.
    pose proof (R' u (e_GroupID expense)) as E.
    rewrite Hh, Hb, <- (R u (e_GroupID expense)) in E.
    apply (Qplus_inj_l _ _ (balanceOf st u (e_GroupID expense))).
    rewrite E. ring.
  - intros Hz u g. rewrite Hh.
    destruct (decide (g = e_GroupID expense)) as [->|Hg].
    + rewrite Hb, <- Hnet, Hz, <- (R u (e_GroupID expense)). ring.
    + rewrite (balanceOf_lookup st0 _ u g)
        by now apply applyDeltas_other_scope.
      apply R.
Qed.

(** ** The status writers of the settlement repository *)

Lemma updateByID_found (settlementID : string)
    (update : Settlement -> Settlement) (st : Store) (s : Settlement) :
  (forall x, s_SettlementID (update x) = s_SettlementID x) ->
  findOne (SettlementRepository.byID settlementID) (st_settlements st)
  = Some s ->
  exists st',
    SettlementRepository.updateByID settlementID update st = (inr tt, st')
    /\ findOne (SettlementRepository.byID settlementID) (st_settlements st')
       = Some (update s)
    /\ st_balances st' = st_balances st
    /\ st_history st' = st_history st
    /\ (forall other, other <> settlementID ->
          findOne (SettlementRepository.byID other) (st_settlements st')
          = findOne (SettlementRepository.byID other) (st_settlements st)).
Proof.
  intros Hid F.
  destruct (findOne_split _ _ _ F) as (before & after & Hdocs & Hall & Hs).
  assert (Hupd : updateOne (SettlementRepository.byID settlementID) update
                   (st_settlements st)
                 = Some (before ++ update s :: after)).
  { rewrite Hdocs. now apply updateOne_app. }
  unfold SettlementRepository.updateByID. rewrite Hupd.
  eexists. split; [reflexivity|].
  cbn [st_settlements set_settlements st_balances st_history].
  split; [|split; [reflexivity|split; [reflexivity|]]].
  - rewrite (findOne_app _ before after _ Hall).
    unfold SettlementRepository.byID in *. now rewrite Hid, Hs.
  - intros other Hne.
    apply (findOne_updateOne_other (SettlementRepository.byID settlementID)
             (SettlementRepository.byID other) update _ _); [|exact Hupd].
    intros x Hx. unfold SettlementRepository.byID in *. rewrite Hid.
    apply String.eqb_eq in Hx. rewrite Hx.
    split; apply String.eqb_neq; congruence.
Qed.

(** X19: the status writers of the repository do not look at the current
    status.  [UpdateStatus], [MarkCompleted], [MarkFailed] and
    [MarkCancelled] return the not-found error, and change nothing, exactly
    when no settlement has the id; otherwise they succeed whatever the
    status is (a completed settlement can be marked failed), rewrite the
    status and their own fields of that settlement only, keep its terms,
    and touch no balance and no history row. *)
Theorem status_writers_unguarded (now : Z) (settlementID : string)
    (status : SettlementStatus) (transactionID : option string)
    (reason : string) (st : Store) :
  let found :=
    findOne (SettlementRepository.byID settlementID) (st_settlements st) in
  let writers :=
    [(SettlementRepository.UpdateStatus now settlementID status,
      withStatus now status);
     (SettlementRepository.MarkCompleted now settlementID transactionID,
      completed now transactionID);
     (SettlementRepository.MarkFailed now settlementID reason,
      failed now reason);
     (SettlementRepository.MarkCancelled now settlementID,
      cancelled now)] in
  (forall s, s_Status (withStatus now status s) = status
             /\ s_Status (completed now transactionID s) = SettlementCompleted
             /\ s_Status (failed now reason s) = SettlementFailed
             /\ s_FailureReason (failed now reason s) = Some reason
             /\ s_Status (cancelled now s) = SettlementCancelled)
  /\ forall writer update, (writer, update) ∈ writers ->
       (found = None ->
        writer st = (inl repositories_ErrSettlementNotFound, st))
       /\ (forall s, found = Some s ->
             exists st',
               writer st = (inr tt, st')
               /\ findOne (SettlementRepository.byID settlementID)
                          (st_settlements st') = Some (update s)
               /\ sameTerms s (update s)
               /\ st_balances st' = st_balances st
               /\ st_history st' = st_history st
               /\ (forall other, other <> settlementID ->
                     findOne (SettlementRepository.byID other)
                             (st_settlements st')
                     = findOne (SettlementRepository.byID other)
                               (st_settlements st))).
Proof.
  intros found writers. split; [intros s; repeat split|].
  intros writer update Hin.
  assert (Hshape : writer = SettlementRepository.updateByID settlementID update
                   /\ (forall x, sameTerms x (update x))).
  { subst writers.
    repeat (apply elem_of_cons in Hin; destruct Hin as [Hin|Hin];
            [injection Hin as -> ->; split;
             [reflexivity|intros x; unfold sameTerms; cbn; tauto]|]).
    inversion Hin. }
  destruct Hshape as [-> Hterms]. split.
  - intros Hnone. unfold SettlementRepository.updateByID.
    now rewrite (updateOne_None _ _ _ Hnone).
  - intros s F.
    destruct (updateByID_found settlementID update st s
                (fun x => proj1 (Hterms x)) F)
      as (st' & H1 & H2 & H3 & H4 & H5).
    exists st'. repeat split; try assumption; apply Hterms.
Qed.

(** X20: a created settlement can be read and completed.  After a
    successful [CreateSettlement] under an id that no stored settlement
    has, the settlement is pending, its two users differ and its amount is
    positive; [GetSettlement] returns it to either of them; and
    [CompleteSettlement] by the from-user succeeds, after which the
    balances of the two users in the settlement's scope have moved by
    [+amount] and [-amount]. *)
Theorem CreateSettlement_then_complete (newID : string) (now now' : Z)
    (req : SettlementRequest) (transactionID : option string)
    (st st' : Store) (s : Settlement) :
  CreateSettlement newID now req st = (inr s, st') ->
  findOne (SettlementRepository.byID newID) (st_settlements st) = None ->
  s_Status s = SettlementPending
  /\ s_FromUserID s <> s_ToUserID s
  /\ 0 < s_Amount s
  /\ GetSettlement newID (s_FromUserID s) st' = (inr s, st')
  /\ GetSettlement newID (s_ToUserID s) st' = (inr s, st')
  /\ exists st'',
       CompleteSettlement now' newID (s_FromUserID s) transactionID st'
       = (inr tt, st'')
       /\ balanceOf st'' (s_FromUserID s) (s_GroupID s)
          == balanceOf st (s_FromUserID s) (s_GroupID s) + s_Amount s
       /\ balanceOf st'' (s_ToUserID s) (s_GroupID s)
          == balanceOf st (s_ToUserID s) (s_GroupID s) - s_Amount s.
Proof.
  intros H Hfresh.
  unfold CreateSettlement in H.
  destruct (String.eqb_spec (rq_FromUserID req) (rq_ToUserID req)) as [E|E];
    [discriminate|].
  unfold mbind, M_bind in H.
  destruct (ExistMultiple_pair (rq_FromUserID req) (rq_ToUserID req) st)
    as (missing & Hm & _).
  rewrite Hm in H. destruct missing; [|discriminate].
  destruct (fle (rq_Amount req) 0) eqn:A; [discriminate|].
  apply fle_false in A.
  unfold SettlementRepository.Create in H. injection H as <- <-.
  cbn [s_Status s_FromUserID s_ToUserID s_Amount s_GroupID].
  set (s := mkSettlement newID _ _ _ _ _ _ _ _ _ _ _ _ _ _).
  set (st' := set_settlements (st_settlements st ++ [s]) st).
  assert (F : findOne (SettlementRepository.byID newID) (st_settlements st')
              = Some s).
  { subst st'. cbn [st_settlements set_settlements]. unfold findOne in *.
    rewrite find_app, Hfresh. subst s. cbn [find].
    unfold SettlementRepository.byID. cbn [s_SettlementID].
    now rewrite String.eqb_refl. }
  split; [reflexivity|]. split; [assumption|]. split; [assumption|].
  split; [|split].
  - rewrite GetSettlement_cases, F. subst s. cbn [s_FromUserID s_ToUserID].
    now rewrite String.eqb_refl.
  - rewrite GetSettlement_cases, F. subst s. cbn [s_FromUserID s_ToUserID].
    now rewrite String.eqb_refl, andb_false_r.
  - pose proof (CompleteSettlement_cases now' newID (rq_FromUserID req)
                  transactionID st') as C.
    rewrite F in C. subst s. cbn [s_FromUserID s_Status] in C.
    rewrite String.eqb_refl in C. cbn [negb status_eqb] in C.
    destruct C as (before & after & _ & _ & C).
    eexists. split; [exact C|].
    rewrite !completedStore_balances.
    cbn [s_FromUserID s_ToUserID s_GroupID s_Amount].
    change (balanceOf st' ?u ?g) with (balanceOf st u g).
    split.
    + destruct (decide ((rq_ToUserID req, rq_GroupID req)
                        = (rq_FromUserID req, rq_GroupID req))) as [E'|_];
        [congruence|].
      destruct (decide _); [reflexivity|congruence].
    + destruct (decide ((rq_ToUserID req, rq_GroupID req)
                        = (rq_ToUserID req, rq_GroupID req))); [|congruence].
      destruct (decide _) as [E'|_]; [congruence|reflexivity].
Qed.

(** ** Users and group members *)

Lemma take1_filter_existsb {A : Type} (p : A -> bool) (l : list A) :
  Nat.ltb 0 (length (take 1 (List.filter p l))) = existsb p l.
Proof.
  induction l as [|x rest IH]; [reflexivity|].
  cbn [List.filter existsb]. destruct (p x); [reflexivity|exact IH].
Qed.

(** X26: the two existence checks of the user repository agree.  [Exists]
    answers true exactly when a user document has the id, and
    [ExistMultiple] on that single id then returns no missing id, and
    otherwise returns the id. *)
Theorem Exists_agrees_with_ExistMultiple (userID : string) (st : Store) :
  exists b,
    UserRepository.Exists userID st = (inr b, st)
    /\ (b = true <-> userExists st userID)
    /\ UserRepository.ExistMultiple [userID] st
       = (inr (if b then [] else [userID]), st).
Proof.
  unfold UserRepository.Exists. rewrite take1_filter_existsb.
  eexists. split; [reflexivity|]. split; [symmetry; apply userExists_bool|].
  destruct (ExistMultiple_spec [userID] st) as (missing & Hm & Hspec).
  rewrite Hm. f_equal. f_equal.
  assert (Hshape : missing = [] \/ missing = [userID]).
  { unfold UserRepository.ExistMultiple in Hm. cbn [length Nat.eqb] in Hm.
    injection Hm as <-. cbn [List.filter]. destruct (negb _); auto. }
  destruct (existsb _ _) eqn:E.
  - apply userExists_bool in E. destruct Hshape as [->| ->]; [reflexivity|].
    exfalso. apply (proj1 (Hspec userID)); [left|exact E].
  - destruct Hshape as [->| ->]; [|reflexivity].
    exfalso. apply (proj1 (elem_of_nil userID)). apply Hspec.
    split; [left|]. rewrite userExists_bool, E. discriminate.
Qed.

(** X24: the two membership checks of the group repository agree.
    [IsMember] answers true exactly when some group document with the id
    has an active entry of the user, and [GetNonMembers] on that single
    user then returns no one, and otherwise returns the user. *)
Theorem IsMember_agrees_with_GetNonMembers (groupID userID : string)
    (st : Store) :
  exists b,
    GroupRepository.IsMember groupID userID st = (inr b, st)
    /\ (b = true <-> activeMember st groupID userID)
    /\ GroupRepository.GetNonMembers groupID [userID] st
       = (inr (if b then [] else [userID]), st).
Proof.
  unfold GroupRepository.IsMember. rewrite take1_filter_existsb.
  eexists. split; [reflexivity|]. split; [symmetry; apply activeMember_bool|].
  destruct (GetNonMembers_spec groupID [userID] st) as (nm & Hm & Hspec).
  rewrite Hm. f_equal. f_equal.
  assert (Hshape : nm = [] \/ nm = [userID]).
  { unfold GroupRepository.GetNonMembers in Hm. cbn [length Nat.eqb] in Hm.
    injection Hm as <-. cbn [List.filter]. destruct (negb _); auto. }
  destruct (existsb _ _) eqn:E.
  - apply activeMember_bool in E. destruct Hshape as [->| ->]; [reflexivity|].
    exfalso. apply (proj1 (Hspec userID)); [left|exact E].
  - destruct Hshape as [->| ->]; [|reflexivity].
    exfalso. apply (proj1 (elem_of_nil userID)). apply Hspec.
    split; [left|]. rewrite activeMember_bool, E. discriminate.
Qed.

Lemma existsb_false_forall {A : Type} (p : A -> bool) (l : list A) :
  Forall (fun x => p x = false) l -> existsb p l = false.
Proof.
  induction 1 as [|x rest Hx _ IH]; [reflexivity|].
  cbn [existsb]. now rewrite Hx, IH.
Qed.

Lemma IsMember_unique (groupID userID : string) (st : Store) (grp : Group)
    (before after : list Group) :
  st_groups st = before ++ grp :: after ->
  Forall (fun g => String.eqb (g_GroupID g) groupID = false) before ->
  Forall (fun g => String.eqb (g_GroupID g) groupID = false) after ->
  g_GroupID grp = groupID ->
  GroupRepository.IsMember groupID userID st
  = (inr (GroupRepository.hasActiveMember userID grp), st).
Proof.
  intros Hdocs Hb Ha Hid. unfold GroupRepository.IsMember.
  rewrite take1_filter_existsb, Hdocs, existsb_app. cbn [existsb].
  rewrite !existsb_false_forall.
  - rewrite Hid, String.eqb_refl. cbn [andb orb]. now rewrite orb_false_r.
  - eapply Forall_impl; [exact Ha|]. intros g Hg. cbn beta. now rewrite Hg.
  - eapply Forall_impl; [exact Hb|]. intros g Hg. cbn beta. now rewrite Hg.
Qed.

Lemma deactivateFirst_app (userID : string) (m1 rest : list GroupMember)
    (m : GroupMember) :
  Forall (fun x => String.eqb (gm_UserID x) userID = false) m1 ->
  gm_UserID m = userID ->
  GroupRepository.deactivateFirst userID (m1 ++ m :: rest)
  = m1 ++ mkGroupMember userID false :: rest.
Proof.
  intros H Hm. induction H as [|x l Hx _ IH]; cbn [app GroupRepository.deactivateFirst].
  - now rewrite Hm, String.eqb_refl.
  - now rewrite Hx, IH.
Qed.

Lemma hasActiveMember_app (userID : string) (m1 rest : list GroupMember)
    (m : GroupMember) (gid : string) :
  Forall (fun x => String.eqb (gm_UserID x) userID = false) m1 ->
  gm_UserID m = userID ->
  GroupRepository.hasActiveMember userID (mkGroup gid (m1 ++ m :: rest))
  = gm_IsActive m
    || GroupRepository.hasActiveMember userID (mkGroup gid rest).
Proof.
  intros H Hm. unfold GroupRepository.hasActiveMember. cbn [g_Members].
  rewrite existsb_app. cbn [existsb].
  rewrite existsb_false_forall.
  - now rewrite Hm, String.eqb_refl.
  - eapply Forall_impl; [exact H|]. intros x Hx. cbn beta. now rewrite Hx.
Qed.

(** X25: a member who was removed and added again cannot be removed.
    Take a group whose id no other group document has and a user with
    exactly one entry in its member array.  [RemoveMember] succeeds and the
    user is no longer a member; [AddMember] succeeds and the user is a
    member again, through a second entry; a further [RemoveMember] returns
    nil but changes nothing, because it deactivates the first entry of the
    user, which is inactive already: the user is still a member. *)
Theorem RemoveMember_after_readd (groupID userID : string) (st : Store)
    (before after : list Group) (m1 m2 : list GroupMember)
    (entry added : GroupMember) :
  st_groups st = before ++ mkGroup groupID (m1 ++ entry :: m2) :: after ->
  Forall (fun g => String.eqb (g_GroupID g) groupID = false) before ->
  Forall (fun g => String.eqb (g_GroupID g) groupID = false) after ->
  Forall (fun x => String.eqb (gm_UserID x) userID = false) m1 ->
  Forall (fun x => String.eqb (gm_UserID x) userID = false) m2 ->
  gm_UserID entry = userID ->
  gm_UserID added = userID ->
  exists st1 st2,
    GroupRepository.RemoveMember groupID userID st = (inr tt, st1)
    /\ GroupRepository.IsMember groupID userID st1 = (inr false, st1)
    /\ GroupRepository.AddMember groupID added st1 = (inr tt, st2)
    /\ GroupRepository.IsMember groupID userID st2 = (inr true, st2)
    /\ GroupRepository.RemoveMember groupID userID st2 = (inr tt, st2)
    /\ st_groups st2
       = before
         ++ mkGroup groupID
              (m1 ++ mkGroupMember userID false
                  :: m2 ++ [mkGroupMember userID true])
         :: after.
Proof.
  intros Hdocs Hb Ha H1 H2 He Hadd.
  set (grp1 := mkGroup groupID (m1 ++ mkGroupMember userID false :: m2)).
  set (grp2 := mkGroup groupID
                 (m1 ++ mkGroupMember userID false
                     :: m2 ++ [mkGroupMember userID true])).
  set (st1 := set_groups (before ++ grp1 :: after) st).
  set (st2 := set_groups (before ++ grp2 :: after) st1).
  assert (Hbp : forall (q : Group -> bool),
             Forall (fun g => (String.eqb (g_GroupID g) groupID && q g)
                              = false) before).
  { intros q. eapply Forall_impl; [exact Hb|]. intros g Hg. cbn beta.
    now rewrite Hg. }
  assert (Hex : forall rest : list GroupMember,
             existsb (fun m => String.eqb (gm_UserID m) userID)
                     (m1 ++ mkGroupMember userID false :: rest) = true).
  { intros rest. rewrite existsb_app. cbn [existsb gm_UserID].
    now rewrite String.eqb_refl, orb_true_r. }
  assert (Hno2 : GroupRepository.hasActiveMember userID (mkGroup groupID m2)
                 = false).
  { unfold GroupRepository.hasActiveMember. cbn [g_Members].
    apply existsb_false_forall. eapply Forall_impl; [exact H2|].
    intros x Hx. cbn beta. now rewrite Hx. }
  exists st1, st2.
  split; [|split; [|split; [|split; [|split]]]].
  - unfold GroupRepository.RemoveMember. rewrite Hdocs.
    rewrite (updateOne_app _ _ before after _ (Hbp _)).
    + cbn [g_GroupID g_Members].
      now rewrite (deactivateFirst_app userID m1 m2 entry H1 He).
    + cbn [g_GroupID g_Members]. rewrite String.eqb_refl, existsb_app.
      cbn [existsb]. now rewrite He, String.eqb_refl, orb_true_r.
  - rewrite (IsMember_unique groupID userID st1 grp1 before after
               eq_refl Hb Ha eq_refl).
    subst grp1.
    rewrite (hasActiveMember_app userID m1 m2 (mkGroupMember userID false)
               groupID H1 eq_refl).
    cbn [gm_IsActive orb]. now rewrite Hno2.
  - unfold GroupRepository.AddMember.
    rewrite (IsMember_unique groupID (gm_UserID added) st1 grp1 before after
               eq_refl Hb Ha eq_refl).
    rewrite Hadd. subst grp1.
    rewrite (hasActiveMember_app userID m1 m2 (mkGroupMember userID false)
               groupID H1 eq_refl).
    cbn [gm_IsActive orb]. rewrite Hno2.
    cbn [st_groups st1 set_groups].
    rewrite (updateOne_app _ _ before after _ Hb)
      by (cbn [g_GroupID]; apply String.eqb_refl).
    cbn [g_GroupID g_Members]. rewrite <- app_assoc. reflexivity.
  - rewrite (IsMember_unique groupID userID st2 grp2 before after
               eq_refl Hb Ha eq_refl).
    subst grp2.
    rewrite (hasActiveMember_app userID m1 _ (mkGroupMember userID false)
               groupID H1 eq_refl).
    cbn [gm_IsActive orb].
    unfold GroupRepository.hasActiveMember. cbn [g_Members].
    rewrite existsb_app. cbn [existsb gm_UserID gm_IsActive].
    now rewrite String.eqb_refl, orb_true_r.
  - unfold GroupRepository.RemoveMember. cbn [st_groups st2 set_groups].
    rewrite (updateOne_app _ _ before after grp2 (Hbp _)).
    + subst grp2. cbn [g_GroupID g_Members].
      rewrite (deactivateFirst_app userID m1 _ (mkGroupMember userID false)
                 H1 eq_refl).
      reflexivity.
    + subst grp2. cbn [g_GroupID g_Members].
      now rewrite String.eqb_refl, Hex.
  - reflexivity.
Qed.

(** ** The further properties at concrete inputs *)


Lemma calculateShares_after_validation_witness :
  exists shares, calculateShares elements expense90 = inr shares.
Proof.
  apply (calculateShares_after_validation elements expense90 eq_refl).
  reflexivity.
Defined.

Lemma UpdateBalanceWithVersion_detects_write_witness :
  let copy := mkBalance "A" None 25 "USD" 1 5 in
  let st1 := snd (BalanceRepository.UpdateBalance 8 "A" None 3 storeA) in
  snd (BalanceRepository.UpdateBalanceWithVersion 9 copy) st1
  = (inl ErrOptimisticLockFailure, st1)
  /\ balanceOf st1 "A" None == 10 + 3.
Proof.
  destruct (UpdateBalanceWithVersion_detects_write 7 8 9 "A" None storeA
              balanceA 25 3 eq_refl eq_refl eq_refl) as (_ & H1 & H2).
  split; [exact H1|exact H2].
Defined.

Lemma UpdateBalanceWithVersion_chain_witness :
  snd (BalanceRepository.UpdateBalanceWithVersion 9 balanceA)
      (snd (snd (BalanceRepository.UpdateBalanceWithVersion 8 balanceA)
              storeA))
  = (inl ErrOptimisticLockFailure,
     snd (snd (BalanceRepository.UpdateBalanceWithVersion 8 balanceA) storeA)).
Proof.
  destruct (UpdateBalanceWithVersion_chain 8 9 balanceA storeA
              (snd (snd (BalanceRepository.UpdateBalanceWithVersion 8 balanceA)
                      storeA)) 0 eq_refl) as (_ & H).
  exact H.
Defined.

Lemma netDelta_single_payer_witness :
  netDelta resolved90 "A" == 90 - 30 + (sumValues (sd_Details (e_Split resolved90)) - 30)
  /\ netDelta resolved90 "B" == - 30.
Proof.
  assert (Hnd : NoDup (map ss_UserID (sd_Details (e_Split resolved90)))).
  { apply NoDup_ListNoDup. repeat constructor; cbn; intuition discriminate. }
  assert (Hpos : Forall (fun share => 0 < ss_Value share)
                        (sd_Details (e_Split resolved90))).
  { repeat apply List.Forall_cons; try apply List.Forall_nil; reflexivity. }
  destruct (netDelta_single_payer resolved90 (mkPaidBy "A" 90) eq_refl Hnd
              Hpos) as (Hother & _ & Hown).
  split.
  - apply (Hown (mkSplitShare "A" 30)); [left|reflexivity].
  - apply (Hother (mkSplitShare "B" 30)); [right; left|discriminate].
Defined.

Lemma CreateExpense_referential_witness : userExists storeABC "B".
Proof.
  destruct (CreateExpense_referential elements elements_perm "e1" 7 expense90
              storeABC) as (H & _).
  assert (E : CreateExpense elements "e1" 7 expense90 storeABC
              = (inr (createdExpense "e1" 7 expense90 shares90), store90))
    by (vm_compute; reflexivity).
  apply (H (createdExpense "e1" 7 expense90 shares90) store90 E "B"%string).
  right. right. apply list_elem_of_In. cbn. auto.
Defined.

Lemma CreateExpense_then_GetExpense_witness :
  GetExpense "e1" "C" store90
  = (inr (storedExpense "e1" 7 expense90 shares90), store90)
  /\ GetExpense "e1" "Z" store90 = (inl ErrNoAccess, store90).
Proof.
  assert (E : CreateExpense elements "e1" 7 expense90 storeABC
              = (inr (createdExpense "e1" 7 expense90 shares90), store90))
    by (vm_compute; reflexivity).
  destruct (CreateExpense_then_GetExpense elements "e1" 7 expense90 storeABC
              store90 (createdExpense "e1" 7 expense90 shares90) E)
    as (Hyes & Hno & _).
  - intros x Hx. inversion Hx.
  - split.
    + apply Hyes. right. right. apply list_elem_of_In. vm_compute. auto.
    + apply Hno. intros [H|[H|H]].
      * discriminate H.
      * apply list_elem_of_In in H. vm_compute in H. intuition discriminate.
      * apply list_elem_of_In in H. vm_compute in H. intuition discriminate.
Defined.

Lemma CreateExpense_reconciled_witness : ~ reconciled store90.
Proof.
  assert (R : reconciled storeABC) by (intros u g; reflexivity).
  assert (E : CreateExpense elements "e1" 7 expense90 storeABC
              = (inr (createdExpense "e1" 7 expense90 shares90), store90))
    by (vm_compute; reflexivity).
  intros H.
  pose proof (proj1 (CreateExpense_reconciled elements "e1" 7 expense90
                       storeABC store90
                       (createdExpense "e1" 7 expense90 shares90) E R) H
                    "B"%string) as HB.
  vm_compute in HB. discriminate HB.
Defined.


Lemma settlement_terms_fixed_witness :
  exists s',
    findOne (SettlementRepository.byID "s1")
      (st_settlements
         (foldl (fun st op => runOp op st) storeXY
            [OpComplete 7 "s1" "X" None; OpCancel 8 "s1" "Y"])) = Some s'
    /\ sameTerms settlement50 s'.
Proof.
  apply (settlement_terms_fixed _ storeXY "s1" settlement50). reflexivity.
Defined.

Lemma CreateSettlement_then_complete_witness :
  let req := mkSettlementRequest "A" "B" None 20 "USD" "cash" "" in
  let created := CreateSettlement "s9" 7 req storeABC in
  exists s st' st'',
    created = (inr s, st')
    /\ GetSettlement "s9" "B" st' = (inr s, st')
    /\ CompleteSettlement 8 "s9" "A" None st' = (inr tt, st'')
    /\ balanceOf st'' "A" None == balanceOf storeABC "A" None + 20.
Proof.
  intros req created.
  destruct (CreateSettlement_then_complete "s9" 7 8 req None storeABC
              (snd created)
              (mkSettlement "s9" "A" "B" None 20 "USD" SettlementPending
                 "cash" "" None 7 7 None None None) eq_refl eq_refl)
    as (_ & _ & _ & _ & Hget & st'' & Hc & Hb & _).
  exists (mkSettlement "s9" "A" "B" None 20 "USD" SettlementPending
            "cash" "" None 7 7 None None None), (snd created), st''.
  split; [reflexivity|].
  split; [exact Hget|]. split; [exact Hc|exact Hb].
Defined.

Lemma SoftDelete_effect_witness :
  exists st',
    ExpenseRepository.SoftDelete 9 "e1" store90 = (inr tt, st')
    /\ GetExpense "e1" "A" st' = (inl ErrExpenseNotFound, st')
    /\ st_balances st' = st_balances store90.
Proof.
  assert (F : findOne (fun x => String.eqb (e_ExpenseID x) "e1")
                      (st_expenses store90)
              = Some (storedExpense "e1" 7 expense90 shares90))
    by (vm_compute; reflexivity).
  assert (Hnd : NoDup (map e_ExpenseID (st_expenses store90))).
  { replace (map e_ExpenseID (st_expenses store90)) with ["e1"%string]
      by (vm_compute; reflexivity).
    apply NoDup_ListNoDup. repeat constructor. cbn. tauto. }
  destruct (SoftDelete_effect 9 10 "e1" store90
              (storedExpense "e1" 7 expense90 shares90) F Hnd)
    as (st' & H1 & H2 & H3 & _).
  exists st'. split; [exact H1|]. split; [apply H2|exact H3].
Defined.

Lemma RemoveMember_after_readd_witness :
  exists st1 st2,
    GroupRepository.RemoveMember "g1" "B" storeG = (inr tt, st1)
    /\ GroupRepository.AddMember "g1" (mkGroupMember "B" false) st1
       = (inr tt, st2)
    /\ GroupRepository.RemoveMember "g1" "B" st2 = (inr tt, st2)
    /\ GroupRepository.IsMember "g1" "B" st2 = (inr true, st2).
Proof.
  destruct (RemoveMember_after_readd "g1" "B" storeG [] []
              [mkGroupMember "A" true] [] (mkGroupMember "B" true)
              (mkGroupMember "B" false) eq_refl)
    as (st1 & st2 & H1 & _ & H2 & H3 & H4 & _);
    try reflexivity;
    try (repeat apply List.Forall_cons; try apply List.Forall_nil;
         reflexivity).
  exists st1, st2. repeat split; assumption.
Defined.

(** * Properties of the expense path over binary64 *)

Import Binary64.

#[local] Set Warnings "-inexact-float".
Local Open Scope float_scope.

(** ** The tests of the source on numbers *)

(** For a number, a failing test [x <= 0] means [x > 0]. *)
Lemma positive_number (x : float) :
  is_nan x = false -> positive x <-> (0 <? x) = true.
Proof.
  unfold positive, is_nan.
  rewrite FloatAxioms.eqb_spec, FloatAxioms.leb_spec, FloatAxioms.ltb_spec.
  change (Prim2SF 0) with (S754_zero false).
  unfold SFeqb, SFleb, SFltb.
  destruct (Prim2SF x) as [s|s| |s m e]; cbn.
  - intros _. split; discriminate.
  - destruct s; intros _; split; congruence.
  - discriminate.
  - destruct s; intros _; split; congruence.
Qed.

(** NaN passes the test: it is not [<= 0]. *)
Lemma positive_nan : positive nan.
Proof. reflexivity. Qed.

(** ** Structural validation of an expense *)







(** ** The validation loops of the resolvers *)

Lemma sumPercentage_total (details : list SplitShare) :
  forall acc total : float,
    sumPercentage details acc = inr total
    <-> Forall validPercentage details
        /\ total = foldl (fun t share => t + ss_Value share) acc details.
Proof.
  induction details as [|s rest IH]; intros acc total; simpl.
  - split; [intros [= <-]; split; [constructor|reflexivity]|].
    intros [_ ->]. reflexivity.
  - destruct (fle (ss_Value s) 0) eqn:E1; simpl.
    { split; [discriminate|]. intros [H _].
      inversion H as [|? ? [Hpos _] _]; subst. unfold positive in Hpos.
      unfold fle in E1. congruence. }
    destruct (fgt (ss_Value s) 100) eqn:E2.
    { split; [discriminate|]. intros [H _].
      inversion H as [|? ? [_ Hle] _]; subst. unfold fgt in E2.
      congruence. }
    rewrite IH. split.
    + intros [H ->]. split; [constructor; [split|]; assumption|reflexivity].
    + intros [H ->]. inversion H; subst. split; [assumption|reflexivity].
Qed.

Lemma sumPercentage_error (details : list SplitShare) :
  forall (acc : float) (err : error),
    sumPercentage details acc = inl err -> is_ValidationError err = true.
Proof.
  induction details as [|s rest IH]; intros acc err; simpl; [discriminate|].
  destruct (_ || _); [intros [= <-]; reflexivity|]. apply IH.
Qed.

Lemma sumExact_total (details : list SplitShare) :
  forall acc total : float,
    sumExact details acc = inr total
    <-> Forall (fun share => positive (ss_Value share)) details
        /\ total = foldl (fun t share => t + ss_Value share) acc details.
Proof.
  induction details as [|s rest IH]; intros acc total; simpl.
  - split; [intros [= <-]; split; [constructor|reflexivity]|].
    intros [_ ->]. reflexivity.
  - destruct (fle (ss_Value s) 0) eqn:E.
    { split; [discriminate|]. intros [H _].
      inversion H as [|? ? Hpos _]; subst. unfold positive in Hpos.
      unfold fle in E. congruence. }
    rewrite IH. split.
    + intros [H ->]. split; [constructor; assumption|reflexivity].
    + intros [H ->]. inversion H; subst. split; [assumption|reflexivity].
Qed.

Lemma sumExact_error (details : list SplitShare) :
  forall (acc : float) (err : error),
    sumExact details acc = inl err -> is_ValidationError err = true.
Proof.
  induction details as [|s rest IH]; intros acc err; simpl; [discriminate|].
  destruct (fle _ _); [intros [= <-]; reflexivity|]. apply IH.
Qed.

Lemma sumShareCounts_total (details : list SplitShare) :
  forall acc total : float,
    sumShareCounts details acc = inr total
    <-> Forall (fun share => positive (ss_Value share)) details
        /\ total = foldl (fun t share => t + ss_Value share) acc details.
Proof.
  induction details as [|s rest IH]; intros acc total; simpl.
  - split; [intros [= <-]; split; [constructor|reflexivity]|].
    intros [_ ->]. reflexivity.
  - destruct (fle (ss_Value s) 0) eqn:E.
    { split; [discriminate|]. intros [H _].
      inversion H as [|? ? Hpos _]; subst. unfold positive in Hpos.
      unfold fle in E. congruence. }
    rewrite IH. split.
    + intros [H ->]. split; [constructor; assumption|reflexivity].
    + intros [H ->]. inversion H; subst. split; [assumption|reflexivity].
Qed.

Lemma sumShareCounts_error (details : list SplitShare) :
  forall (acc : float) (err : error),
    sumShareCounts details acc = inl err -> is_ValidationError err = true.
Proof.
  induction details as [|s rest IH]; intros acc err; simpl; [discriminate|].
  destruct (fle _ _); [intros [= <-]; reflexivity|]. apply IH.
Qed.

Lemma map_rebuild_share (details : list SplitShare) :
  map (fun share => mkSplitShare (ss_UserID share) (ss_Value share)) details
  = details.
Proof.
  induction details as [|[u v] rest IH]; [reflexivity|].
  simpl. now rewrite IH.
Qed.

(** The entries that the second loop of the percentage and the share-based
    resolver computes: the entry at the last index of the input is the
    amount minus the running sum of the entries before it. *)
Lemma resolveLoop_lookup (divisor amount : float) (n : nat) :
  forall (details : list SplitShare) (i : nat) (totalCalculated : float),
    length (resolveLoop divisor amount n i details totalCalculated)
    = length details
    /\ forall (j : nat) (share : SplitShare),
        details !! j = Some share ->
        resolveLoop divisor amount n i details totalCalculated !! j
        = Some (mkSplitShare (ss_UserID share)
                  (if (i + j =? n - 1)%nat
                   then amount
                        - foldl (fun t s => t + ss_Value s) totalCalculated
                            (take j (resolveLoop divisor amount n i details
                                       totalCalculated))
                   else ss_Value share / divisor * amount)).
Proof.
  induction details as [|s rest IH]; intros i total.
  - split; [reflexivity|]. intros j share H. discriminate.
  - cbn [resolveLoop].
    destruct (IH (S i)
                (total + (if (i =? n - 1)%nat then amount - total
                          else ss_Value s / divisor * amount))) as [IHl IHk].
    split; [cbn [length]; now rewrite IHl|].
    intros [|j] share H.
    + injection H as <-. cbn [lookup list_lookup take foldl].
      rewrite Nat.add_0_r. now destruct (i =? n - 1)%nat.
    + cbn [lookup list_lookup] in H |- *. change (rest !! j = Some share) in H.
      cbn [take foldl ss_Value].
      replace (i + S j)%nat with (S i + j)%nat by lia.
      now apply IHk.
Qed.

Lemma resolveLoop_entries (divisor amount : float)
    (details shares : list SplitShare) :
  shares = resolveLoop divisor amount (length details) 0 details 0 ->
  length shares = length details
  /\ (forall (i : nat) (share : SplitShare),
        details !! i = Some share -> (S i < length details)%nat ->
        shares !! i
        = Some (mkSplitShare (ss_UserID share)
                  (ss_Value share / divisor * amount)))
  /\ (forall share : SplitShare,
        details !! (length details - 1)%nat = Some share ->
        shares !! (length details - 1)%nat
        = Some (mkSplitShare (ss_UserID share)
                  (amount - sumValues (take (length details - 1) shares)))).
Proof.
  intros ->.
  destruct (resolveLoop_lookup divisor amount (length details) details 0%nat 0)
    as [Hlen Hk].
  split; [exact Hlen|split].
  - intros i share Hi Hlt. rewrite (Hk i share Hi). cbn [Nat.add].
    replace (i =? length details - 1)%nat with false
      by (symmetry; apply Nat.eqb_neq; lia).
    reflexivity.
  - intros share Hlast. rewrite (Hk _ share Hlast). cbn [Nat.add].
    now rewrite Nat.eqb_refl.
Qed.

(** ** Percentage split *)

(** C6: a percentage split fails on an empty list, on a value that is
    [<= 0] or [> 100], and on a running total that is more than 0.01 away
    from 100 (in particular on the totals 99 and 101), always with a
    validation error; otherwise it resolves, every entry but the last to
    [value / 100 * amount] and the last one to the amount minus the
    running sum of the shares before it.  Sums, quotients, products and
    comparisons are the binary64 ones of the code. *)
Theorem calculatePercentageShares_spec (expense : Expense) :
  let details := sd_Details (e_Split expense) in
  let amount := e_Amount expense in
  let result := calculatePercentageShares expense in
  (details = [] -> result = inl ErrPercentageNoDetails)
  /\ ((exists shares, result = inr shares)
      <-> details <> [] /\ Forall validPercentage details
          /\ within001 (sumValues details) 100)
  /\ (forall err, result = inl err -> is_ValidationError err = true)
  /\ (sumValues details = 99 \/ sumValues details = 101 ->
      exists err, result = inl err /\ is_ValidationError err = true)
  /\ (forall shares, result = inr shares ->
      length shares = length details
      /\ (forall (i : nat) (share : SplitShare),
            details !! i = Some share -> (S i < length details)%nat ->
            shares !! i
            = Some (mkSplitShare (ss_UserID share)
                      (ss_Value share / 100 * amount)))
      /\ (forall share : SplitShare,
            details !! (length details - 1)%nat = Some share ->
            shares !! (length details - 1)%nat
            = Some (mkSplitShare (ss_UserID share)
                      (amount
                       - sumValues (take (length details - 1) shares))))).
Proof.
  intros details amount result.
  assert (Hiff : (exists shares, result = inr shares)
                 <-> details <> [] /\ Forall validPercentage details
                     /\ within001 (sumValues details) 100).
  { unfold result, calculatePercentageShares, within001. fold details.
    destruct details as [|s rest] eqn:D.
    { simpl. split; [intros [? ?]; discriminate|]. intros [H _]. congruence. }
    rewrite <- D. replace (length details =? 0)%nat with false
      by (rewrite D; reflexivity).
    destruct (sumPercentage details 0) as [err|total] eqn:S.
    { split; [intros [? ?]; discriminate|]. intros (_ & Hall & _).
      assert (H : sumPercentage details 0 = inr (sumValues details))
        by (apply sumPercentage_total; split; [assumption|reflexivity]).
      congruence. }
    apply sumPercentage_total in S. destruct S as [Hall ->].
    change (foldl _ 0 details) with (sumValues details).
    destruct (fgt _ _) eqn:G; unfold fgt in G.
    - split; [intros [? ?]; discriminate|].
      intros (_ & _ & Hle). congruence.
    - split; [|eauto].
      intros _. split; [rewrite D; discriminate|]. split; [exact Hall|].
      exact G. }
  assert (Herr : forall err, result = inl err -> is_ValidationError err = true).
  { unfold result, calculatePercentageShares. fold details. intros err.
    destruct (length details =? 0)%nat; [intros [= <-]; reflexivity|].
    destruct (sumPercentage details 0) as [err'|total] eqn:S.
    { intros [= <-]. eapply sumPercentage_error; eauto. }
    destruct (fgt _ _); [intros [= <-]; reflexivity|discriminate]. }
  split; [|split; [exact Hiff|split; [exact Herr|split]]].
  - intros D. unfold result, calculatePercentageShares. fold details.
    now rewrite D.
  - intros Hsum. destruct result as [err|shares] eqn:R; [eauto|].
    exfalso. destruct Hiff as [Hiff _].
    destruct Hiff as (_ & _ & Hle); [eauto|].
    unfold within001 in Hle.
    destruct Hsum as [E|E]; rewrite E in Hle; vm_compute in Hle;
      discriminate Hle.
  - intros shares. unfold result, calculatePercentageShares. fold details.
    fold amount.
    destruct (length details =? 0)%nat eqn:L; [discriminate|].
    destruct (sumPercentage details 0) as [|total]; [discriminate|].
    destruct (fgt _ _); [discriminate|]. intros [= <-].
    now apply resolveLoop_entries.
Qed.

(** ** Exact and share-based splits *)

(** X1: [calculateExactShares] resolves exactly when the list is not
    empty, no value is [<= 0] and the running binary64 sum of the values
    is not more than 0.01 away from the amount; the shares are then the
    entries themselves; it fails only with validation errors.  At the
    edge of the tolerance the binary64 sum decides: ten values that make
    100.01 in decimal are refused for an amount of 100. *)
Theorem calculateExactShares_spec (expense : Expense) :
  let details := sd_Details (e_Split expense) in
  let result := calculateExactShares expense in
  (details = [] -> result = inl ErrExactNoDetails)
  /\ ((exists shares, result = inr shares)
      <-> details <> []
          /\ Forall (fun share => positive (ss_Value share)) details
          /\ within001 (sumValues details) (e_Amount expense))
  /\ (forall shares, result = inr shares -> shares = details)
  /\ (forall err, result = inl err -> is_ValidationError err = true)
  /\ (e_Amount expense = 100 ->
      map ss_Value details = [10; 10; 10; 10; 10; 10; 10; 10; 10; 10.01] ->
      result = inl (ErrExactTotalMismatch 100.01 100)).
Proof.
  intros details result.
  unfold result, calculateExactShares, within001. fold details.
  split; [intros ->; reflexivity|].
  destruct details as [|s rest] eqn:D.
  { simpl. split; [|split; [discriminate|split]].
    - split; [intros [? ?]; discriminate|]. intros [H _]. congruence.
    - intros err [= <-]. reflexivity.
    - intros _ H. discriminate H. }
  rewrite <- D. replace (length details =? 0)%nat with false
    by (rewrite D; reflexivity).
  destruct (sumExact details 0) as [err|total] eqn:S.
  { split; [|split; [discriminate|split]].
    - split; [intros [? ?]; discriminate|]. intros (_ & Hall & _).
      assert (H : sumExact details 0 = inr (sumValues details))
        by (apply sumExact_total; split; [assumption|reflexivity]).
      congruence.
    - intros err' [= <-]. eapply sumExact_error; eauto.
    - intros _ Hv. exfalso.
      assert (H : sumExact details 0 = inr (sumValues details)).
      { apply sumExact_total. split; [|reflexivity].
        apply Forall_forall. intros share Hin.
        assert (Hin' : ss_Value share ∈ map ss_Value details)
          by (apply list_elem_of_fmap; eauto).
        rewrite Hv in Hin'. unfold positive.
        repeat (apply elem_of_cons in Hin' as [->|Hin']; [reflexivity|]).
        now apply elem_of_nil in Hin'. }
      congruence. }
  apply sumExact_total in S. destruct S as [Hall ->].
  change (foldl _ 0 details) with (sumValues details).
  assert (Hsum : sumValues details = foldl Floats.PrimFloat.add 0
                                           (map ss_Value details)).
  { unfold sumValues. generalize 0. clear.
    induction details as [|x l IH]; intros a; [reflexivity|]. apply IH. }
  destruct (fgt _ _) eqn:G; unfold fgt in G.
  - split; [|split; [discriminate|split]].
    + split; [intros [? ?]; discriminate|]. intros (_ & _ & Hle). congruence.
    + intros err [= <-]. reflexivity.
    + intros Ha Hv. rewrite Ha, Hsum, Hv. reflexivity.
  - split; [|split; [|split]].
    + split; [|eauto]. intros _.
      split; [rewrite D; discriminate|]. split; [exact Hall|exact G].
    + intros shares [= <-]. apply map_rebuild_share.
    + discriminate.
    + intros Ha Hv. exfalso.
      rewrite Ha, Hsum, Hv in G. vm_compute in G. discriminate G.
Qed.

(** X2: [calculateShareBased] resolves exactly when the list is not empty,
    no weight is [<= 0] and the running binary64 total of the weights is
    not [== 0]; every failure is a validation error; every entry but the
    last resolves to [weight / total * amount] and the last one to the
    amount minus the running sum of the shares before it.  The total can
    overflow: two weights of 1e308 make it infinite, and 100.00 is then
    split into 0 and 100. *)
Theorem calculateShareBased_spec (expense : Expense) :
  let details := sd_Details (e_Split expense) in
  let amount := e_Amount expense in
  let result := calculateShareBased expense in
  (details = [] -> result = inl ErrSharesNoDetails)
  /\ ((exists shares, result = inr shares)
      <-> details <> []
          /\ Forall (fun share => positive (ss_Value share)) details
          /\ (sumValues details =? 0) = false)
  /\ (forall err, result = inl err -> is_ValidationError err = true)
  /\ (forall shares, result = inr shares ->
      length shares = length details
      /\ (forall (i : nat) (share : SplitShare),
            details !! i = Some share -> (S i < length details)%nat ->
            shares !! i
            = Some (mkSplitShare (ss_UserID share)
                      (ss_Value share / sumValues details * amount)))
      /\ (forall share : SplitShare,
            details !! (length details - 1)%nat = Some share ->
            shares !! (length details - 1)%nat
            = Some (mkSplitShare (ss_UserID share)
                      (amount
                       - sumValues (take (length details - 1) shares)))))
  /\ (amount = 100 -> map ss_Value details = [1e308; 1e308] ->
      exists shares,
        result = inr shares /\ map ss_Value shares = [0; 100]).
Proof.
  intros details amount result.
  unfold result, calculateShareBased. fold details. fold amount.
  split; [intros ->; reflexivity|].
  destruct details as [|s rest] eqn:D.
  { simpl. split; [|split; [|split; [discriminate|]]].
    - split; [intros [? ?]; discriminate|]. intros [H _]. congruence.
    - intros err [= <-]. reflexivity.
    - intros _ H. discriminate H. }
  rewrite <- D. replace (length details =? 0)%nat with false
    by (rewrite D; reflexivity).
  destruct (sumShareCounts details 0) as [err|total] eqn:S.
  { split; [|split; [|split; [discriminate|]]].
    - split; [intros [? ?]; discriminate|]. intros (_ & Hall & _).
      assert (H : sumShareCounts details 0 = inr (sumValues details))
        by (apply sumShareCounts_total; split; [assumption|reflexivity]).
      congruence.
    - intros err' [= <-]. eapply sumShareCounts_error; eauto.
    - intros _ Hv. exfalso.
      assert (H : sumShareCounts details 0 = inr (sumValues details)).
      { apply sumShareCounts_total. split; [|reflexivity].
        apply Forall_forall. intros share Hin.
        assert (Hin' : ss_Value share ∈ map ss_Value details)
          by (apply list_elem_of_fmap; eauto).
        rewrite Hv in Hin'. unfold positive.
        repeat (apply elem_of_cons in Hin' as [->|Hin']; [reflexivity|]).
        now apply elem_of_nil in Hin'. }
      congruence. }
  apply sumShareCounts_total in S. destruct S as [Hall ->].
  change (foldl _ 0 details) with (sumValues details).
  destruct (feq _ _) eqn:G; unfold feq in G.
  - split; [|split; [|split; [discriminate|]]].
    + split; [intros [? ?]; discriminate|]. intros (_ & _ & Hz). congruence.
    + intros err [= <-]. reflexivity.
    + intros _ Hv. exfalso.
      assert (Hsum : sumValues details
                     = foldl PrimFloat.add 0 (map ss_Value details)).
      { unfold sumValues. generalize 0. clear.
        induction details as [|x l IH]; intros a; [reflexivity|]. apply IH. }
      rewrite Hsum, Hv in G. vm_compute in G. discriminate G.
  - split; [|split; [discriminate|split]].
    + split; [|eauto]. intros _.
      split; [rewrite D; discriminate|]. split; [exact Hall|exact G].
    + intros shares [= <-]. now apply resolveLoop_entries.
    + intros Ha Hv. eexists. split; [reflexivity|].
      assert (Hsum : sumValues details
                     = foldl PrimFloat.add 0 (map ss_Value details)).
      { unfold sumValues. generalize 0. clear.
        induction details as [|x l IH]; intros a; [reflexivity|]. apply IH. }
      rewrite Hsum, Hv, Ha. clear -Hv.
      destruct details as [|[u1 v1] [|[u2 v2] [|? ?]]]; try discriminate Hv.
      cbn in Hv. injection Hv as -> ->. vm_compute. reflexivity.
Qed.

(** ** Equal split *)

Lemma participants_union (expense : Expense) :
  participantsOf expense
  = list_to_set (map pb_UserID (e_PaidBy expense))
    ∪ list_to_set (map ss_UserID (sd_Details (e_Split expense))).
Proof.
  unfold participantsOf. rewrite !foldl_collect.
  apply set_eq. intros u. set_unfold. tauto.
Qed.

Lemma sumValues_values (shares : list SplitShare) :
  sumValues shares = foldl PrimFloat.add 0 (map ss_Value shares).
Proof.
  unfold sumValues. generalize 0.
  induction shares as [|x l IH]; intros a; [reflexivity|]. apply IH.
Qed.

Lemma sumExactly_values (shares : list SplitShare) :
  sumExactly shares
  = foldr (fun v total => (toQ v + total)%Q) 0%Q (map ss_Value shares).
Proof.
  unfold sumExactly. induction shares as [|x l IH]; [reflexivity|].
  cbn. now rewrite IH.
Qed.

(** The values of the shares of an equal split whose remainder [diff]
    leaves the first share as it is. *)
Lemma equal_values (diff equalShare : float) (users : list string) :
  equalShare + diff = equalShare ->
  map ss_Value
      (adjustFirst diff (map (fun u => mkSplitShare u equalShare) users))
  = replicate (length users) equalShare.
Proof.
  intros H. destruct users as [|u rest]; [reflexivity|].
  cbn. rewrite H. f_equal.
  induction rest as [|x l IH]; [reflexivity|]. cbn. now rewrite IH.
Qed.

Section EqualSplit.

Variable range : gset string -> list string.
Hypothesis range_perm : forall m : gset string, range m ≡ₚ elements m.

Lemma range_size (m : gset string) : length (range m) = size m.
Proof. now rewrite (range_perm m). Qed.

Lemma range_distinct (m : gset string) : NoDup (range m).
Proof. rewrite (range_perm m). apply NoDup_elements. Qed.

Lemma range_visits (m : gset string) (u : string) : u ∈ range m <-> u ∈ m.
Proof. rewrite (range_perm m). apply elem_of_elements. Qed.

(** C5: an equal split is taken over the union of the payer ids and the
    split-detail ids, each id once; with no participant it fails;
    otherwise every participant gets [amount / N] and the first one
    visited gets in addition [amount - (amount / N) * N], all computed in
    binary64.  That remainder does not make the shares sum to the amount:
    for 100.00 among seven users it is computed as 0, every share is
    14.285714285714286, and the shares sum to 100.00000000000001 when
    added in binary64 and to more than 100 as rational numbers.  For
    90.00 among three users the shares are 30 each. *)
Theorem calculateEqualShares_spec (expense : Expense) :
  let participants := participantsOf expense in
  let N := size participants in
  let amount := e_Amount expense in
  let equalShare := amount / float64_of_nat N in
  participants
  = list_to_set (map pb_UserID (e_PaidBy expense))
    ∪ list_to_set (map ss_UserID (sd_Details (e_Split expense)))
  /\ (N = 0%nat ->
      calculateEqualShares range expense = inl ErrNoParticipants)
  /\ (N <> 0%nat ->
      exists (first : string) (others : list string),
        range participants = first :: others
        /\ NoDup (first :: others)
        /\ (forall u, u ∈ first :: others <-> u ∈ participants)
        /\ length (first :: others) = N
        /\ calculateEqualShares range expense
           = inr (mkSplitShare first
                    (equalShare + (amount - equalShare * float64_of_nat N))
                  :: map (fun u => mkSplitShare u equalShare) others))
  /\ (exists shares,
        calculateEqualShares range expense100 = inr shares
        /\ map ss_Value shares = replicate 7 14.285714285714286
        /\ sumValues shares = 100.00000000000001
        /\ sumValues shares <> e_Amount expense100
        /\ (toQ (e_Amount expense100) < sumExactly shares)%Q)
  /\ (exists shares,
        calculateEqualShares range expense90 = inr shares
        /\ map ss_Value shares = [30; 30; 30]).
Proof.
  intros participants N amount equalShare.
  split; [apply participants_union|]. split; [|split; [|split]].
  - intros HN. unfold calculateEqualShares. fold participants. fold N.
    now rewrite HN.
  - intros HN.
    assert (Hcalc : calculateEqualShares range expense
                    = inr (adjustFirst (amount - equalShare * float64_of_nat N)
                             (map (fun u => mkSplitShare u equalShare)
                                  (range participants)))).
    { unfold calculateEqualShares. fold participants. fold N.
      apply Nat.eqb_neq in HN. now rewrite HN. }
    pose proof (range_size participants) as Hlen.
    pose proof (range_distinct participants) as Hnd.
    pose proof (range_visits participants) as Hin.
    destruct (range participants) as [|first others] eqn:R.
    { simpl in Hlen. fold N in Hlen. lia. }
    exists first, others. cbn [map adjustFirst ss_UserID ss_Value] in *.
    split; [reflexivity|]. split; [exact Hnd|]. split; [exact Hin|].
    split; [exact Hlen|exact Hcalc].
  - pose proof (range_size (participantsOf expense100)) as Hlen.
    remember (range (participantsOf expense100)) as visited eqn:Hv.
    assert (Hcalc : calculateEqualShares range expense100
                    = inr (adjustFirst 0
                             (map (fun u => mkSplitShare u 14.285714285714286)
                                  visited))).
    { unfold calculateEqualShares. rewrite <- Hv. reflexivity. }
    assert (Hvalues : map ss_Value
                        (adjustFirst 0
                           (map (fun u => mkSplitShare u 14.285714285714286)
                                visited))
                      = replicate 7 14.285714285714286).
    { rewrite equal_values by reflexivity. now rewrite Hlen. }
    eexists. split; [exact Hcalc|]. split; [exact Hvalues|].
    rewrite sumValues_values, sumExactly_values, Hvalues.
    split; [reflexivity|]. split; [discriminate|]. reflexivity.
  - pose proof (range_size (participantsOf expense90)) as Hlen.
    remember (range (participantsOf expense90)) as visited eqn:Hv.
    assert (Hcalc : calculateEqualShares range expense90
                    = inr (adjustFirst 0
                             (map (fun u => mkSplitShare u 30) visited))).
    { unfold calculateEqualShares. rewrite <- Hv. reflexivity. }
    eexists. split; [exact Hcalc|].
    rewrite equal_values by reflexivity. now rewrite Hlen.
Qed.

(** C1: the sum of the resolved shares against the amount.  The exact
    resolver enforces the tolerance: what it resolves sums, in binary64,
    to within 0.01 of the amount.  The equal resolver does not: 10^15 paid
    by one user and split equally among six passes [validateExpense] and
    resolves to six shares of 166666666666666.66, which sum to
    999999999999999.875 in binary64, 0.125 less than the amount, and to
    1/16 less than the amount as rational numbers.  The same amount split
    among the same six by weights of 1 each, where the last share is the
    amount minus the running sum, sums to the amount. *)
Theorem calculateShares_sum_tolerance :
  (forall (expense : Expense) (shares : list SplitShare),
      sd_Type (e_Split expense) = SplitExact ->
      calculateShares range expense = inr shares ->
      within001 (sumValues shares) (e_Amount expense))
  /\ validateExpense expense1e15 = None
  /\ (exists shares,
        calculateShares range expense1e15 = inr shares
        /\ map ss_Value shares = replicate 6 166666666666666.66
        /\ sumValues shares = 999999999999999.875
        /\ ~ within001 (sumValues shares) (e_Amount expense1e15)
        /\ (toQ (e_Amount expense1e15) - sumExactly shares == 1 # 16)%Q)
  /\ (exists shares,
        calculateShares range
          (weightedSplit 1e15 "A" ["A"; "B"; "C"; "D"; "E"; "F"]%string)
        = inr shares
        /\ sumValues shares = 1e15).
Proof.
  split; [|split; [reflexivity|split]].
  3:{ eexists. split; reflexivity. }
  - intros expense shares Ht. unfold calculateShares. rewrite Ht.
    change (String.eqb SplitExact SplitEqual) with false.
    rewrite String.eqb_refl.
    unfold calculateExactShares, within001.
    destruct (length _ =? 0)%nat; [discriminate|].
    destruct (sumExact _ 0) as [err|total] eqn:E; [discriminate|].
    destruct (fgt _ _) eqn:G; [discriminate|].
    intros [= <-]. rewrite map_rebuild_share.
    apply sumExact_total in E. destruct E as [_ ->]. exact G.
  - pose proof (range_size (participantsOf expense1e15)) as Hlen.
    remember (range (participantsOf expense1e15)) as visited eqn:Hv.
    assert (Hcalc : calculateShares range expense1e15
                    = inr (adjustFirst 0
                             (map (fun u => mkSplitShare u 166666666666666.66)
                                  visited))).
    { unfold calculateShares, calculateEqualShares. rewrite <- Hv.
      reflexivity. }
    assert (Hvalues : map ss_Value
                        (adjustFirst 0
                           (map (fun u => mkSplitShare u 166666666666666.66)
                                visited))
                      = replicate 6 166666666666666.66).
    { rewrite equal_values by reflexivity. now rewrite Hlen. }
    eexists. split; [exact Hcalc|]. split; [exact Hvalues|].
    unfold within001.
    rewrite sumValues_values, sumExactly_values, Hvalues.
    split; [reflexivity|]. split; [discriminate|]. reflexivity.
Qed.

End EqualSplit.

(** ** Calls, reads and transactions *)

Lemma readonly_atomic {A : Type} (m : M A) : readonly m -> atomic m.
Proof. intros H w err w' E. specialize (H w). now rewrite E in H. Qed.

Lemma readonly_ret {A : Type} (a : A) : readonly (mret a : M A).
Proof. intros w. reflexivity. Qed.

Lemma readonly_fail {A : Type} (err : error) : readonly (fail err : M A).
Proof. intros w. reflexivity. Qed.

Lemma readonly_bind {A B : Type} (m : M A) (f : A -> M B) :
  readonly m -> (forall a, readonly (f a)) -> readonly (m ≫= f).
Proof.
  intros Hm Hf w. unfold mbind, M_bind. specialize (Hm w).
  destruct (m w) as [[err|a] w1]; [exact Hm|].
  cbn [snd] in Hm. rewrite <- Hm. apply Hf.
Qed.

Lemma atomic_bind {A B : Type} (m : M A) (f : A -> M B) :
  readonly m -> (forall a, atomic (f a)) -> atomic (m ≫= f).
Proof.
  intros Hm Hf w err w'. unfold mbind, M_bind. specialize (Hm w).
  destruct (m w) as [[err1|a] w1]; cbn [snd] in Hm.
  - intros [= <- <-]. exact Hm.
  - intros E. rewrite <- Hm. eapply Hf; eauto.
Qed.

Lemma readonly_driverCall : readonly driverCall.
Proof.
  intros w. unfold driverCall.
  destruct (w_driver w) as [|[|] rest]; reflexivity.
Qed.

Lemma readonly_query {A : Type} (f : Store -> A) : readonly (query f).
Proof. intros w. reflexivity. Qed.

Lemma readonly_wrap {A : Type} (f : error -> error) (m : M A) :
  readonly m -> readonly (wrap f m).
Proof.
  intros H w. unfold wrap. specialize (H w).
  now destruct (m w) as [[err|a] w1].
Qed.

Lemma atomic_wrap {A : Type} (f : error -> error) (m : M A) :
  atomic m -> atomic (wrap f m).
Proof.
  intros H w err w'. unfold wrap.
  destruct (m w) as [[err1|a] w1] eqn:E; [|discriminate].
  intros [= _ <-]. eapply H; eauto.
Qed.

Lemma atomic_WithTransaction {A : Type} (fn : M A) :
  atomic (WithTransaction fn).
Proof.
  intros w err w'. unfold WithTransaction.
  destruct (fn w) as [[err1|a] w1]; [|discriminate].
  intros [= _ <-]. reflexivity.
Qed.

Lemma readonly_check (v : option error) : readonly (check v).
Proof. destruct v; intros w; reflexivity. Qed.

Lemma readonly_lift {A : Type} (v : error + A) : readonly (lift v).
Proof. destruct v; intros w; reflexivity. Qed.

Lemma readonly_ExistMultiple (userIDs : list string) :
  readonly (UserRepository.ExistMultiple userIDs).
Proof.
  unfold UserRepository.ExistMultiple.
  destruct (length userIDs =? 0)%nat; [apply readonly_ret|].
  apply readonly_bind; [apply readonly_driverCall|].
  intros _. apply readonly_query.
Qed.

Lemma readonly_GetNonMembers (groupID : string) (userIDs : list string) :
  readonly (GroupRepository.GetNonMembers groupID userIDs).
Proof.
  unfold GroupRepository.GetNonMembers.
  destruct (length userIDs =? 0)%nat; [apply readonly_ret|].
  apply readonly_bind; [apply readonly_driverCall|].
  intros _. apply readonly_query.
Qed.

Lemma readonly_validateUsersExist (range : gset string -> list string)
    (expense : Expense) :
  readonly (validateUsersExist range expense).
Proof.
  unfold validateUsersExist. apply readonly_bind.
  - apply readonly_wrap, readonly_ExistMultiple.
  - intros [|user rest]; [apply readonly_ret|apply readonly_fail].
Qed.

Lemma readonly_validateGroupMembership (range : gset string -> list string)
    (groupID : string) (expense : Expense) :
  readonly (validateGroupMembership range groupID expense).
Proof.
  unfold validateGroupMembership. apply readonly_bind.
  - apply readonly_wrap, readonly_GetNonMembers.
  - intros [|user rest]; [apply readonly_ret|apply readonly_fail].
Qed.

(** ** The increments of an expense *)

Lemma updateAll_app (now : Z) (groupID : option string)
    (ds1 ds2 : list (string * float)) (k : M unit) :
  forall w,
    (updateAll now groupID (ds1 ++ ds2) ;; k) w
    = (updateAll now groupID ds1 ;; updateAll now groupID ds2 ;; k) w.
Proof.
  induction ds1 as [|d rest IH]; intros w; [reflexivity|].
  cbn [app updateAll]. unfold mbind, M_bind in *.
  destruct (BalanceRepository.UpdateBalance now (fst d) groupID (snd d) w)
    as [[err|[]] w1]; [reflexivity|].
  apply IH.
Qed.

Lemma updateBalancesPayers_updateAll (now : Z) (groupID : option string)
    (share : SplitShare) (paidBy : list PaidBy) (k : M unit) :
  forall w,
    (updateBalancesPayers now groupID share paidBy ;; k) w
    = (updateAll now groupID (deltasPayers share paidBy) ;; k) w.
Proof.
  induction paidBy as [|pb rest IH]; intros w; [reflexivity|].
  cbn [updateBalancesPayers deltasPayers].
  destruct (String.eqb (pb_UserID pb) (ss_UserID share)).
  - cbn [app updateAll fst snd]. unfold mbind, M_bind in *.
    destruct (BalanceRepository.UpdateBalance _ _ _ _ w) as [[err|[]] w1];
      [reflexivity|].
    apply IH.
  - unfold fgt. destruct (0 <? ss_Value share).
    + cbn [app updateAll fst snd]. unfold mbind, M_bind in *.
      destruct (BalanceRepository.UpdateBalance _ _ _ _ w) as [[err|[]] w1];
        [reflexivity|].
      destruct (BalanceRepository.UpdateBalance _ _ _ _ w1) as [[err|[]] w2];
        [reflexivity|].
      apply IH.
    + cbn [app]. unfold mbind, M_bind, mret, M_ret in *. apply IH.
Qed.

Lemma updateBalancesShares_updateAll (now : Z) (groupID : option string)
    (paidBy : list PaidBy) (details : list SplitShare) (k : M unit) :
  forall w,
    (updateBalancesShares now groupID paidBy details ;; k) w
    = (updateAll now groupID
         (flat_map (fun share => deltasPayers share paidBy) details) ;; k) w.
Proof.
  revert k. induction details as [|share rest IH]; intros k w; [reflexivity|].
  cbn [updateBalancesShares flat_map].
  rewrite updateAll_app.
  rewrite <- (updateBalancesPayers_updateAll now groupID share paidBy
                (updateAll now groupID
                   (flat_map (fun share => deltasPayers share paidBy) rest)
                 ;; k) w).
  unfold mbind, M_bind in *.
  destruct (updateBalancesPayers now groupID share paidBy w)
    as [[err|[]] w1]; [reflexivity|].
  apply (IH k w1).
Qed.

(** [updateBalances] is the sequence of [UpdateBalance] calls for the
    increments of the expense. *)
Lemma updateBalances_updateAll (now : Z) (expense : Expense) (w : World) :
  updateBalances now expense w
  = updateAll now (e_GroupID expense) (deltas expense) w.
Proof.
  pose proof (updateBalancesShares_updateAll now (e_GroupID expense)
                (e_PaidBy expense) (sd_Details (e_Split expense))
                (mret tt) w) as H.
  unfold updateBalances, deltas. unfold mbind, M_bind, mret, M_ret in H.
  destruct (updateBalancesShares _ _ _ _ w) as [[err|[]] w1];
    destruct (updateAll _ _ _ w) as [[err'|[]] w1']; congruence.
Qed.

Lemma UpdateBalance_run (now : Z) (userID : string)
    (groupID : option string) (amount : float) (w : World) :
  BalanceRepository.UpdateBalance now userID groupID amount w
  = match w_driver w with
    | true :: rest => (inl ErrDriver, mkWorld (w_store w) rest)
    | _ =>
        (inr tt,
         mkWorld (increment now userID groupID amount (w_store w))
                 (tail (w_driver w)))
    end.
Proof. destruct w as [st [|[|] rest]]; reflexivity. Qed.

(** A sequence of [UpdateBalance] calls either applies all its increments
    or stops at a failed driver call. *)
Lemma updateAll_cases (now : Z) (groupID : option string)
    (ds : list (string * float)) :
  forall w,
    (exists driver,
        updateAll now groupID ds w
        = (inr tt, mkWorld (applyDeltas now groupID ds (w_store w)) driver))
    \/ (exists w', updateAll now groupID ds w = (inl ErrDriver, w')).
Proof.
  induction ds as [|d rest IH]; intros w.
  - left. exists (w_driver w). destruct w. reflexivity.
  - cbn [updateAll applyDeltas foldl]. unfold mbind, M_bind.
    rewrite UpdateBalance_run.
    destruct (w_driver w) as [|[|] driver] eqn:D.
    + apply (IH (mkWorld _ _)).
    + right. eauto.
    + apply (IH (mkWorld _ _)).
Qed.

(** With no failing driver call ahead, all the increments are applied. *)
Lemma updateAll_succeeds (now : Z) (groupID : option string)
    (ds : list (string * float)) :
  forall w,
    Forall (fun outcome => outcome = false) (w_driver w) ->
    exists driver,
      updateAll now groupID ds w
      = (inr tt, mkWorld (applyDeltas now groupID ds (w_store w)) driver)
      /\ Forall (fun outcome => outcome = false) driver.
Proof.
  induction ds as [|d rest IH]; intros w Hd.
  - exists (w_driver w). destruct w. split; [reflexivity|exact Hd].
  - cbn [updateAll applyDeltas foldl]. unfold mbind, M_bind.
    rewrite UpdateBalance_run.
    destruct (w_driver w) as [|[|] driver] eqn:D.
    + apply (IH (mkWorld _ _)). constructor.
    + inversion Hd; discriminate.
    + apply (IH (mkWorld _ _)). cbn [w_driver tail]. now inversion Hd.
Qed.

(** ** Recording an expense *)

Lemma atomic_then_ret {A B : Type} (m : M A) (b : B) :
  atomic m -> atomic (m ≫= fun _ => mret b).
Proof.
  intros H w err w'. unfold mbind, M_bind, mret, M_ret.
  destruct (m w) as [[err1|a] w1] eqn:E; [|discriminate].
  intros [= _ <-]. eapply H; eauto.
Qed.

Lemma atomic_CreateExpense (range : gset string -> list string)
    (newID : string) (now : Z) (expense : Expense) :
  atomic (CreateExpense range newID now expense).
Proof.
  unfold CreateExpense.
  apply atomic_bind; [apply readonly_check|]. intros _.
  apply atomic_bind; [apply readonly_validateUsersExist|]. intros _.
  apply atomic_bind.
  { destruct (e_GroupID expense);
      [apply readonly_validateGroupMembership|apply readonly_ret]. }
  intros _.
  apply atomic_bind; [apply readonly_lift|]. intros shares.
  apply atomic_bind; [apply readonly_wrap, readonly_driverCall|]. intros _.
  apply atomic_then_ret, atomic_wrap, atomic_WithTransaction.
Qed.

Lemma CreateExpense_run (now : Z) (expense : Expense) (w : World) :
  let doc :=
    mkExpense (e_ExpenseID expense) (e_GroupID expense) (e_CreatorID expense)
      (e_Title expense) (e_Amount expense) (e_Currency expense)
      (e_PaidBy expense) (e_Split expense) now now false in
  ExpenseRepository.CreateExpense now expense w
  = match w_driver w with
    | true :: rest => (inl ErrDriver, mkWorld (w_store w) rest)
    | _ =>
        (inr doc,
         mkWorld (set_expenses (st_expenses (w_store w) ++ [doc]) (w_store w))
                 (tail (w_driver w)))
    end.
Proof. destruct w as [st [|[|] rest]]; reflexivity. Qed.

(** The store after a transaction that succeeds. *)
Lemma transaction_success (now : Z) (expense stored : Expense) (w w' : World) :
  transaction now expense w = (inr stored, w') ->
  stored
  = mkExpense (e_ExpenseID expense) (e_GroupID expense) (e_CreatorID expense)
      (e_Title expense) (e_Amount expense) (e_Currency expense)
      (e_PaidBy expense) (e_Split expense) now now false
  /\ w_store w'
     = applyDeltas now (e_GroupID expense) (deltas expense)
         (set_expenses (st_expenses (w_store w) ++ [stored]) (w_store w)).
Proof.
  unfold transaction, mbind, M_bind, mret, M_ret.
  rewrite CreateExpense_run. cbv zeta.
  set (doc := mkExpense _ _ _ _ _ _ _ _ now now false).
  set (w1 := mkWorld _ (tail (w_driver w))).
  assert (Hrun : match updateBalances now doc w1 with
                 | (inl err, w2) => (inl err, w2)
                 | (inr _, w2) => (inr doc, w2)
                 end = (inr stored, w') ->
                 stored = doc
                 /\ w_store w'
                    = applyDeltas now (e_GroupID expense) (deltas expense)
                        (set_expenses (st_expenses (w_store w) ++ [stored])
                                      (w_store w))).
  { rewrite updateBalances_updateAll.
    destruct (updateAll_cases now (e_GroupID doc) (deltas doc) w1)
      as [[d E]|[w2 E]]; rewrite E; [|discriminate].
    intros [= <- <-]. split; reflexivity. }
  destruct (w_driver w) as [|[|] driver]; [exact Hrun|discriminate|exact Hrun].
Qed.

(** What a successful [CreateExpense] has done. *)
Lemma CreateExpense_success (range : gset string -> list string)
    (newID : string) (now : Z) (expense created : Expense) (w w' : World) :
  CreateExpense range newID now expense w = (inr created, w') ->
  validateExpense expense = None
  /\ exists shares,
       calculateShares range expense = inr shares
       /\ created = withShares newID now expense shares
       /\ w_store w'
          = applyDeltas now (e_GroupID expense) (deltas created)
              (set_expenses
                 (st_expenses (w_store w)
                  ++ [storedExpense newID now expense shares])
                 (w_store w)).
Proof.
  unfold CreateExpense.
  destruct (validateExpense expense) as [err|] eqn:V; [discriminate|].
  unfold check. unfold mbind at 1. unfold M_bind at 1.
  unfold mret at 1. unfold M_ret at 1.
  unfold mbind at 1. unfold M_bind at 1.
  pose proof (readonly_validateUsersExist range expense w) as R1.
  destruct (validateUsersExist range expense w) as [[err|[]] w1];
    [discriminate|]. cbn [snd] in R1.
  unfold mbind at 1. unfold M_bind at 1.
  assert (R2 : readonly (match e_GroupID expense with
                         | Some groupID =>
                             validateGroupMembership range groupID expense
                         | None => mret tt
                         end)).
  { destruct (e_GroupID expense);
      [apply readonly_validateGroupMembership|apply readonly_ret]. }
  specialize (R2 w1).
  destruct (match e_GroupID expense with
            | Some groupID => validateGroupMembership range groupID expense
            | None => mret tt
            end w1) as [[err|[]] w2]; [discriminate|]. cbn [snd] in R2.
  unfold mbind at 1. unfold M_bind at 1.
  destruct (calculateShares range expense) as [err|shares] eqn:C;
    [discriminate|].
  unfold lift. unfold mret at 1. unfold M_ret at 1.
  unfold mbind at 1. unfold M_bind at 1.
  pose proof (readonly_wrap ErrStartSession ExpenseRepository.StartSession
                readonly_driverCall w2) as R3.
  destruct (wrap ErrStartSession ExpenseRepository.StartSession w2)
    as [[err|[]] w3]; [discriminate|]. cbn [snd] in R3.
  unfold mbind, M_bind, mret, M_ret, wrap, WithTransaction.
  destruct (transaction now (withShares newID now expense shares) w3)
    as [[err|stored] w4] eqn:T; [discriminate|].
  intros [= <- <-]. split; [reflexivity|].
  exists shares. split; [reflexivity|]. split; [reflexivity|].
  apply transaction_success in T. destruct T as [-> ->].
  now rewrite R3, R2, R1.
Qed.

(** X12: [CreateExpense] is all or nothing.  Whatever error it returns (a
    validation or a referential error, an error of a resolver, a failed
    start of the session, or a driver call that fails inside the
    transaction, after the expense was inserted or after some of the
    balances were incremented) the collections are as they were.  When it
    succeeds, the expense passed validation, its details are the shares
    that [calculateShares] resolved, one expense document was appended,
    and the balances got the increments of the expense, in their order.
    The rollback is not idle: when the third [UpdateBalance] of the 90.00
    scenario fails, the callback has inserted the expense and incremented
    two balances, and [CreateExpense] returns with the collections as they
    were. *)
Theorem CreateExpense_all_or_nothing (range : gset string -> list string)
    (newID : string) (now : Z) (expense : Expense) (w : World) :
  (forall err w',
      CreateExpense range newID now expense w = (inl err, w') ->
      w_store w' = w_store w)
  /\ (forall created w',
         CreateExpense range newID now expense w = (inr created, w') ->
         validateExpense expense = None
         /\ calculateShares range expense
            = inr (sd_Details (e_Split created))
         /\ created
            = withShares newID now expense (sd_Details (e_Split created))
         /\ w_store w'
            = applyDeltas now (e_GroupID expense) (deltas created)
                (set_expenses
                   (st_expenses (w_store w)
                    ++ [storedExpense newID now expense
                          (sd_Details (e_Split created))])
                   (w_store w)))
  /\ (exists shares w2,
         calculateShares elements expense90 = inr shares
         /\ transaction 7 (withShares "e1" 7 expense90 shares)
                        (worldABC [false; false; false; true])
            = (inl ErrDriver, w2)
         /\ length (st_expenses (w_store w2)) = 1%nat
         /\ size (st_balances (w_store w2)) = 2%nat
         /\ CreateExpense elements "e1" 7 expense90
              (worldABC [false; false; false; false; false; true])
            = (inl (ErrTransactionFailed ErrDriver), worldABC [])).
Proof.
  split; [apply atomic_CreateExpense|]. split.
  - intros created w' H. apply CreateExpense_success in H.
    destruct H as (V & shares & C & -> & S).
    cbn [withShares e_Split sd_Details] in *. now rewrite C, S.
  - eexists. eexists. split; [vm_compute; reflexivity|].
    split; [vm_compute; reflexivity|].
    split; [vm_compute; reflexivity|].
    split; vm_compute; reflexivity.
Qed.

(** ** Blind increments *)

Lemma increment_lookup (now : Z) (userID : string) (groupID : option string)
    (amount : float) (st : Store) (u : string) :
  st_balances (increment now userID groupID amount st) !! (u, groupID)
  = if String.eqb userID u
    then Some (match st_balances st !! (u, groupID) with
               | Some b => mkBalance (b_UserID b) (b_GroupID b)
                             (b_Balance b + amount) (b_Currency b) now
                             (b_Version b + 1)%Z
               | None => mkBalance u groupID amount "USD" now 1%Z
               end)
    else st_balances st !! (u, groupID).
Proof.
  unfold increment. cbn [st_balances set_balances].
  destruct (String.eqb userID u) eqn:E.
  - apply String.eqb_eq in E. subst. now rewrite lookup_insert_eq.
  - apply String.eqb_neq in E. rewrite lookup_insert_ne by congruence.
    reflexivity.
Qed.

Lemma applyDeltas_lookup (now : Z) (groupID : option string) (u : string)
    (ds : list (string * float)) :
  forall st,
    b_Balance <$> st_balances (applyDeltas now groupID ds st) !! (u, groupID)
    = accumulate (b_Balance <$> st_balances st !! (u, groupID))
                 (incrementsOf u ds)
    /\ versionOf (applyDeltas now groupID ds st) u groupID
       = (versionOf st u groupID
          + Z.of_nat (length (incrementsOf u ds)))%Z.
Proof.
  unfold applyDeltas, incrementsOf, accumulate, versionOf.
  induction ds as [|[u' a] rest IH]; intros st.
  - split; [reflexivity|]. cbn. lia.
  - cbn [foldl fst snd List.filter].
    destruct (IH (increment now u' groupID a st)) as [IHb IHv].
    rewrite IHb, IHv, increment_lookup.
    destruct (String.eqb u' u).
    + cbn [map foldl length snd fmap option_fmap option_map].
      destruct (st_balances st !! (u, groupID)) as [b|];
        cbn [fmap option_fmap option_map b_Balance b_Version];
        split; try reflexivity; lia.
    + split; [reflexivity|lia].
Qed.

Lemma incrementsOf_perm (u : string) (ds ds' : list (string * float)) :
  ds ≡ₚ ds' -> length (incrementsOf u ds) = length (incrementsOf u ds').
Proof.
  intros H. unfold incrementsOf. rewrite !length_map.
  induction H as [|x l l' _ IH|x y l|l1 l2 l3 _ IH1 _ IH2].
  - reflexivity.
  - cbn. destruct (String.eqb (fst x) u); cbn; now rewrite IH.
  - cbn. destruct (String.eqb (fst x) u), (String.eqb (fst y) u); reflexivity.
  - now rewrite IH1.
Qed.

(** X5: a sequence of [UpdateBalance] calls in one scope, none of which
    fails.  The version of a balance grows by the number of its
    increments; the balance is the balance before with the increments
    added one after the other in binary64, the first of them being the
    balance of a document that did not exist.  The increments in another
    order give the same versions but not always the same balance: 0.1, 0.2
    and 0.3 make 0.6000000000000001, and 0.3, 0.2 and 0.1 make 0.6. *)
Theorem UpdateBalance_sequence (now : Z) (groupID : option string)
    (ds : list (string * float)) (w : World) (userID : string) :
  Forall (fun outcome => outcome = false) (w_driver w) ->
  (exists w',
      updateAll now groupID ds w = (inr tt, w')
      /\ w_store w' = applyDeltas now groupID ds (w_store w)
      /\ versionOf (w_store w') userID groupID
         = (versionOf (w_store w) userID groupID
            + Z.of_nat (length (incrementsOf userID ds)))%Z
      /\ b_Balance <$> st_balances (w_store w') !! (userID, groupID)
         = accumulate
             (b_Balance <$> st_balances (w_store w) !! (userID, groupID))
             (incrementsOf userID ds)
      /\ (forall ds', ds ≡ₚ ds' ->
            versionOf (applyDeltas now groupID ds' (w_store w)) userID groupID
            = versionOf (w_store w') userID groupID))
  /\ (let balanceAfter ds :=
        b_Balance
          <$> st_balances (w_store (snd (updateAll now None ds (worldABC []))))
              !! ("A"%string, None) in
      balanceAfter [("A"%string, 0.1); ("A"%string, 0.2); ("A"%string, 0.3)]
      = Some 0.6000000000000001
      /\ balanceAfter [("A"%string, 0.3); ("A"%string, 0.2); ("A"%string, 0.1)]
         = Some 0.6).
Proof.
  intros Hd. split.
  - destruct (updateAll_succeeds now groupID ds w Hd) as (driver & E & _).
    eexists. split; [exact E|]. cbn [w_store].
    destruct (applyDeltas_lookup now groupID userID ds (w_store w))
      as [Hb Hv].
    split; [reflexivity|]. split; [exact Hv|]. split; [exact Hb|].
    intros ds' Hperm.
    destruct (applyDeltas_lookup now groupID userID ds' (w_store w))
      as [_ Hv'].
    rewrite Hv, Hv'. now rewrite (incrementsOf_perm userID ds ds' Hperm).
  - cbv beta zeta.
    assert (E : forall ds,
               w_store (snd (updateAll now None ds (worldABC [])))
               = applyDeltas now None ds (w_store (worldABC []))).
    { intros l.
      destruct (updateAll_succeeds now None l (worldABC [])) as (d & E & _);
        [constructor|].
      now rewrite E. }
    rewrite !E.
    split.
    + rewrite (proj1 (applyDeltas_lookup now None "A" _ _)).
      vm_compute. reflexivity.
    + rewrite (proj1 (applyDeltas_lookup now None "A" _ _)).
      vm_compute. reflexivity.
Qed.

(** ** The properties at concrete inputs *)

Lemma calculateShares_sum_tolerance_witness :
  validateExpense expense1e15 = None
  /\ exists shares,
       calculateShares elements expense1e15 = inr shares
       /\ map ss_Value shares = replicate 6 166666666666666.66
       /\ sumValues shares = 999999999999999.875
       /\ ~ within001 (sumValues shares) (e_Amount expense1e15)
       /\ (toQ (e_Amount expense1e15) - sumExactly shares == 1 # 16)%Q.
Proof.
  destruct (calculateShares_sum_tolerance elements elements_perm)
    as (_ & Hvalid & Hshares & _).
  split; [exact Hvalid|exact Hshares].
Defined.

Lemma calculateEqualShares_spec_witness :
  exists shares,
    calculateEqualShares elements expense100 = inr shares
    /\ map ss_Value shares = replicate 7 14.285714285714286
    /\ sumValues shares = 100.00000000000001
    /\ sumValues shares <> e_Amount expense100
    /\ (toQ (e_Amount expense100) < sumExactly shares)%Q.
Proof.
  exact (proj1 (proj2 (proj2 (proj2
           (calculateEqualShares_spec elements elements_perm expense100))))).
Defined.

Lemma UpdateBalance_sequence_witness :
  exists w',
    updateAll 7 None [("A"%string, 60); ("B"%string, -30); ("A"%string, 30)]
              (worldABC [false; false; false]) = (inr tt, w')
    /\ versionOf (w_store w') "A" None = 2%Z
    /\ b_Balance <$> st_balances (w_store w') !! ("A"%string, None) = Some 90.
Proof.
  destruct (UpdateBalance_sequence 7 None
              [("A"%string, 60); ("B"%string, -30); ("A"%string, 30)]
              (worldABC [false; false; false]) "A") as [H _].
  { repeat constructor. }
  destruct H as (w' & E & _ & Hv & Hb & _).
  exists w'. split; [exact E|]. split; [exact Hv|exact Hb].
Defined.

(** The tolerance tests at their edge: ten payments that make 100.01 in
    decimal are refused for an amount of 100.00, because their binary64
    sum is more than 0.01 away from it; a payment of 1 on top of 2^53 is
    lost in the sum, and the expense passes. *)
Example validateExpense_edge_refused :
  validateExpense (paidExpense 100 [10; 10; 10; 10; 10; 10; 10; 10; 10; 10.01])
  = Some (ErrTotalPaidMismatch 100.01 100).
Proof. reflexivity. Qed.

Example validateExpense_edge_accepted :
  validateExpense (paidExpense 9007199254740992 [9007199254740992; 1]) = None.
Proof. reflexivity. Qed.

Example percentage_99_fails :
  calculatePercentageShares (percentages [60; 39])
  = inl (ErrTotalPercentage 99).
Proof. reflexivity. Qed.

Example percentage_101_fails :
  calculatePercentageShares (percentages [60; 41])
  = inl (ErrTotalPercentage 101).
Proof. reflexivity. Qed.

Example percentage_edge_refused :
  calculatePercentageShares
    (percentages [10; 10; 10; 10; 10; 10; 10; 10; 10; 10.01])
  = inl (ErrTotalPercentage 100.01).
Proof. reflexivity. Qed.

Example percentage_edge_resolved :
  valuesOf (calculatePercentageShares (percentages [50; 50.00999999999999]))
  = inr [50; 50].
Proof. reflexivity. Qed.

(** Thirty further entries of 1e-15 are lost in the running total, which
    stays within the tolerance although the exact sum is beyond it. *)
Example percentage_edge_absorbed :
  exists shares,
    calculatePercentageShares
      (percentages (50 :: 50.00999999999999 :: replicate 30 1e-15))
    = inr shares.
Proof. eexists. reflexivity. Qed.

Example percentage_thirds :
  valuesOf (calculatePercentageShares (percentages [33.33; 33.33; 33.34]))
  = inr [33.33; 33.33; 33.34].
Proof. reflexivity. Qed.
